(** * spex-api: claim/ownership state machine and contact-file rendering

    A shallow embedding of [src/server.js] (the Express handlers for
    [POST /api/card/claim], [PUT /api/card/:uid], [GET /api/card/:uid.vcf])
    and of the vCard helpers of [scripts/gen_qrs.mjs], with the properties
    of the specification stated over them.

    Conventions.
    - A JavaScript string is its sequence of UTF-16 code units ([list N]);
      [lit] injects an ASCII literal.
    - A nullable TEXT column, and a request property read at that type, is
      an [option]: [None] stands for [null] and for [undefined].
    - The card table is a finite map from the primary key [uid] to rows.
    - [jsonwebtoken] is a parameter of the development (Section [Codec]).
    - So is the rule by which the database takes or refuses a text
      (Section [Store]). *)

From Stdlib Require Import ZArith NArith QArith Qminmax Qround List String Ascii Bool Lia.
From stdpp Require Import base option list gmap.
Import ListNotations.

Set Warnings "-register-all".

(* ------------------------------------------------------------------ *)
(** ** JavaScript strings and JSON values *)

Abbreviation jstring := (list N).

Definition lit (s : string) : jstring :=
  map N_of_ascii (list_ascii_of_string s).

(** [!!v] for a value that is a string, [null] or [undefined]: only the
    non-empty string is truthy. *)
Definition truthy (v : option jstring) : bool :=
  match v with
  | Some (_ :: _) => true
  | _ => false
  end.

(** [v || ''] *)
Definition or_empty (v : option jstring) : jstring :=
  if truthy v then default [] v else [].

(** JSON values, for [socials] and for response bodies. Numbers are kept
    as integers; no handler looks inside one. *)
Inductive json : Type :=
  | JNull
  | JBool (b : bool)
  | JNum (n : Z)
  | JStr (s : jstring)
  | JArr (items : list json)
  | JObj (props : list (jstring * json)).

(** [v ?? {}] on a JSON property ([None] is [undefined]). *)
Definition or_empty_object (v : option json) : json :=
  match v with
  | None | Some JNull => JObj []
  | Some j => j
  end.

(* ------------------------------------------------------------------ *)
(** ** Data model *)

(** One row of table [Card] (prisma/migrations, plus the claim columns
    the handlers read and write). [updatedAt] has no SQL default and
    [prisma.card.create({data: {uid}})] does not supply it: it is a Prisma
    [@updatedAt] column, set by the client on every write. *)
Module Card.
Record t : Type := mk {
  uid : jstring;
  email : option jstring;
  name : option jstring;
  company : option jstring;
  title : option jstring;
  phone : option jstring;
  mobile : option jstring;
  emailPublic : option jstring;
  website : option jstring;
  address : option jstring;
  socials : option json;
  imageUrl : option jstring;
  createdAt : Z;
  updatedAt : Z;
  claimedAt : option Z;
  claimedByEmail : option jstring
}.

(** The row [prisma.card.create({data: {uid}})] inserts at time [now]. *)
Definition blank (u : jstring) (now : Z) : t :=
  mk u None None None None None None None None None None None now now None None.
End Card.

(** The [profile] object of a request body. The ten properties the
    handlers read are taken at their column types; [extra] holds every
    other property the client may have put in the object. *)
Module Profile.
Record t : Type := mk {
  name : option jstring;
  company : option jstring;
  title : option jstring;
  phone : option jstring;
  mobile : option jstring;
  email : option jstring;
  website : option jstring;
  address : option jstring;
  socials : option json;
  imageUrl : option jstring;
  extra : list (jstring * json)
}.

(** [{}] *)
Definition empty : t :=
  mk None None None None None None None None None None [].
End Profile.

(** The [data] argument both write paths build: ten columns, each
    [p.field ?? null], and [p.socials ?? {}]. *)
Module ProfileData.
Record t : Type := mk {
  name : option jstring;
  company : option jstring;
  title : option jstring;
  phone : option jstring;
  mobile : option jstring;
  email : option jstring;
  website : option jstring;
  address : option jstring;
  socials : json;
  imageUrl : option jstring
}.
End ProfileData.

(** [name: p.name ?? null, ..., socials: p.socials ?? {}, ...]: properties
    of [p] outside these ten are not read. *)
Definition profile_data (p : Profile.t) : ProfileData.t :=
  {| ProfileData.name := Profile.name p;
     ProfileData.company := Profile.company p;
     ProfileData.title := Profile.title p;
     ProfileData.phone := Profile.phone p;
     ProfileData.mobile := Profile.mobile p;
     ProfileData.email := Profile.email p;
     ProfileData.website := Profile.website p;
     ProfileData.address := Profile.address p;
     ProfileData.socials := or_empty_object (Profile.socials p);
     ProfileData.imageUrl := Profile.imageUrl p |}.

(** Overwriting the ten profile columns of a row; [@updatedAt] follows. *)
Definition write_profile (d : ProfileData.t) (now : Z) (c : Card.t) : Card.t :=
  {| Card.uid := Card.uid c;
     Card.email := ProfileData.email d;
     Card.name := ProfileData.name d;
     Card.company := ProfileData.company d;
     Card.title := ProfileData.title d;
     Card.phone := ProfileData.phone d;
     Card.mobile := ProfileData.mobile d;
     Card.emailPublic := Card.emailPublic c;
     Card.website := ProfileData.website d;
     Card.address := ProfileData.address d;
     Card.socials := Some (ProfileData.socials d);
     Card.imageUrl := ProfileData.imageUrl d;
     Card.createdAt := Card.createdAt c;
     Card.updatedAt := now;
     Card.claimedAt := Card.claimedAt c;
     Card.claimedByEmail := Card.claimedByEmail c |}.

(** Setting the two claim columns of a row. *)
Definition write_claim (at_ : Z) (by_ : option jstring) (c : Card.t) : Card.t :=
  {| Card.uid := Card.uid c;
     Card.email := Card.email c;
     Card.name := Card.name c;
     Card.company := Card.company c;
     Card.title := Card.title c;
     Card.phone := Card.phone c;
     Card.mobile := Card.mobile c;
     Card.emailPublic := Card.emailPublic c;
     Card.website := Card.website c;
     Card.address := Card.address c;
     Card.socials := Card.socials c;
     Card.imageUrl := Card.imageUrl c;
     Card.createdAt := Card.createdAt c;
     Card.updatedAt := Card.updatedAt c;
     Card.claimedAt := Some at_;
     Card.claimedByEmail := by_ |}.

(* ------------------------------------------------------------------ *)
(** ** The card store (Prisma client over table [Card]) *)

Abbreviation store := (gmap (list N) Card.t).

(** The [data] of the claim write: profile columns, [claimedAt: new Date()]
    and [claimedByEmail: emailForLogin ?? null]. *)
Record claim_data : Type := {
  cd_profile : ProfileData.t;
  cd_claimedAt : Z;
  cd_claimedByEmail : option jstring
}.

Definition claimed_row (d : claim_data) (now : Z) (c : Card.t) : Card.t :=
  write_claim (cd_claimedAt d) (cd_claimedByEmail d)
    (write_profile (cd_profile d) now c).

(** What a Prisma call throws. *)
Inductive prisma_error : Type :=
  | RecordNotFound
  | UniqueConstraintFailed
  | RefusedText.

(** The rows of [UPDATE Card SET data WHERE uid = u AND claimedAt IS NULL],
    one statement run by the database at time [now]: the new table and
    the number of rows written. *)
Definition update_unclaimed_rows
    (u : jstring) (d : claim_data) (now : Z) (db : store) : store * nat :=
  match db !! u with
  | Some c =>
      match Card.claimedAt c with
      | None => (<[u := claimed_row d now c]> db, 1)
      | Some _ => (db, 0)
      end
  | None => (db, 0)
  end.

(** *** Texts the database takes

    Not every JavaScript string can be stored. PostgreSQL takes no text
    that holds the code point U+0000, neither in a TEXT column nor
    inside a JSONB value, nor as the value a key is compared with; such
    a statement is refused when its parameters are bound, before a row
    is read or written, and the Prisma call throws. Which texts pass is
    the parameter [accepts] of everything that talks to the database;
    [no_nul] below is PostgreSQL's part of the rule. [null] is always
    taken. *)

Section Store.

Variable accepts : jstring → bool.

Definition accepts_opt (v : option jstring) : bool :=
  match v with
  | Some s => accepts s
  | None => true
  end.

(** A JSON value passes when every string and every key in it does. *)
Fixpoint accepts_json (j : json) : bool :=
  match j with
  | JNull | JBool _ | JNum _ => true
  | JStr s => accepts s
  | JArr items => forallb accepts_json items
  | JObj props => forallb (λ kv, accepts kv.1 && accepts_json kv.2) props
  end.

(** The ten columns of a profile write. *)
Definition accepts_profile (d : ProfileData.t) : bool :=
  accepts_opt (ProfileData.name d) && accepts_opt (ProfileData.company d)
  && accepts_opt (ProfileData.title d) && accepts_opt (ProfileData.phone d)
  && accepts_opt (ProfileData.mobile d) && accepts_opt (ProfileData.email d)
  && accepts_opt (ProfileData.website d) && accepts_opt (ProfileData.address d)
  && accepts_json (ProfileData.socials d) && accepts_opt (ProfileData.imageUrl d).

(** The parameters of the claim write: the key, the profile columns and
    [claimedByEmail]. *)
Definition accepts_claim (u : jstring) (d : claim_data) : bool :=
  accepts u && accepts_profile (cd_profile d) && accepts_opt (cd_claimedByEmail d).

(** [prisma.card.findUnique({where: {uid}})] *)
Definition findUnique (db : store) (u : jstring) : prisma_error + option Card.t :=
  if accepts u then inr (db !! u) else inl RefusedText.

(** [prisma.card.updateMany({where: {uid, claimedAt: null}, data})]:
    returns the new table and [count], or throws. *)
Definition updateMany_unclaimed
    (u : jstring) (d : claim_data) (now : Z) (db : store)
    : prisma_error + (store * nat) :=
  if accepts_claim u d then inr (update_unclaimed_rows u d now db)
  else inl RefusedText.

(** [prisma.card.update({where: {uid}, data})]: throws when no row has
    that key, too. *)
Definition update
    (u : jstring) (d : ProfileData.t) (now : Z) (db : store)
    : prisma_error + store :=
  if accepts u && accepts_profile d then
    match db !! u with
    | Some c => inr (<[u := write_profile d now c]> db)
    | None => inl RecordNotFound
    end
  else inl RefusedText.

End Store.

(** PostgreSQL's rule: no code unit of the text is zero. *)
Definition no_nul (s : jstring) : bool :=
  forallb (λ c, negb (c =? 0)%N) s.

(* ------------------------------------------------------------------ *)
(** ** Responses *)

Inductive reply : Type :=
  | Json (status : nat) (body : json)
  | Send (status : nat) (headers : list (jstring * jstring)) (body : option jstring)
  | Rejected (e : prisma_error).

(** [res.status(code).json({error: e})] *)
Definition error_json (code : nat) (e : string) : reply :=
  Json code (JObj [(lit "error", JStr (lit e))]).

Definition missing_params : reply := error_json 400 "missing_params".
Definition invalid_token : reply := error_json 400 "invalid_token".
Definition token_expired_or_invalid : reply := error_json 401 "token_expired_or_invalid".
Definition already_claimed : reply := error_json 409 "already_claimed".
Definition no_token : reply := error_json 401 "no_token".
Definition bad_token : reply := error_json 401 "bad_token".
Definition forbidden : reply := error_json 403 "forbidden".
Definition not_found : reply := error_json 404 "not_found".

(** [res.json({ok: true})] *)
Definition ok_true : reply := Json 200 (JObj [(lit "ok", JBool true)]).

(* ------------------------------------------------------------------ *)
(** ** Request shapes *)

(** The decoded payload of a token, as far as the handlers read it. *)
Module Payload.
Record t : Type := mk {
  uid : option jstring;
  purpose : option jstring
}.
End Payload.

(** The JSON body of [POST /api/card/claim]. *)
Module ClaimBody.
Record t : Type := mk {
  uid : option jstring;
  claimToken : option jstring;
  profile : option Profile.t;
  emailForLogin : option jstring
}.

(** [req.body || {}] for a request without body. *)
Definition empty : t := mk None None None None.
End ClaimBody.

(** What [PUT /api/card/:uid] reads of a request: the [Authorization]
    header, the path parameter and [req.body?.profile]. *)
Module EditRequest.
Record t : Type := mk {
  authorization : option jstring;
  uid : jstring;
  profile : option Profile.t
}.
End EditRequest.

(** [raw.startsWith(prefix)] *)
Fixpoint startsWith (prefix raw : jstring) : bool :=
  match prefix, raw with
  | [], _ => true
  | p :: prefix', r :: raw' => (p =? r)%N && startsWith prefix' raw'
  | _ :: _, [] => false
  end.

(** The [data] object of the claim handler: [profile?.x ?? null] for the
    profile columns (an absent [profile] reads every property as
    [undefined]), [claimedAt: new Date()], [claimedByEmail: emailForLogin ?? null]. *)
Definition claim_data_of (now : Z) (body : ClaimBody.t) : claim_data :=
  {| cd_profile := profile_data (default Profile.empty (ClaimBody.profile body));
     cd_claimedAt := now;
     cd_claimedByEmail := ClaimBody.emailForLogin body |}.

(* ------------------------------------------------------------------ *)
(** ** Handlers, over an arbitrary credential codec *)

Section Codec.

(** The texts the database takes (Section [Store]). *)
Variable accepts : jstring → bool.

(** [jwt.sign(payload, JWT_SECRET, {expiresIn})] at a given time. *)
Variable jwt_sign : Payload.t -> option jstring -> Z -> jstring.

(** [jwt.verify(token, JWT_SECRET)] at a given time; [None] when it
    throws. *)
Variable jwt_verify : jstring -> Z -> option Payload.t.

(** *** POST /api/card/claim *)

(** The synchronous part of the handler, up to the [await]: parameter
    check, token check, and the arguments of the conditional update. *)
Definition claim_check (now : Z) (body : option ClaimBody.t)
    : reply + (jstring * claim_data) :=
  let b := default ClaimBody.empty body in
  if negb (truthy (ClaimBody.uid b)) || negb (truthy (ClaimBody.claimToken b))
  then inl missing_params
  else
    let uid := default [] (ClaimBody.uid b) in
    let claimToken := default [] (ClaimBody.claimToken b) in
    match jwt_verify claimToken now with
    | None => inl token_expired_or_invalid
    | Some payload =>
        if bool_decide (Payload.purpose payload ≠ Some (lit "claim"))
           || bool_decide (Payload.uid payload ≠ Some uid)
        then inl invalid_token
        else inr (uid, claim_data_of now b)
    end.

(** The continuation after the [await]: [updated.count] decides. *)
Definition claim_reply (now : Z) (uid : jstring) (count : nat) : reply :=
  if (count =? 0)%nat then already_claimed
  else
    let authToken :=
      jwt_sign (Payload.mk (Some uid) None) (Some (lit "90d")) now in
    Json 200 (JObj [(lit "uid", JStr uid); (lit "authToken", JStr authToken)]).

(** One call run to completion on its own. The [await] is outside the
    [try] of the token check: when the update throws, the promise of the
    handler is rejected and no response is written. *)
Definition claim (now : Z) (body : option ClaimBody.t) (db : store)
    : store * reply :=
  match claim_check now body with
  | inl r => (db, r)
  | inr (uid, d) =>
      match updateMany_unclaimed accepts uid d now db with
      | inr (db', count) => (db', claim_reply now uid count)
      | inl e => (db, Rejected e)
      end
  end.

(** *** PUT /api/card/:uid *)

(** Middleware [requireAuth]: the bearer token of the request, verified;
    on success [req.user] is the decoded payload. *)
Definition requireAuth (now : Z) (authorization : option jstring)
    : reply + Payload.t :=
  let raw := or_empty authorization in
  let token := if startsWith (lit "Bearer ") raw then Some (drop 7 raw) else None in
  if negb (truthy token) then inl no_token
  else
    match jwt_verify (default [] token) now with
    | Some user => inr user
    | None => inl bad_token
    end.

(** The handler has no [try]: when [prisma.card.update] throws, the
    promise of the handler is rejected and no response is written. *)
Definition put_card (now : Z) (req : EditRequest.t) (db : store)
    : store * reply :=
  match requireAuth now (EditRequest.authorization req) with
  | inl r => (db, r)
  | inr user =>
      if bool_decide (Payload.uid user ≠ Some (EditRequest.uid req))
      then (db, forbidden)
      else
        let p := default Profile.empty (EditRequest.profile req) in
        match update accepts (EditRequest.uid req) (profile_data p) now db with
        | inr db' => (db', ok_true)
        | inl e => (db, Rejected e)
        end
  end.

(** A token that verifies as a claim token for [u]. *)
Definition valid_claim_token (now : Z) (tok u : jstring) : Prop :=
  tok ≠ [] ∧
  ∃ p, jwt_verify tok now = Some p
       ∧ Payload.purpose p = Some (lit "claim")
       ∧ Payload.uid p = Some u.

(** *** Concurrent claim calls

    A call of the claim handler touches shared state once, in the
    conditional update it awaits. Between its arrival and its response
    it is in one of four phases; the database runs each statement it
    receives as one step. A schedule lists which call moves next and
    the clock reading at that moment; calls on other processes or
    machines interleave in the same way. *)

Inductive phase : Type :=
  | Arrived
  | Awaiting (uid : jstring) (d : claim_data)
  | Resumed (uid : jstring) (count : nat)
  | Done (r : reply).

Record call : Type := {
  c_body : option ClaimBody.t;
  c_phase : phase
}.

Record system : Type := {
  sys_db : store;
  sys_calls : list call
}.

Definition set_phase (c : call) (ph : phase) : call :=
  {| c_body := c_body c; c_phase := ph |}.

(** One move of one call. *)
Definition advance (now : Z) (c : call) (db : store) : store * call :=
  match c_phase c with
  | Arrived =>
      match claim_check now (c_body c) with
      | inl r => (db, set_phase c (Done r))
      | inr (uid, d) => (db, set_phase c (Awaiting uid d))
      end
  | Awaiting uid d =>
      match updateMany_unclaimed accepts uid d now db with
      | inr (db', count) => (db', set_phase c (Resumed uid count))
      | inl e => (db, set_phase c (Done (Rejected e)))
      end
  | Resumed uid count => (db, set_phase c (Done (claim_reply now uid count)))
  | Done _ => (db, c)
  end.

Definition step (s : system) (ev : nat * Z) : system :=
  match sys_calls s !! ev.1 with
  | Some c =>
      let '(db', c') := advance ev.2 c (sys_db s) in
      {| sys_db := db'; sys_calls := <[ev.1 := c']> (sys_calls s) |}
  | None => s
  end.

Definition run (sched : list (nat * Z)) (s : system) : system :=
  foldl step s sched.

Definition start (db : store) (bodies : list ClaimBody.t) : system :=
  {| sys_db := db;
     sys_calls := map (λ b, {| c_body := Some b; c_phase := Arrived |}) bodies |}.

Definition response (c : call) : option reply :=
  match c_phase c with
  | Done r => Some r
  | _ => None
  end.

(** Every call has responded. *)
Definition finished (s : system) : bool :=
  forallb (λ c, bool_decide (is_Some (response c))) (sys_calls s).

(** The response of the successful claim at time [now]:
    [{uid, authToken}], the token signed over [{uid}] for 90 days. *)
Definition claim_ok (now : Z) (uid : jstring) : reply :=
  Json 200
    (JObj [ (lit "uid", JStr uid);
            (lit "authToken",
             JStr (jwt_sign (Payload.mk (Some uid) None) (Some (lit "90d")) now)) ]).

End Codec.

(** *** Well-formed claim calls and the invariant of a race

    A claim request for [u]: it names [u] and carries a token that
    verifies as a claim token for [u] (claim tokens have no expiry, so
    whenever it is checked). *)
Definition claim_request_for
    (jwt_verify : jstring → Z → option Payload.t) (u : jstring) (b : ClaimBody.t)
    : Prop :=
  ClaimBody.uid b = Some u
  ∧ ∃ tok, ClaimBody.claimToken b = Some tok
           ∧ ∀ now, valid_claim_token jwt_verify now tok u.

(** A call that has not reached the database yet. *)
Definition waiting (u : jstring) (b : ClaimBody.t) (c : call) : Prop :=
  c_body c = Some b
  ∧ (c_phase c = Arrived ∨ ∃ t, c_phase c = Awaiting u (claim_data_of t b)).

(** A call whose update counted no row. *)
Definition lost (u : jstring) (b : ClaimBody.t) (c : call) : Prop :=
  c_body c = Some b
  ∧ (c_phase c = Resumed u 0 ∨ c_phase c = Done already_claimed).

(** The call whose update counted the row. *)
Definition won (jwt_sign : Payload.t → option jstring → Z → jstring)
    (u : jstring) (b : ClaimBody.t) (c : call) : Prop :=
  c_body c = Some b
  ∧ (c_phase c = Resumed u 1 ∨ ∃ t, c_phase c = Done (claim_ok jwt_sign t u)).

(** During a race for the unclaimed row [c0] of [u]: either no update has
    run and the row is [c0], or exactly one call [w] has won and the row
    is the one its update wrote. *)
Definition race_inv (jwt_sign : Payload.t → option jstring → Z → jstring)
    (u : jstring) (c0 : Card.t) (bodies : list ClaimBody.t) (s : system) : Prop :=
  length (sys_calls s) = length bodies
  ∧ ((sys_db s !! u = Some c0
      ∧ ∀ j b c, bodies !! j = Some b → sys_calls s !! j = Some c → waiting u b c)
     ∨ ∃ w bw t tdb,
         bodies !! w = Some bw
         ∧ sys_db s !! u = Some (claimed_row (claim_data_of t bw) tdb c0)
         ∧ ∀ j b c, bodies !! j = Some b → sys_calls s !! j = Some c →
                    if decide (j = w) then won jwt_sign u b c
                    else waiting u b c ∨ lost u b c).

(** Moves a call still needs before it has responded. *)
Definition moves_left (c : call) : nat :=
  match c_phase c with
  | Arrived => 3
  | Awaiting _ _ => 2
  | Resumed _ _ => 1
  | Done _ => 0
  end.

(** How often call [j] moves in a schedule. *)
Definition moves_of (j : nat) (sched : list (nat * Z)) : nat :=
  length (List.filter (λ ev, Nat.eqb ev.1 j) sched).

(* ------------------------------------------------------------------ *)
(** ** Contact file: [hasProfileData], [vcardFrom], GET /api/card/:uid.vcf *)

(** [v1 || v2] on nullable strings. *)
Definition js_or (v1 v2 : option jstring) : option jstring :=
  if truthy v1 then v1 else v2.

Definition hasProfileData (c : Card.t) : bool :=
  truthy
    (js_or (Card.name c) (js_or (Card.mobile c) (js_or (Card.phone c)
    (js_or (Card.emailPublic c) (js_or (Card.email c) (js_or (Card.company c)
    (js_or (Card.title c) (js_or (Card.website c) (js_or (Card.address c)
    (Card.imageUrl c)))))))))).

(** White space and line terminators of ECMAScript: what [trim] strips
    and what [\s] matches. *)
Definition is_ws (c : N) : bool :=
  ((9 <=? c) && (c <=? 13) || (c =? 32) || (c =? 160) || (c =? 5760)
   || (8192 <=? c) && (c <=? 8202) || (c =? 8232) || (c =? 8233)
   || (c =? 8239) || (c =? 8287) || (c =? 12288) || (c =? 65279))%N.

Fixpoint trimStart (s : jstring) : jstring :=
  match s with
  | c :: s' => if is_ws c then trimStart s' else s
  | [] => []
  end.

Fixpoint trimEnd (s : jstring) : jstring :=
  match s with
  | [] => []
  | c :: s' =>
      match trimEnd s' with
      | [] => if is_ws c then [] else [c]
      | r => c :: r
      end
  end.

(** [s.trim()] *)
Definition trim (s : jstring) : jstring := trimEnd (trimStart s).

(** [s.split(/\s+/)], scanning left to right: [cur] is the piece being
    read, [in_gap] says that the previous unit belonged to a separator.
    A separator closes the piece before it even when that piece is
    empty, and the piece open at the end of the string is always
    returned. *)
Fixpoint split_go (in_gap : bool) (cur s : jstring) : list jstring :=
  match s with
  | [] => [cur]
  | c :: s' =>
      if is_ws c
      then if in_gap then split_go true cur s'
           else cur :: split_go true [] s'
      else split_go false (cur ++ [c]) s'
  end.

Definition split_ws (s : jstring) : list jstring := split_go false [] s.

Definition crlf : jstring := [13; 10]%N.

(** [lines.join(sep)] *)
Fixpoint join (sep : jstring) (lines : list jstring) : jstring :=
  match lines with
  | [] => []
  | [x] => x
  | x :: rest => x ++ sep ++ join sep rest
  end.

(** [lines.filter(Boolean)] on strings. *)
Definition filter_Boolean (lines : list jstring) : list jstring :=
  List.filter (λ l, negb (bool_decide (l = []))) lines.

(** [v ? `${tag}${v}${close}` : ''] *)
Definition line_if (tag : string) (v : option jstring) (close : string) : jstring :=
  if truthy v then lit tag ++ default [] v ++ lit close else [].

(** [first] and [last] of [vcardFrom]. *)
Definition name_parts (name : option jstring) : jstring * jstring :=
  let parts := split_ws (trim (or_empty name)) in
  let first := or_empty (head parts) in
  let last := if (1 <? length parts)%nat then default [] (last parts) else [] in
  (first, last).

(** [`N:${last};${first};;;`] *)
Definition name_line (card : Card.t) : jstring :=
  let '(first, last) := name_parts (Card.name card) in
  lit "N:" ++ last ++ lit ";" ++ first ++ lit ";;;".

(** The array of [vcardFrom] before [filter(Boolean)]. *)
Definition vcard_entries (card : Card.t) : list jstring :=
  let email := js_or (Card.emailPublic card) (Card.email card) in
  [ lit "BEGIN:VCARD";
    lit "VERSION:3.0";
    name_line card;
    lit "FN:" ++ or_empty (Card.name card);
    line_if "ORG:" (Card.company card) "";
    line_if "TITLE:" (Card.title card) "";
    line_if "TEL;TYPE=CELL,VOICE:" (Card.mobile card) "";
    line_if "TEL;TYPE=WORK,VOICE:" (Card.phone card) "";
    line_if "EMAIL;TYPE=INTERNET:" email "";
    line_if "URL:" (Card.website card) "";
    line_if "ADR;TYPE=WORK:;;" (Card.address card) ";;;;";
    lit "END:VCARD" ].

Definition vcard_lines (card : Card.t) : list jstring :=
  filter_Boolean (vcard_entries card).

Definition vcardFrom (card : Card.t) : jstring :=
  join crlf (vcard_lines card).

Definition dquote : jstring := [34%N].

(** [res.status(204).send()] *)
Definition no_content : reply := Send 204 [] None.

(** The response carrying the file: both headers, then [res.send(vcf)]. *)
Definition vcf_file (uid vcf : jstring) : reply :=
  Send 200
    [ (lit "Content-Type", lit "text/vcard; charset=utf-8");
      (lit "Content-Disposition",
       lit "attachment; filename=" ++ dquote ++ uid ++ lit ".vcf" ++ dquote) ]
    (Some vcf).

Definition get_vcf (accepts : jstring → bool) (uid : jstring) (db : store) : reply :=
  match findUnique accepts db uid with
  | inl e => Rejected e
  | inr None => Send 404 [] (Some (lit "Not found"))
  | inr (Some c) =>
      if negb (hasProfileData c) then no_content
      else vcf_file uid (vcardFrom c)
  end.

(** A field is populated when it holds a non-empty text. *)
Definition populated (v : option jstring) : Prop :=
  ∃ s, v = Some s ∧ s ≠ [].

(** The profile fields that identify a person or a way to reach them. *)
Definition identity_fields (c : Card.t) : list (option jstring) :=
  [ Card.name c; Card.mobile c; Card.phone c; Card.emailPublic c; Card.email c;
    Card.company c; Card.title c; Card.website c; Card.address c;
    Card.imageUrl c ].

Definition no_identity_field (c : Card.t) : Prop :=
  Forall (λ v, ¬ populated v) (identity_fields c).

(** The fields [vcardFrom] writes into the file: all of the identity
    fields but [imageUrl]. *)
Definition rendered_fields (c : Card.t) : list (option jstring) :=
  [ Card.name c; Card.company c; Card.title c; Card.mobile c; Card.phone c;
    Card.emailPublic c; Card.email c; Card.website c; Card.address c ].

Definition no_rendered_field (c : Card.t) : Prop :=
  Forall (λ v, ¬ populated v) (rendered_fields c).

(** The file without content: header, the two name lines with nothing
    in them, footer. It is what [vcardFrom] makes of a blank card. *)
Definition blank_vcard : jstring :=
  lit "BEGIN:VCARD" ++ [13; 10]%N ++ lit "VERSION:3.0" ++ [13; 10]%N
  ++ lit "N:;;;;" ++ [13; 10]%N ++ lit "FN:" ++ [13; 10]%N ++ lit "END:VCARD".

(* ------------------------------------------------------------------ *)
(** ** Contact file of the export script (scripts/gen_qrs.mjs) *)

(** [s.replace(/c/g, by)] for a single code unit [c]. *)
Definition replace_unit (c : N) (by_ : jstring) (s : jstring) : jstring :=
  flat_map (λ x, if (x =? c)%N then by_ else [x]) s.

(** [s.replace(/\r\n|\n|\r/g, "\\n")]: at a carriage return the
    alternative [\r\n] is tried first. *)
Fixpoint replace_breaks (s : jstring) : jstring :=
  match s with
  | [] => []
  | c :: s' =>
      if (c =? 13)%N then
        lit "\n" ++ match s' with
                    | d :: s'' =>
                        if (d =? 10)%N then replace_breaks s'' else replace_breaks s'
                    | [] => []
                    end
      else if (c =? 10)%N then lit "\n" ++ replace_breaks s'
      else c :: replace_breaks s'
  end.

(** "vCard 3.0 escaping: backslash, newline, comma, semicolon" *)
Definition vEscape (s : jstring) : jstring :=
  replace_unit 59 (lit "\;")
    (replace_unit 44 (lit "\,")
      (replace_breaks
        (replace_unit 92 (lit "\\") s))).

(** [text.split(/\r\n|\n|\r/g)] *)
Fixpoint split_breaks_go (cur s : jstring) : list jstring :=
  match s with
  | [] => [cur]
  | c :: s' =>
      if (c =? 13)%N then
        cur :: match s' with
               | d :: s'' =>
                   if (d =? 10)%N then split_breaks_go [] s''
                   else split_breaks_go [] s'
               | [] => [[]]
               end
      else if (c =? 10)%N then cur :: split_breaks_go [] s'
      else split_breaks_go (cur ++ [c]) s'
  end.

Definition split_breaks (s : jstring) : list jstring := split_breaks_go [] s.

(** The [while (rest.length > 70)] loop of [foldVCard]; [fuel] bounds the
    number of rounds, and [length rest] rounds are always enough. *)
Fixpoint fold_loop (fuel : nat) (rest : jstring) : jstring :=
  match fuel with
  | O => rest
  | S fuel' =>
      if (70 <? length rest)%nat
      then take 70 rest ++ crlf ++ lit " " ++ fold_loop fuel' (drop 70 rest)
      else rest
  end.

Definition fold_line (line : jstring) : jstring :=
  if (length line <=? 70)%nat then line else fold_loop (length line) line.

Definition foldVCard (text : jstring) : jstring :=
  join crlf (map fold_line (split_breaks text)).

(** [buildVCard] of the script: every value goes through [vEscape], the
    whole text through [foldVCard]. *)
Definition script_line (tag : string) (v : option jstring) (close : string)
    : list jstring :=
  if truthy v then [lit tag ++ vEscape (default [] v) ++ lit close] else [].

Definition buildVCard (card : Card.t) : jstring :=
  let name := trim (or_empty (Card.name card)) in
  let parts := filter_Boolean (split_ws name) in
  let first := or_empty (head parts) in
  let last := if (1 <? length parts)%nat then default [] (last parts) else [] in
  let lines :=
    [ lit "BEGIN:VCARD";
      lit "VERSION:3.0";
      lit "N:" ++ vEscape last ++ lit ";" ++ vEscape first ++ lit ";;;";
      lit "FN:" ++ vEscape name ]
    ++ script_line "ORG:" (Card.company card) ""
    ++ script_line "TITLE:" (Card.title card) ""
    ++ script_line "TEL;TYPE=CELL,VOICE:" (Card.mobile card) ""
    ++ script_line "TEL;TYPE=WORK,VOICE:" (Card.phone card) ""
    ++ script_line "EMAIL;TYPE=INTERNET:" (Card.email card) ""
    ++ script_line "URL:" (Card.website card) ""
    ++ script_line "ADR;TYPE=WORK:;;" (Card.address card) ";;;;"
    ++ [lit "END:VCARD"] in
  foldVCard (join crlf lines).

(** ** Reading an escaped value back

    The reader's side of the vCard 3.0 value escaping: a backslash
    followed by a backslash, a comma or a semicolon stands for that
    character, and followed by [n] or [N] for a line feed. *)
Fixpoint vUnescape (s : jstring) : jstring :=
  match s with
  | [] => []
  | c :: s' =>
      if (c =? 92)%N then
        match s' with
        | d :: s'' =>
            if (d =? 92)%N || (d =? 44)%N || (d =? 59)%N then d :: vUnescape s''
            else if (d =? 110)%N || (d =? 78)%N then 10%N :: vUnescape s''
            else c :: vUnescape s'
        | [] => [c]
        end
      else c :: vUnescape s'
  end.

(** The text with each line break ([\r\n], [\r] or [\n]) written as a
    line feed. *)
Fixpoint line_feeds (s : jstring) : jstring :=
  match s with
  | [] => []
  | c :: s' =>
      if (c =? 13)%N then
        10%N :: match s' with
                | d :: s'' => if (d =? 10)%N then line_feeds s'' else line_feeds s'
                | [] => []
                end
      else c :: line_feeds s'
  end.

(** ** The name line as the specification words it

    "Last token is last name, everything before is folded into the first
    name position": the tokens are the maximal runs of units that are not
    white space. *)
Fixpoint words_go (cur s : jstring) : list jstring :=
  match s with
  | [] => match cur with [] => [] | _ => [cur] end
  | c :: s' =>
      if is_ws c
      then match cur with
           | [] => words_go [] s'
           | _ => cur :: words_go [] s'
           end
      else words_go (cur ++ [c]) s'
  end.

Definition words (s : jstring) : list jstring := words_go [] s.

Definition name_line_as_specified (s : jstring) : jstring :=
  let ws := words s in
  lit "N:" ++ default [] (last ws) ++ lit ";"
    ++ join (lit " ") (removelast ws) ++ lit ";;;".

(* ------------------------------------------------------------------ *)
(** ** What a write stores, column by column *)

(** [profile?.field]: the property as submitted, [None] when the property
    or the whole profile is missing. *)
Definition submitted {A} (profile : option Profile.t) (field : Profile.t → option A)
    : option A :=
  profile ≫= field.

(** The row [new] holds the submitted profile over the row [old]: nine
    text columns are the submitted value or [null], [socials] is the
    submitted value, or the empty object when that is missing or
    [null], and [emailPublic] is not written. *)
Definition stores_submitted (profile : option Profile.t) (old new : Card.t) : Prop :=
  Card.name new = submitted profile Profile.name
  ∧ Card.company new = submitted profile Profile.company
  ∧ Card.title new = submitted profile Profile.title
  ∧ Card.phone new = submitted profile Profile.phone
  ∧ Card.mobile new = submitted profile Profile.mobile
  ∧ Card.email new = submitted profile Profile.email
  ∧ Card.website new = submitted profile Profile.website
  ∧ Card.address new = submitted profile Profile.address
  ∧ Card.imageUrl new = submitted profile Profile.imageUrl
  ∧ Card.socials new
    = Some (match submitted profile Profile.socials with
            | None | Some JNull => JObj []
            | Some j => j
            end)
  ∧ Card.emailPublic new = Card.emailPublic old.

(** A property of the submitted profile that the handlers do not read,
    as a text. *)
Definition extra_text (key : string) (p : Profile.t) : option jstring :=
  match List.find (λ kv, bool_decide (kv.1 = lit key)) (Profile.extra p) with
  | Some (_, JStr s) => Some s
  | _ => None
  end.

(** "The stored profile equals exactly the submitted profile", as the
    specification words it: each profile field of the data model holds
    what the profile submitted for it, and nothing where the profile has
    no such property. *)
Definition equals_submitted (profile : option Profile.t) (row : Card.t) : Prop :=
  Card.name row = submitted profile Profile.name
  ∧ Card.company row = submitted profile Profile.company
  ∧ Card.title row = submitted profile Profile.title
  ∧ Card.phone row = submitted profile Profile.phone
  ∧ Card.mobile row = submitted profile Profile.mobile
  ∧ Card.email row = submitted profile Profile.email
  ∧ Card.emailPublic row = submitted profile (extra_text "emailPublic")
  ∧ Card.website row = submitted profile Profile.website
  ∧ Card.address row = submitted profile Profile.address
  ∧ Card.imageUrl row = submitted profile Profile.imageUrl
  ∧ Card.socials row = submitted profile Profile.socials.

(** Whether the database takes what a claim body, an edit, carries. *)
Definition accepts_body (accepts : jstring → bool) (b : ClaimBody.t) : bool :=
  accepts_opt accepts (ClaimBody.uid b)
  && accepts_profile accepts
       (profile_data (default Profile.empty (ClaimBody.profile b)))
  && accepts_opt accepts (ClaimBody.emailForLogin b).

Definition accepts_edit (accepts : jstring → bool) (uid : jstring)
    (profile : option Profile.t) : bool :=
  accepts uid
  && accepts_profile accepts (profile_data (default Profile.empty profile)).

(** Every profile column of the row is [null]. *)
Definition every_profile_field_null (c : Card.t) : Prop :=
  Card.name c = None ∧ Card.company c = None ∧ Card.title c = None
  ∧ Card.phone c = None ∧ Card.mobile c = None ∧ Card.email c = None
  ∧ Card.emailPublic c = None ∧ Card.website c = None ∧ Card.address c = None
  ∧ Card.imageUrl c = None
  ∧ (Card.socials c = None ∨ Card.socials c = Some JNull).

(* ------------------------------------------------------------------ *)
(** ** A small codec to run the handlers on

    Tokens are readable strings, [claim:<uid>] and [owner:<uid>]; anything
    else fails to verify. *)

Module TestCodec.
Definition sign (p : Payload.t) (expiresIn : option jstring) (now : Z) : jstring :=
  match Payload.purpose p with
  | Some _ => lit "claim:" ++ default [] (Payload.uid p)
  | None => lit "owner:" ++ default [] (Payload.uid p)
  end.

Definition verify (token : jstring) (now : Z) : option Payload.t :=
  if startsWith (lit "claim:") token
  then Some (Payload.mk (Some (drop 6 token)) (Some (lit "claim")))
  else if startsWith (lit "owner:") token
  then Some (Payload.mk (Some (drop 6 token)) None)
  else None.
End TestCodec.

(** A claimed row and an unclaimed row with prefilled data. *)
Definition ada_row : Card.t :=
  {| Card.uid := lit "card-ada01";
     Card.email := Some (lit "ada@example.com");
     Card.name := Some (lit "Ada Lovelace");
     Card.company := Some (lit "Analytical Engines");
     Card.title := None;
     Card.phone := None;
     Card.mobile := Some (lit "+1-555-0100");
     Card.emailPublic := None;
     Card.website := None;
     Card.address := None;
     Card.socials := Some (JObj []);
     Card.imageUrl := None;
     Card.createdAt := 1000;
     Card.updatedAt := 2000;
     Card.claimedAt := Some 2000%Z;
     Card.claimedByEmail := Some (lit "ada@example.com") |}.

Definition prefilled_row : Card.t :=
  {| Card.uid := lit "card-new01";
     Card.email := None;
     Card.name := Some (lit "Old Name");
     Card.company := None;
     Card.title := None;
     Card.phone := None;
     Card.mobile := None;
     Card.emailPublic := Some (lit "desk@example.com");
     Card.website := None;
     Card.address := None;
     Card.socials := None;
     Card.imageUrl := None;
     Card.createdAt := 1000;
     Card.updatedAt := 1000;
     Card.claimedAt := None;
     Card.claimedByEmail := None |}.

Definition test_db : store :=
  <[lit "card-ada01" := ada_row]> (<[lit "card-new01" := prefilled_row]> ∅).


(** Requests used on [test_db]. *)
Definition reclaim_with_bad_token : ClaimBody.t :=
  ClaimBody.mk (Some (lit "card-ada01")) (Some (lit "not-a-token")) None None.

Definition reclaim_with_good_token : ClaimBody.t :=
  ClaimBody.mk (Some (lit "card-ada01")) (Some (lit "claim:card-ada01")) None None.

Definition claim_with_foreign_token : ClaimBody.t :=
  ClaimBody.mk (Some (lit "card-new01")) (Some (lit "claim:card-ada01")) None None.

Definition claim_without_profile : ClaimBody.t :=
  ClaimBody.mk (Some (lit "card-new01")) (Some (lit "claim:card-new01")) None None.

Definition grace_profile : Profile.t :=
  {| Profile.name := Some (lit "Grace Hopper");
     Profile.company := None;
     Profile.title := Some (lit "Rear Admiral");
     Profile.phone := None;
     Profile.mobile := None;
     Profile.email := None;
     Profile.website := None;
     Profile.address := None;
     Profile.socials := None;
     Profile.imageUrl := None;
     Profile.extra := [(lit "claimedAt", JNull); (lit "uid", JStr (lit "card-new01"))] |}.

(** A profile whose name holds U+0000, and a claim carrying it. *)
Definition nul_profile : Profile.t :=
  {| Profile.name := Some (lit "A" ++ [0%N] ++ lit "B");
     Profile.company := None;
     Profile.title := None;
     Profile.phone := None;
     Profile.mobile := None;
     Profile.email := None;
     Profile.website := None;
     Profile.address := None;
     Profile.socials := None;
     Profile.imageUrl := None;
     Profile.extra := [] |}.

Definition claim_with_nul_name : ClaimBody.t :=
  ClaimBody.mk (Some (lit "card-new01")) (Some (lit "claim:card-new01"))
    (Some nul_profile) None.

Definition edit_foreign_card : EditRequest.t :=
  EditRequest.mk (Some (lit "Bearer owner:card-ada01")) (lit "card-new01")
    (Some grace_profile).

Definition edit_own_card : EditRequest.t :=
  EditRequest.mk (Some (lit "Bearer owner:card-ada01")) (lit "card-ada01")
    (Some grace_profile).

Definition edit_with_claim_token : EditRequest.t :=
  EditRequest.mk (Some (lit "Bearer claim:card-ada01")) (lit "card-ada01")
    (Some grace_profile).

Definition edit_missing_card : EditRequest.t :=
  EditRequest.mk (Some (lit "Bearer owner:card-gone01")) (lit "card-gone01")
    (Some grace_profile).


(** Two calls racing for [card-new01], and a schedule in which the second
    call reaches the database first. *)
Definition claim_as_grace : ClaimBody.t :=
  ClaimBody.mk (Some (lit "card-new01")) (Some (lit "claim:card-new01"))
    (Some grace_profile) (Some (lit "grace@example.com")).

Definition race_bodies : list ClaimBody.t := [claim_without_profile; claim_as_grace].

Definition race_schedule : list (nat * Z) :=
  [(0, 5000%Z); (1, 5001%Z); (1, 5002%Z); (0, 5003%Z); (1, 5004%Z); (0, 5005%Z)].

(** Cards to render. *)
Definition three_word_row : Card.t :=
  {| Card.uid := lit "card-ada02";
     Card.email := None;
     Card.name := Some (lit "Ada King Lovelace");
     Card.company := None;
     Card.title := None;
     Card.phone := None;
     Card.mobile := None;
     Card.emailPublic := None;
     Card.website := None;
     Card.address := None;
     Card.socials := None;
     Card.imageUrl := None;
     Card.createdAt := 1000;
     Card.updatedAt := 2000;
     Card.claimedAt := Some 2000%Z;
     Card.claimedByEmail := None |}.

(** A card that holds a picture and nothing else. *)
Definition image_only_row : Card.t :=
  {| Card.uid := lit "card-img01";
     Card.email := None;
     Card.name := None;
     Card.company := None;
     Card.title := None;
     Card.phone := None;
     Card.mobile := None;
     Card.emailPublic := None;
     Card.website := None;
     Card.address := None;
     Card.socials := None;
     Card.imageUrl := Some (lit "http://localhost:8080/uploads/a.png");
     Card.createdAt := 1000;
     Card.updatedAt := 1000;
     Card.claimedAt := None;
     Card.claimedByEmail := None |}.

Definition image_db : store :=
  <[lit "card-img01" := image_only_row]> test_db.

Definition punctuated_row : Card.t :=
  {| Card.uid := lit "card-doe01";
     Card.email := None;
     Card.name := Some (lit "Jo Doe");
     Card.company := Some (lit "Doe, Smith; Partners");
     Card.title :=
       Some (lit "Senior Vice President of Strategic Partnerships and Business Development");
     Card.phone := None;
     Card.mobile := None;
     Card.emailPublic := None;
     Card.website := None;
     Card.address := Some (lit "12 Long Street" ++ [10%N] ++ lit "Suite 4");
     Card.socials := None;
     Card.imageUrl := None;
     Card.createdAt := 1000;
     Card.updatedAt := 2000;
     Card.claimedAt := Some 2000%Z;
     Card.claimedByEmail := None |}.


(* ------------------------------------------------------------------ *)
(** ** The other routes of the server *)

(** A nullable string as a JSON value, as [res.json] writes it. *)
Definition json_of_text (v : option jstring) : json :=
  match v with
  | Some s => JStr s
  | None => JNull
  end.

(** [!!j] on a JSON value. *)
Definition json_truthy (j : json) : bool :=
  match j with
  | JNull => false
  | JBool b => b
  | JNum n => negb (n =? 0)%Z
  | JStr s => negb (bool_decide (s = []))
  | JArr _ | JObj _ => true
  end.

(** [card.socials || {}] *)
Definition socials_or_empty (v : option json) : json :=
  match v with
  | Some j => if json_truthy j then j else JObj []
  | None => JObj []
  end.

(** The [profile] object of the lookup response. *)
Definition profile_view (card : Card.t) : json :=
  JObj [ (lit "name", json_of_text (Card.name card));
         (lit "company", json_of_text (Card.company card));
         (lit "title", json_of_text (Card.title card));
         (lit "phone", json_of_text (Card.phone card));
         (lit "mobile", json_of_text (Card.mobile card));
         (lit "email", json_of_text (Card.email card));
         (lit "website", json_of_text (Card.website card));
         (lit "address", json_of_text (Card.address card));
         (lit "socials", socials_or_empty (Card.socials card));
         (lit "imageUrl", json_of_text (Card.imageUrl card)) ].

(** The payload [{uid, purpose: 'claim'}]. *)
Definition claim_payload (uid : jstring) : Payload.t :=
  Payload.mk (Some uid) (Some (lit "claim")).

(** The payload [{uid}] of an ownership token. *)
Definition owner_payload (uid : jstring) : Payload.t :=
  Payload.mk (Some uid) None.

(** [res.json({uid, claimed: false, claimToken})] *)
Definition unclaimed_view (uid claimToken : jstring) : reply :=
  Json 200 (JObj [ (lit "uid", JStr uid);
                   (lit "claimed", JBool false);
                   (lit "claimToken", JStr claimToken) ]).

(** [res.json({uid, claimed: true, profile})] *)
Definition claimed_view (uid : jstring) (profile : json) : reply :=
  Json 200 (JObj [ (lit "uid", JStr uid);
                   (lit "claimed", JBool true);
                   (lit "profile", profile) ]).

(** GET /api/card/:uid. The claim token is signed without [expiresIn]. *)
Definition get_card
    (accepts : jstring → bool)
    (jwt_sign : Payload.t → option jstring → Z → jstring)
    (now : Z) (uid : jstring) (db : store) : reply :=
  match findUnique accepts db uid with
  | inl e => Rejected e
  | inr None => not_found
  | inr (Some card) =>
      match Card.claimedAt card with
      | None => unclaimed_view uid (jwt_sign (claim_payload uid) None now)
      | Some _ => claimed_view uid (profile_view card)
      end
  end.

(** *** Admin routes *)

Definition admin_only : reply := error_json 401 "admin_only".
Definition update_failed : reply := error_json 400 "update_failed".

(** Middleware [requireAdmin]: [true] when the request goes on to the
    handler. [key] is the [x-admin-key] header. *)
Definition requireAdmin (ADMIN_KEY : jstring) (key : option jstring) : bool :=
  negb (negb (truthy (Some ADMIN_KEY)) || bool_decide (key ≠ Some ADMIN_KEY)).

(** [prisma.card.create({data: {uid}})]: throws when the key is taken. *)
Definition create (accepts : jstring → bool) (u : jstring) (now : Z) (db : store)
    : prisma_error + store :=
  if accepts u then
    match db !! u with
    | Some _ => inl UniqueConstraintFailed
    | None => inr (<[u := Card.blank u now]> db)
    end
  else inl RefusedText.

(** How a request ends: a response written through [res], the updated
    row sent as JSON by the admin edit ([res.json(updated)]), or the
    rejected promise of a handler whose [create] threw. *)
Inductive outcome : Type :=
  | Replied (r : reply)
  | RowSent (c : Card.t)
  | CreateRejected (e : prisma_error).

(** POST /api/admin/create-uid; [nanoid] is the identifier [nanoid(10)]
    returned. *)
Definition admin_create_uid
    (accepts : jstring → bool)
    (ADMIN_KEY : jstring) (key : option jstring) (nanoid : jstring)
    (now : Z) (db : store) : store * outcome :=
  if negb (requireAdmin ADMIN_KEY key) then (db, Replied admin_only)
  else
    match create accepts nanoid now db with
    | inr db' => (db', Replied (Json 200 (JObj [(lit "uid", JStr nanoid)])))
    | inl e => (db, CreateRejected e)
    end.

(** A JavaScript number: what [Number(req.body?.count)] gives. A finite
    double is a rational number; the two zeros are both [Finite 0]. *)
Inductive jsnumber : Type :=
  | NaN
  | PosInfinity
  | NegInfinity
  | Finite (q : Q).

(** [a < b] *)
Definition js_lt (a b : jsnumber) : bool :=
  match a, b with
  | NaN, _ | _, NaN => false
  | _, NegInfinity => false
  | NegInfinity, _ => true
  | PosInfinity, _ => false
  | _, PosInfinity => true
  | Finite x, Finite y => negb (Qle_bool y x)
  end.

(** [Math.max(a, b)], [Math.min(a, b)] *)
Definition js_max (a b : jsnumber) : jsnumber :=
  match a, b with
  | NaN, _ | _, NaN => NaN
  | _, _ => if js_lt a b then b else a
  end.

Definition js_min (a b : jsnumber) : jsnumber :=
  match a, b with
  | NaN, _ | _, NaN => NaN
  | _, _ => if js_lt b a then b else a
  end.

(** [n || 1]: [NaN] and zero are falsy. *)
Definition js_or_one (n : jsnumber) : jsnumber :=
  match n with
  | NaN => Finite 1
  | Finite q => if Qeq_bool q 0 then Finite 1 else n
  | _ => n
  end.

(** [Math.min(Math.max(Number(req.body?.count) || 1, 1), 200)] *)
Definition clamp_count (n : jsnumber) : jsnumber :=
  js_min (js_max (js_or_one n) (Finite 1)) (Finite 200).

(** The [for (let i = 0; i < count; i++)] loop of POST
    /api/admin/create-uids from round [i] on: [nanoid i] and [clock i]
    are the identifier drawn and the time at round [i]; the loop stops
    at the first [create] that throws, keeping the rows made so far.
    [fuel] bounds the number of tests of [i < count]; 201 are enough for
    a count of at most 200. *)
Fixpoint create_loop
    (accepts : jstring → bool)
    (nanoid : nat → jstring) (clock : nat → Z) (fuel i : nat) (count : jsnumber)
    (db : store) (rows : list jstring) : store * (prisma_error + list jstring) :=
  match fuel with
  | O => (db, inr rows)
  | S fuel' =>
      if js_lt (Finite (inject_Z (Z.of_nat i))) count then
        match create accepts (nanoid i) (clock i) db with
        | inr db' =>
            create_loop accepts nanoid clock fuel' (S i) count db' (rows ++ [nanoid i])
        | inl e => (db, inl e)
        end
      else (db, inr rows)
  end.

Arguments create_loop : simpl never.

(** [res.json({ok: true, rows})] with [rows] the objects [{uid}]. *)
Definition rows_created (rows : list jstring) : reply :=
  Json 200 (JObj [ (lit "ok", JBool true);
                   (lit "rows", JArr (map (λ u, JObj [(lit "uid", JStr u)]) rows)) ]).

Definition admin_create_uids
    (accepts : jstring → bool)
    (ADMIN_KEY : jstring) (key : option jstring) (count : jsnumber)
    (nanoid : nat → jstring) (clock : nat → Z) (db : store) : store * outcome :=
  if negb (requireAdmin ADMIN_KEY key) then (db, Replied admin_only)
  else
    match create_loop accepts nanoid clock 201 0 (clamp_count count) db [] with
    | (db', inr rows) => (db', Replied (rows_created rows))
    | (db', inl e) => (db', CreateRejected e)
    end.

(** The number of rounds of the loop for a count: the naturals below
    it. *)
Definition rounds_of (count : jsnumber) : nat :=
  match count with
  | Finite q => Z.to_nat (Qceiling q)
  | _ => 0
  end.

(** PUT /api/admin/cards/:uid: the update is inside [try]; a throw is
    answered 400. *)
Definition admin_put_card
    (accepts : jstring → bool)
    (ADMIN_KEY : jstring) (key : option jstring) (uid : jstring)
    (profile : option Profile.t) (now : Z) (db : store) : store * outcome :=
  if negb (requireAdmin ADMIN_KEY key) then (db, Replied admin_only)
  else
    let p := default Profile.empty profile in
    match db !! uid, update accepts uid (profile_data p) now db with
    | Some c, inr db' => (db', RowSent (write_profile (profile_data p) now c))
    | _, _ => (db, Replied update_failed)
    end.

(** *** Analytics *)

(** One row of table [Event]; the serial key is the position in the
    table. *)
Module Event.
Record t : Type := mk {
  uid : jstring;
  kind : jstring;
  ua : option jstring;
  ip : option jstring;
  createdAt : Z
}.
End Event.

Module EventBody.
Record t : Type := mk {
  uid : option jstring;
  kind : option jstring;
  ua : option jstring
}.

Definition empty : t := mk None None None.
End EventBody.

(** [v || 'fallback'] *)
Definition or_literal (v : option jstring) (fallback : string) : jstring :=
  if truthy v then default [] v else lit fallback.

(** The row [prisma.event.create] is given. *)
Definition event_of (now : Z) (body : option EventBody.t) (ip : option jstring)
    : Event.t :=
  let b := default EventBody.empty body in
  {| Event.uid := or_literal (EventBody.uid b) "unknown";
     Event.kind := or_literal (EventBody.kind b) "visit";
     Event.ua := EventBody.ua b;
     Event.ip := ip;
     Event.createdAt := now |}.

Definition accepts_event (accepts : jstring → bool) (e : Event.t) : bool :=
  accepts (Event.uid e) && accepts (Event.kind e)
  && accepts_opt accepts (Event.ua e) && accepts_opt accepts (Event.ip e).

(** POST /api/event. The [create] is awaited outside any [try]. *)
Definition post_event
    (accepts : jstring → bool)
    (now : Z) (body : option EventBody.t) (ip : option jstring)
    (events : list Event.t) : list Event.t * reply :=
  let e := event_of now body ip in
  if accepts_event accepts e then (events ++ [e], ok_true)
  else (events, Rejected RefusedText).

(** *** The application: tables and routes *)

Record server : Type := {
  cards : store;
  events : list Event.t
}.

Inductive request : Type :=
  | GetCard (uid : jstring)
  | PostClaim (body : option ClaimBody.t)
  | GetVcf (uid : jstring)
  | PutCard (req : EditRequest.t)
  | AdminCreateUid (key : option jstring) (nanoid : jstring)
  | AdminCreateUids (key : option jstring) (count : jsnumber)
      (nanoid : nat → jstring) (clock : nat → Z)
  | AdminPutCard (key : option jstring) (uid : jstring) (profile : option Profile.t)
  | PostEvent (body : option EventBody.t) (ip : option jstring).

Section App.

Variable accepts : jstring → bool.
Variable ADMIN_KEY : jstring.
Variable jwt_sign : Payload.t → option jstring → Z → jstring.
Variable jwt_verify : jstring → Z → option Payload.t.

(** One request, served at time [now]. Each handler awaits one statement
    on the tables, so requests in flight together are served in the
    order of their statements. The bulk creation awaits one [create] per
    round, at the times of its own clock; it is served here with no
    other request between its rounds (on the tables a round is what the
    creation of a single identifier is). *)
Definition handle (now : Z) (req : request) (s : server) : server * outcome :=
  match req with
  | GetCard uid => (s, Replied (get_card accepts jwt_sign now uid (cards s)))
  | PostClaim body =>
      let '(db', r) := claim accepts jwt_sign jwt_verify now body (cards s) in
      ({| cards := db'; events := events s |}, Replied r)
  | GetVcf uid => (s, Replied (get_vcf accepts uid (cards s)))
  | PutCard req =>
      let '(db', r) := put_card accepts jwt_verify now req (cards s) in
      ({| cards := db'; events := events s |}, Replied r)
  | AdminCreateUid key nanoid =>
      let '(db', o) := admin_create_uid accepts ADMIN_KEY key nanoid now (cards s) in
      ({| cards := db'; events := events s |}, o)
  | AdminCreateUids key count nanoid clock =>
      let '(db', o) :=
        admin_create_uids accepts ADMIN_KEY key count nanoid clock (cards s) in
      ({| cards := db'; events := events s |}, o)
  | AdminPutCard key uid profile =>
      let '(db', o) := admin_put_card accepts ADMIN_KEY key uid profile now (cards s) in
      ({| cards := db'; events := events s |}, o)
  | PostEvent body ip =>
      let '(ev', r) := post_event accepts now body ip (events s) in
      ({| cards := cards s; events := ev' |}, Replied r)
  end.

(** A sequence of timed requests, served in order. *)
Fixpoint serve (reqs : list (Z * request)) (s : server) : server * list outcome :=
  match reqs with
  | [] => (s, [])
  | (now, req) :: reqs' =>
      let '(s1, o) := handle now req s in
      let '(s2, os) := serve reqs' s1 in
      (s2, o :: os)
  end.

End App.

(** The claim call succeeded: its response is the one carrying a new
    ownership token. *)
Definition claim_succeeded
    (jwt_sign : Payload.t → option jstring → Z → jstring) (o : outcome) : Prop :=
  ∃ t u, o = Replied (claim_ok jwt_sign t u).

(** Every row sits under its own [uid]. *)
Definition keyed_by_uid (db : store) : Prop :=
  ∀ u c, db !! u = Some c → Card.uid c = u.

(** The codec reads back what it signed, at the given times. *)
Definition reads_back
    (jwt_sign : Payload.t → option jstring → Z → jstring)
    (jwt_verify : jstring → Z → option Payload.t)
    (p : Payload.t) (expiresIn : option jstring) (signed checked : Z) : Prop :=
  jwt_sign p expiresIn signed ≠ []
  ∧ jwt_verify (jwt_sign p expiresIn signed) checked = Some p.

(** The lookup view of a profile as it was submitted: omitted text
    properties are [null], [socials] falls back to the empty object. *)
Definition submitted_view (profile : option Profile.t) : json :=
  JObj [ (lit "name", json_of_text (submitted profile Profile.name));
         (lit "company", json_of_text (submitted profile Profile.company));
         (lit "title", json_of_text (submitted profile Profile.title));
         (lit "phone", json_of_text (submitted profile Profile.phone));
         (lit "mobile", json_of_text (submitted profile Profile.mobile));
         (lit "email", json_of_text (submitted profile Profile.email));
         (lit "website", json_of_text (submitted profile Profile.website));
         (lit "address", json_of_text (submitted profile Profile.address));
         (lit "socials",
          socials_or_empty (Some (or_empty_object (submitted profile Profile.socials))));
         (lit "imageUrl", json_of_text (submitted profile Profile.imageUrl)) ].

(** Requests and settings used to run the routes. *)
Definition test_admin_key : jstring := lit "s3cret".

Definition test_server : server := {| cards := test_db; events := [] |}.

Definition claim_with_token (uid token : jstring) (profile : option Profile.t)
    : ClaimBody.t :=
  ClaimBody.mk (Some uid) (Some token) profile None.

Definition bearer (token : jstring) : option jstring :=
  Some (lit "Bearer " ++ token).

Definition test_nanoid (i : nat) : jstring :=
  lit "uid-" ++ [N.of_nat (48 + i)].

Definition test_clock (i : nat) : Z := (7000 + Z.of_nat i)%Z.

Definition test_traffic : list (Z * request) :=
  [ (5000%Z, PostEvent None None);
    (5001%Z, PostClaim (Some claim_as_grace));
    (5002%Z, PutCard (EditRequest.mk (bearer (lit "owner:card-new01"))
                        (lit "card-new01") None));
    (5003%Z, AdminPutCard (Some test_admin_key) (lit "card-new01") (Some grace_profile));
    (5004%Z, PostClaim (Some claim_without_profile));
    (5005%Z, AdminCreateUid (Some test_admin_key) (lit "card-x0001"));
    (5006%Z, AdminCreateUids (Some test_admin_key) (Finite (5 # 2))
               test_nanoid test_clock);
    (5006%Z, PostEvent (Some (EventBody.mk (Some (lit "card" ++ [0%N])) None None))
               None);
    (5006%Z, PostEvent (Some (EventBody.mk (Some (lit "card-new01")) None None))
               (Some (lit "10.0.0.7"))) ].

Definition is_post_event (tr : Z * request) : bool :=
  match tr.2 with
  | PostEvent _ _ => true
  | _ => false
  end.

(** The row a timed request adds to table [Event]: the one of an event
    request that the database takes. *)
Definition stored_event (accepts : jstring → bool) (tr : Z * request)
    : option Event.t :=
  match tr.2 with
  | PostEvent body ip =>
      if accepts_event accepts (event_of tr.1 body ip)
      then Some (event_of tr.1 body ip) else None
  | _ => None
  end.

(* ------------------------------------------------------------------ *)
(** ** The export scripts *)

(** *** scripts/export_qr_sheet.mjs *)

Module QrSheet.

(** [buildVCard]: the lines of the server's [vcardFrom], with
    [card.email] as the only email. *)
Definition buildVCard (card : Card.t) : jstring :=
  let parts := split_ws (trim (or_empty (Card.name card))) in
  let first := or_empty (head parts) in
  let last := if (1 <? length parts)%nat then default [] (last parts) else [] in
  let email := or_empty (Card.email card) in
  join crlf (filter_Boolean
    [ lit "BEGIN:VCARD";
      lit "VERSION:3.0";
      lit "N:" ++ last ++ lit ";" ++ first ++ lit ";;;";
      lit "FN:" ++ or_empty (Card.name card);
      line_if "ORG:" (Card.company card) "";
      line_if "TITLE:" (Card.title card) "";
      line_if "TEL;TYPE=CELL,VOICE:" (Card.mobile card) "";
      line_if "TEL;TYPE=WORK,VOICE:" (Card.phone card) "";
      line_if "EMAIL;TYPE=INTERNET:" (Some email) "";
      line_if "URL:" (Card.website card) "";
      line_if "ADR;TYPE=WORK:;;" (Card.address card) ";;;;";
      lit "END:VCARD" ]).

(** The test of [toCsvRow]: the text holds a quote, a comma or a line
    feed. *)
Definition needs_quotes (s : jstring) : bool :=
  existsb (λ c, (c =? 34)%N || (c =? 44)%N || (c =? 10)%N) s.

(** One cell: the value as text ([null] and [undefined] as the empty
    text), put between quotes when the test holds, every quote inside
    doubled. *)
Definition csv_cell (v : option jstring) : jstring :=
  let s := default [] v in
  if needs_quotes s
  then dquote ++ replace_unit 34 (dquote ++ dquote) s ++ dquote
  else s.

Definition toCsvRow (vals : list (option jstring)) : jstring :=
  join (lit ",") (map csv_cell vals) ++ [10%N].

(** [!!c.claimedAt || !!(c.name || c.mobile || c.email || c.imageUrl)] *)
Definition claimed (c : Card.t) : bool :=
  bool_decide (is_Some (Card.claimedAt c))
  || truthy (js_or (Card.name c) (js_or (Card.mobile c)
              (js_or (Card.email c) (Card.imageUrl c)))).

Definition header : list (option jstring) :=
  map (λ s, Some (lit s))
    [ "uid"; "claimed"; "url"; "name"; "company"; "title"; "mobile"; "phone";
      "email"; "website"; "address"; "vcard" ]%string.

(** The cells written for one card. *)
Definition card_cells (FRONTEND_BASE : jstring) (c : Card.t) : list (option jstring) :=
  [ Some (Card.uid c);
    Some (if claimed c then lit "yes" else lit "no");
    Some (FRONTEND_BASE ++ lit "/" ++ Card.uid c);
    Some (or_empty (Card.name c));
    Some (or_empty (Card.company c));
    Some (or_empty (Card.title c));
    Some (or_empty (Card.mobile c));
    Some (or_empty (Card.phone c));
    Some (or_empty (Card.email c));
    Some (or_empty (Card.website c));
    Some (or_empty (Card.address c));
    Some (if claimed c then buildVCard c else []) ].

(** The text [main] writes to [qr_sheet.csv]. *)
Definition sheet (FRONTEND_BASE : jstring) (rows : list Card.t) : jstring :=
  foldl (λ csv c, csv ++ toCsvRow (card_cells FRONTEND_BASE c))
    (toCsvRow header) rows.

End QrSheet.

(** *** scripts/gen_qrs.mjs, first version *)

Module GenQrs1.

Definition buildVCard (card : Card.t) : jstring :=
  let parts := split_ws (trim (or_empty (Card.name card))) in
  let first := or_empty (head parts) in
  let last := if (1 <? length parts)%nat then default [] (last parts) else [] in
  join crlf (filter_Boolean
    [ lit "BEGIN:VCARD";
      lit "VERSION:3.0";
      lit "N:" ++ last ++ lit ";" ++ first ++ lit ";;;";
      lit "FN:" ++ or_empty (Card.name card);
      line_if "ORG:" (Card.company card) "";
      line_if "TITLE:" (Card.title card) "";
      line_if "TEL;TYPE=CELL,VOICE:" (Card.mobile card) "";
      line_if "TEL;TYPE=WORK,VOICE:" (Card.phone card) "";
      line_if "EMAIL;TYPE=INTERNET:" (Card.email card) "";
      line_if "URL:" (Card.website card) "";
      line_if "ADR;TYPE=WORK:;;" (Card.address card) ";;;;";
      lit "END:VCARD" ]).

(** [!!(c.name || c.mobile || c.email || c.company || c.title || c.imageUrl)] *)
Definition isClaimed (c : Card.t) : bool :=
  truthy (js_or (Card.name c) (js_or (Card.mobile c) (js_or (Card.email c)
         (js_or (Card.company c) (js_or (Card.title c) (Card.imageUrl c)))))).

End GenQrs1.

(** *** scripts/gen_qrs.mjs, second version *)

Module GenQrs2.

(** [s.replace(/\n|\r\n?/g, "\\n")] *)
Fixpoint replace_breaks (s : jstring) : jstring :=
  match s with
  | [] => []
  | c :: s' =>
      if (c =? 10)%N then lit "\n" ++ replace_breaks s'
      else if (c =? 13)%N then
        lit "\n" ++ match s' with
                    | d :: s'' =>
                        if (d =? 10)%N then replace_breaks s'' else replace_breaks s'
                    | [] => []
                    end
      else c :: replace_breaks s'
  end.

Definition vEscape (s : jstring) : jstring :=
  replace_unit 59 (lit "\;")
    (replace_unit 44 (lit "\,")
      (replace_breaks
        (replace_unit 92 (lit "\\") s))).

(** [buildVCard]: escaped values, lines pushed when the field is set, no
    folding. *)
Definition script_line (tag : string) (v : option jstring) (close : string)
    : list jstring :=
  if truthy v then [lit tag ++ vEscape (default [] v) ++ lit close] else [].

Definition buildVCard (card : Card.t) : jstring :=
  let name := trim (or_empty (Card.name card)) in
  let parts := filter_Boolean (split_ws name) in
  let first := or_empty (head parts) in
  let last := if (1 <? length parts)%nat then default [] (last parts) else [] in
  join crlf
    ([ lit "BEGIN:VCARD";
       lit "VERSION:3.0";
       lit "N:" ++ vEscape last ++ lit ";" ++ vEscape first ++ lit ";;;";
       lit "FN:" ++ vEscape name ]
     ++ script_line "ORG:" (Card.company card) ""
     ++ script_line "TITLE:" (Card.title card) ""
     ++ script_line "TEL;TYPE=CELL,VOICE:" (Card.mobile card) ""
     ++ script_line "TEL;TYPE=WORK,VOICE:" (Card.phone card) ""
     ++ script_line "EMAIL;TYPE=INTERNET:" (Card.email card) ""
     ++ script_line "URL:" (Card.website card) ""
     ++ script_line "ADR;TYPE=WORK:;;" (Card.address card) ";;;;"
     ++ [lit "END:VCARD"]).

End GenQrs2.

(** *** scripts/gen_qrs.mjs, third version: the generator loop *)

(** The logical lines of the third [buildVCard], before joining and
    folding. *)
Definition script_lines (card : Card.t) : list jstring :=
  let name := trim (or_empty (Card.name card)) in
  let parts := filter_Boolean (split_ws name) in
  let first := or_empty (head parts) in
  let last := if (1 <? length parts)%nat then default [] (last parts) else [] in
  [ lit "BEGIN:VCARD";
    lit "VERSION:3.0";
    lit "N:" ++ vEscape last ++ lit ";" ++ vEscape first ++ lit ";;;";
    lit "FN:" ++ vEscape name ]
  ++ script_line "ORG:" (Card.company card) ""
  ++ script_line "TITLE:" (Card.title card) ""
  ++ script_line "TEL;TYPE=CELL,VOICE:" (Card.mobile card) ""
  ++ script_line "TEL;TYPE=WORK,VOICE:" (Card.phone card) ""
  ++ script_line "EMAIL;TYPE=INTERNET:" (Card.email card) ""
  ++ script_line "URL:" (Card.website card) ""
  ++ script_line "ADR;TYPE=WORK:;;" (Card.address card) ";;;;"
  ++ [lit "END:VCARD"].

Module GenQrs3.

(** The script's [hasProfileData]: the server's without [emailPublic],
    which the script does not select. *)
Definition hasProfileData (c : Card.t) : bool :=
  truthy
    (js_or (Card.name c) (js_or (Card.mobile c) (js_or (Card.phone c)
    (js_or (Card.email c) (js_or (Card.company c) (js_or (Card.title c)
    (js_or (Card.website c) (js_or (Card.address c) (Card.imageUrl c))))))))).

(** What a path of the output directory holds: a text file, or the PNG
    of a QR code of a text. *)
Inductive file : Type :=
  | TextFile (contents : jstring)
  | QrPng (text : jstring).

Record counters : Type := {
  skippedAll : nat;
  wroteUrlQr : nat;
  wroteVcf : nat;
  wroteVcfQr : nat
}.

Definition no_counts : counters := Build_counters 0 0 0 0.

Section Generator.

(** [path.join] and [buildMicrositeUrl] (which calls
    [encodeURIComponent]) are taken as given. *)
Variable path_join : jstring → jstring → jstring.
Variable buildMicrositeUrl : jstring → jstring.
Variable OUT_DIR : jstring.
Variables FORCE DRY : bool.

(** [qrToFile] and [writeTextFile]: nothing is written in a dry run. *)
Definition write (path : jstring) (f : file) (fs : gmap (list N) file)
    : gmap (list N) file :=
  if DRY then fs else <[path := f]> fs.

(** [existsSync(path)] *)
Definition existsSync (fs : gmap (list N) file) (path : jstring) : bool :=
  bool_decide (is_Some (fs !! path)).

(** The body of the [for] loop for one card. *)
Definition process_card (st : gmap (list N) file * counters) (c : Card.t)
    : gmap (list N) file * counters :=
  let '(fs, k) := st in
  let base := path_join OUT_DIR (Card.uid c) in
  let micrositePng := base ++ lit "-url.png" in
  let vcfPath := base ++ lit ".vcf" in
  let vcardPng := base ++ lit ".png" in
  let haveProfile := hasProfileData c in
  let url := buildMicrositeUrl (Card.uid c) in
  let needsUrlQr := if FORCE then true else negb (existsSync fs micrositePng) in
  let needsVcf := haveProfile && (if FORCE then true else negb (existsSync fs vcfPath)) in
  let needsVcfQr := haveProfile && (if FORCE then true else negb (existsSync fs vcardPng)) in
  if negb needsUrlQr && negb needsVcf && negb needsVcfQr
  then (fs, {| skippedAll := S (skippedAll k); wroteUrlQr := wroteUrlQr k;
               wroteVcf := wroteVcf k; wroteVcfQr := wroteVcfQr k |})
  else
    let '(fs1, n1) :=
      if needsUrlQr then (write micrositePng (QrPng url) fs, S (wroteUrlQr k))
      else (fs, wroteUrlQr k) in
    let '(fs2, n2) :=
      if haveProfile && needsVcf
      then (write vcfPath (TextFile (buildVCard c)) fs1, S (wroteVcf k))
      else (fs1, wroteVcf k) in
    let '(fs3, n3) :=
      if haveProfile && needsVcfQr
      then (write vcardPng (QrPng (buildVCard c)) fs2, S (wroteVcfQr k))
      else (fs2, wroteVcfQr k) in
    (fs3, {| skippedAll := skippedAll k; wroteUrlQr := n1;
             wroteVcf := n2; wroteVcfQr := n3 |}).

(** The loop of [main] over the cards read. *)
Definition generate (cards : list Card.t) (fs : gmap (list N) file)
    : gmap (list N) file * counters :=
  foldl process_card (fs, no_counts) cards.

End Generator.

End GenQrs3.

(** ** Reading a folded file and a CSV sheet back *)

(** Unfolding as a vCard reader does: a line break followed by a space
    is removed. *)
Fixpoint unfold_lines (s : jstring) : jstring :=
  match s with
  | [] => []
  | c :: s' =>
      match s' with
      | d :: (e :: s'') =>
          if (c =? 13)%N && (d =? 10)%N && (e =? 32)%N then unfold_lines s''
          else c :: unfold_lines s'
      | _ => c :: unfold_lines s'
      end
  end.

(** A reader of comma-separated text: a cell that opens with a quote
    runs to the closing quote, doubled quotes inside standing for one;
    other cells run to the next comma or line break; outside quotes a
    line feed, a carriage return, or the two in this order, end a
    row. *)
Inductive csv_state : Type :=
  | Plain
  | Quoted
  | QuoteSeen
  | RowEnded.

Fixpoint csv_go (st : csv_state) (cell : jstring) (row : list jstring)
    (s : jstring) : list (list jstring) :=
  match s with
  | [] =>
      match st, cell, row with
      | (Plain | RowEnded), [], [] => []
      | _, _, _ => [row ++ [cell]]
      end
  | c :: s' =>
      match st with
      | Plain =>
          if (c =? 44)%N then csv_go Plain [] (row ++ [cell]) s'
          else if (c =? 10)%N then (row ++ [cell]) :: csv_go Plain [] [] s'
          else if (c =? 13)%N then (row ++ [cell]) :: csv_go RowEnded [] [] s'
          else if (c =? 34)%N && bool_decide (cell = []) then csv_go Quoted [] row s'
          else csv_go Plain (cell ++ [c]) row s'
      | RowEnded =>
          if (c =? 10)%N then csv_go Plain cell row s'
          else if (c =? 44)%N then csv_go Plain [] (row ++ [cell]) s'
          else if (c =? 13)%N then (row ++ [cell]) :: csv_go RowEnded [] [] s'
          else if (c =? 34)%N && bool_decide (cell = []) then csv_go Quoted [] row s'
          else csv_go Plain (cell ++ [c]) row s'
      | Quoted =>
          if (c =? 34)%N then csv_go QuoteSeen cell row s'
          else csv_go Quoted (cell ++ [c]) row s'
      | QuoteSeen =>
          if (c =? 34)%N then csv_go Quoted (cell ++ [c]) row s'
          else if (c =? 44)%N then csv_go Plain [] (row ++ [cell]) s'
          else if (c =? 10)%N then (row ++ [cell]) :: csv_go Plain [] [] s'
          else if (c =? 13)%N then (row ++ [cell]) :: csv_go RowEnded [] [] s'
          else csv_go Plain (cell ++ [c]) row s'
      end
  end.

Definition read_csv (s : jstring) : list (list jstring) := csv_go Plain [] [] s.

(** A value that [toCsvRow] writes without quotes although it holds a
    carriage return: the test for quotes looks for a quote, a comma and
    a line feed only. *)
Definition has_cr (s : jstring) : bool := existsb (λ c, (c =? 13)%N) s.

Definition bare_cr (s : jstring) : bool :=
  negb (QrSheet.needs_quotes s) && has_cr s.

Definition no_bare_cr (vals : list (option jstring)) : Prop :=
  Forall (λ v, bare_cr (default [] v) = false) vals.

(** A backslash escape is well formed, and no separator or line break
    stands outside one. *)
Fixpoint well_escaped (s : jstring) : bool :=
  match s with
  | [] => true
  | c :: s' =>
      if (c =? 92)%N then
        match s' with
        | d :: s'' =>
            ((d =? 92)%N || (d =? 44)%N || (d =? 59)%N || (d =? 110)%N)
            && well_escaped s''
        | [] => false
        end
      else negb ((c =? 44)%N || (c =? 59)%N || (c =? 10)%N || (c =? 13)%N)
           && well_escaped s'
  end.

(** No character that [vEscape] rewrites. *)
Definition plain_text (s : jstring) : Prop :=
  Forall (λ c, c ≠ 92%N ∧ c ≠ 44%N ∧ c ≠ 59%N ∧ c ≠ 10%N ∧ c ≠ 13%N) s.

(** No line break. *)
Definition one_line (s : jstring) : Prop :=
  Forall (λ c, c ≠ 10%N ∧ c ≠ 13%N) s.

(** A small output directory and card list for the generator. *)
Definition test_path_join (dir name : jstring) : jstring := dir ++ lit "/" ++ name.
Definition test_url (uid : jstring) : jstring := lit "https://spexcard.com/u?uid=" ++ uid.
Definition test_cards : list Card.t := [ada_row; Card.blank (lit "card-blank1") 1000; punctuated_row].

(** A line pushed when the field is set, as the later scripts build the
    file. *)
Definition pushed (tag : string) (v : option jstring) (close : string)
    : list jstring :=
  if truthy v then [lit tag ++ default [] v ++ lit close] else [].

(** The values of a card that go into a contact file. *)
Definition rendered_values (c : Card.t) : list jstring :=
  map or_empty
    [ Card.name c; Card.company c; Card.title c; Card.mobile c; Card.phone c;
      Card.email c; Card.website c; Card.address c ].

(** The files of a card are in place: its URL code, and, when it has
    profile data, its contact file and the code of it. *)
Definition up_to_date
    (path_join : jstring → jstring → jstring) (OUT_DIR : jstring)
    (fs : gmap (list N) GenQrs3.file) (c : Card.t) : Prop :=
  is_Some (fs !! (path_join OUT_DIR (Card.uid c) ++ lit "-url.png"))
  ∧ (GenQrs3.hasProfileData c = true →
     is_Some (fs !! (path_join OUT_DIR (Card.uid c) ++ lit ".vcf"))
     ∧ is_Some (fs !! (path_join OUT_DIR (Card.uid c) ++ lit ".png"))).

Definition add_skipped (n : nat) (k : GenQrs3.counters) : GenQrs3.counters :=
  {| GenQrs3.skippedAll := n + GenQrs3.skippedAll k;
     GenQrs3.wroteUrlQr := GenQrs3.wroteUrlQr k;
     GenQrs3.wroteVcf := GenQrs3.wroteVcf k;
     GenQrs3.wroteVcfQr := GenQrs3.wroteVcfQr k |}.
(* ------------------------------------------------------------------ *)
(** ** Basic facts *)

Lemma truthy_Some_cons (s : jstring) : s ≠ [] → truthy (Some s) = true.
Proof. by destruct s. Qed.

Lemma truthy_true_inv (v : option jstring) :
  truthy v = true → ∃ s, v = Some s ∧ s ≠ [].
Proof. destruct v as [[|a s]|]; simpl; try discriminate. intros _. by eexists. Qed.

Lemma startsWith_app (p s : jstring) : startsWith p (p ++ s) = true.
Proof. induction p as [|a p IH]; simpl; [done|]. by rewrite N.eqb_refl. Qed.

Lemma bearer_token (tok : jstring) :
  startsWith (lit "Bearer ") (lit "Bearer " ++ tok) = true
  ∧ drop 7 (lit "Bearer " ++ tok) = tok.
Proof. split; [apply startsWith_app | reflexivity]. Qed.

Lemma stores_submitted_write (profile : option Profile.t) (now : Z) (c : Card.t) :
  stores_submitted profile c
    (write_profile (profile_data (default Profile.empty profile)) now c).
Proof. destruct profile as [p|]; repeat split. Qed.

Lemma stores_submitted_claimed (body : ClaimBody.t) (t now : Z) (c : Card.t) :
  stores_submitted (ClaimBody.profile body) c
    (claimed_row (claim_data_of t body) now c).
Proof. destruct body as [? ? [p|] ?]; repeat split. Qed.

Lemma update_unclaimed_rows_claimed (u : jstring) (d : claim_data) (now : Z) (db : store) (c : Card.t) :
  db !! u = Some c → is_Some (Card.claimedAt c) →
  update_unclaimed_rows u d now db = (db, 0).
Proof.
  intros Hc [t Ht]. unfold update_unclaimed_rows. by rewrite Hc, Ht.
Qed.

Lemma update_unclaimed_rows_fresh (u : jstring) (d : claim_data) (now : Z) (db : store) (c : Card.t) :
  db !! u = Some c → Card.claimedAt c = None →
  update_unclaimed_rows u d now db = (<[u := claimed_row d now c]> db, 1).
Proof.
  intros Hc Ht. unfold update_unclaimed_rows. by rewrite Hc, Ht.
Qed.

Lemma update_unclaimed_rows_count_0 (u : jstring) (d : claim_data) (now : Z) (db db' : store) :
  update_unclaimed_rows u d now db = (db', 0) → db' = db.
Proof.
  unfold update_unclaimed_rows.
  destruct (db !! u) as [c|]; [destruct (Card.claimedAt c)|]; congruence.
Qed.

Lemma update_unclaimed_rows_count_1 (u : jstring) (d : claim_data) (now : Z)
    (db db' : store) (n : nat) :
  update_unclaimed_rows u d now db = (db', S n) →
  ∃ c, db !! u = Some c ∧ Card.claimedAt c = None
       ∧ db' = <[u := claimed_row d now c]> db ∧ n = 0.
Proof.
  unfold update_unclaimed_rows.
  destruct (db !! u) as [c|]; [|discriminate].
  destruct (Card.claimedAt c) eqn:Hfree; [discriminate|].
  intros [= <- <-]. by exists c.
Qed.

Lemma accepts_claim_body (accepts : jstring → bool) (b : ClaimBody.t)
    (u : jstring) (t : Z) :
  ClaimBody.uid b = Some u →
  accepts_claim accepts u (claim_data_of t b) = accepts_body accepts b.
Proof. intros Hu. unfold accepts_claim, accepts_body. by rewrite Hu. Qed.

Lemma claim_ok_not_error
    (jwt_sign : Payload.t → option jstring → Z → jstring)
    (t : Z) (u : jstring) (code : nat) (e : string) :
  claim_ok jwt_sign t u ≠ error_json code e.
Proof. discriminate. Qed.

Section CodecFacts.
Variable accepts : jstring → bool.
Variable jwt_sign : Payload.t → option jstring → Z → jstring.
Variable jwt_verify : jstring → Z → option Payload.t.

Lemma claim_check_valid now body u tok :
  ClaimBody.uid body = Some u → u ≠ [] →
  ClaimBody.claimToken body = Some tok →
  valid_claim_token jwt_verify now tok u →
  claim_check jwt_verify now (Some body) = inr (u, claim_data_of now body).
Proof.
  intros Hu Hne Htok (Htne & p & Hv & Hp & Hpu).
  unfold claim_check. simpl. rewrite Hu, Htok.
  rewrite !truthy_Some_cons by done. simpl. rewrite Hv.
  rewrite !bool_decide_eq_false_2 by (intros H; by apply H). done.
Qed.

Lemma claim_check_inr (now : Z) (body : option ClaimBody.t) (u : jstring) (d : claim_data) :
  claim_check jwt_verify now body = inr (u, d) →
  ∃ b, body = Some b ∧ ClaimBody.uid b = Some u ∧ u ≠ [] ∧ d = claim_data_of now b.
Proof.
  unfold claim_check. destruct body as [b|]; simpl; [|discriminate].
  destruct (truthy (ClaimBody.uid b)) eqn:Hu; simpl; [|discriminate].
  destruct (truthy (ClaimBody.claimToken b)); simpl; [|discriminate].
  destruct (jwt_verify _ _); [|discriminate].
  destruct (_ || _); [discriminate|].
  apply truthy_true_inv in Hu as (s & Hs & Hne). rewrite Hs. simpl.
  intros [= <- <-]. by exists b.
Qed.

Lemma claim_check_uid now body u d :
  claim_check jwt_verify now body = inr (u, d) →
  ∃ b, body = Some b ∧ ClaimBody.uid b = Some u ∧ u ≠ [].
Proof.
  intros H. apply claim_check_inr in H as (b & ? & ? & ? & _). by exists b.
Qed.

Lemma claim_check_error (now : Z) (body : option ClaimBody.t) (r : reply) (t : Z) (u : jstring) :
  claim_check jwt_verify now body = inl r → r ≠ claim_ok jwt_sign t u.
Proof.
  intros Hchk ->. unfold claim_check in Hchk.
  destruct (negb _ || negb _); [discriminate|].
  destruct (jwt_verify _ _); [|discriminate].
  destruct (_ || _); discriminate.
Qed.

(** Every way through [claim] either leaves the table alone or is the
    conditional update, its parameters accepted, counting one row. *)
Lemma claim_store_cases (now : Z) (body : option ClaimBody.t) (db : store) :
  (claim accepts jwt_sign jwt_verify now body db).1 = db
  ∨ ∃ u d, claim_check jwt_verify now body = inr (u, d)
           ∧ accepts_claim accepts u d = true
           ∧ update_unclaimed_rows u d now db
             = ((claim accepts jwt_sign jwt_verify now body db).1, 1).
Proof.
  unfold claim, updateMany_unclaimed.
  destruct (claim_check _ _ _) as [r|[u d]]; [by left|].
  destruct (accepts_claim accepts u d) eqn:Hacc; [|by left].
  destruct (update_unclaimed_rows u d now db) as [db' [|n]] eqn:Hup.
  - left. simpl. by apply update_unclaimed_rows_count_0 in Hup.
  - right. exists u, d. split; [done|]. split; [done|]. simpl.
    pose proof Hup as Hone.
    apply update_unclaimed_rows_count_1 in Hone as (c & _ & _ & _ & ->). exact Hup.
Qed.

Lemma claim_valid_fresh (now : Z) (body : ClaimBody.t) (db : store)
    (u tok : jstring) (c : Card.t) :
  ClaimBody.uid body = Some u → u ≠ [] →
  ClaimBody.claimToken body = Some tok →
  valid_claim_token jwt_verify now tok u →
  accepts_body accepts body = true →
  db !! u = Some c → Card.claimedAt c = None →
  claim accepts jwt_sign jwt_verify now (Some body) db
  = (<[u := claimed_row (claim_data_of now body) now c]> db,
     claim_ok jwt_sign now u).
Proof.
  intros Hu Hne Htok Hv Hacc Hc Hun. unfold claim, updateMany_unclaimed.
  rewrite (claim_check_valid _ _ _ _ Hu Hne Htok Hv).
  rewrite (accepts_claim_body _ _ _ _ Hu), Hacc.
  by rewrite (update_unclaimed_rows_fresh _ _ _ _ _ Hc Hun).
Qed.

Lemma claim_valid_claimed (now : Z) (body : ClaimBody.t) (db : store)
    (u tok : jstring) (c : Card.t) :
  ClaimBody.uid body = Some u → u ≠ [] →
  ClaimBody.claimToken body = Some tok →
  valid_claim_token jwt_verify now tok u →
  accepts_body accepts body = true →
  db !! u = Some c → is_Some (Card.claimedAt c) →
  claim accepts jwt_sign jwt_verify now (Some body) db = (db, already_claimed).
Proof.
  intros Hu Hne Htok Hv Hacc Hc Hcl. unfold claim, updateMany_unclaimed.
  rewrite (claim_check_valid _ _ _ _ Hu Hne Htok Hv).
  rewrite (accepts_claim_body _ _ _ _ Hu), Hacc.
  by rewrite (update_unclaimed_rows_claimed _ _ _ _ _ Hc Hcl).
Qed.

(** A refused text ends the call without a response, whatever the row. *)
Lemma claim_valid_refused (now : Z) (body : ClaimBody.t) (db : store)
    (u tok : jstring) :
  ClaimBody.uid body = Some u → u ≠ [] →
  ClaimBody.claimToken body = Some tok →
  valid_claim_token jwt_verify now tok u →
  accepts_body accepts body = false →
  claim accepts jwt_sign jwt_verify now (Some body) db = (db, Rejected RefusedText).
Proof.
  intros Hu Hne Htok Hv Hacc. unfold claim, updateMany_unclaimed.
  rewrite (claim_check_valid _ _ _ _ Hu Hne Htok Hv).
  by rewrite (accepts_claim_body _ _ _ _ Hu), Hacc.
Qed.

(** A successful claim found the row unclaimed, had its texts accepted
    and left the row claimed. *)
Lemma claim_success_inv (now : Z) (body : option ClaimBody.t) (db db' : store)
    (t : Z) (u : jstring) :
  claim accepts jwt_sign jwt_verify now body db = (db', claim_ok jwt_sign t u) →
  ∃ b c, body = Some b ∧ ClaimBody.uid b = Some u ∧ u ≠ []
         ∧ accepts_body accepts b = true
         ∧ db !! u = Some c ∧ Card.claimedAt c = None
         ∧ db' = <[u := claimed_row (claim_data_of now b) now c]> db.
Proof.
  unfold claim, updateMany_unclaimed.
  destruct (claim_check _ _ _) as [r|[u' d]] eqn:Hchk.
  - intros [= _ Hr]. by apply (claim_check_error _ _ _ t u) in Hchk.
  - apply claim_check_inr in Hchk as (b & -> & Hu & Hne & ->).
    rewrite (accepts_claim_body _ _ _ _ Hu).
    destruct (accepts_body accepts b) eqn:Hacc; [|discriminate].
    destruct (update_unclaimed_rows u' _ now db) as [db1 [|n]] eqn:Hup.
    + discriminate.
    + apply update_unclaimed_rows_count_1 in Hup as (c & Hc & Hfree & -> & ->).
      unfold claim_reply, claim_ok. simpl. intros [= <- <- _]. by exists b, c.
Qed.

(** A claim on a claimed row does not succeed. *)
Lemma claim_on_claimed (now : Z) (b : ClaimBody.t) (db : store)
    (u : jstring) (c : Card.t) (t : Z) (u' : jstring) :
  ClaimBody.uid b = Some u → db !! u = Some c → is_Some (Card.claimedAt c) →
  (claim accepts jwt_sign jwt_verify now (Some b) db).2 ≠ claim_ok jwt_sign t u'.
Proof.
  intros Hu Hc [at_ Hcl] Hok.
  destruct (claim accepts jwt_sign jwt_verify now (Some b) db) as [db' r] eqn:Hclaim.
  simpl in Hok. subst r.
  apply claim_success_inv in Hclaim
    as (b' & c' & [= <-] & Hu' & _ & _ & Hc' & Hfree & _).
  congruence.
Qed.

Lemma requireAuth_bearer (now : Z) (tok : jstring) (user : Payload.t) :
  tok ≠ [] → jwt_verify tok now = Some user →
  requireAuth jwt_verify now (Some (lit "Bearer " ++ tok)) = inr user.
Proof.
  intros Hne Hv. unfold requireAuth.
  replace (or_empty (Some (lit "Bearer " ++ tok))) with (lit "Bearer " ++ tok)
    by reflexivity.
  destruct (bearer_token tok) as [-> ->].
  rewrite truthy_Some_cons by done. simpl. by rewrite Hv.
Qed.

(** The edit handler never writes unless the row exists, and then only
    through [write_profile]. *)
Lemma put_card_store_cases (now : Z) (req : EditRequest.t) (db : store) :
  (put_card accepts jwt_verify now req db).1 = db
  ∨ ∃ c, db !! EditRequest.uid req = Some c
         ∧ (put_card accepts jwt_verify now req db).1
           = <[EditRequest.uid req :=
                 write_profile
                   (profile_data (default Profile.empty (EditRequest.profile req)))
                   now c]> db.
Proof.
  unfold put_card. destruct (requireAuth _ _ _) as [r|user]; [by left|].
  case_bool_decide; [by left|]. unfold update.
  destruct (_ && _); [|by left].
  destruct (db !! EditRequest.uid req) as [c|]; [|by left].
  right. by exists c.
Qed.

Lemma put_card_valid (now : Z) (req : EditRequest.t) (db : store)
    (tok : jstring) (user : Payload.t) (c : Card.t) :
  EditRequest.authorization req = Some (lit "Bearer " ++ tok) →
  tok ≠ [] → jwt_verify tok now = Some user →
  Payload.uid user = Some (EditRequest.uid req) →
  accepts_edit accepts (EditRequest.uid req) (EditRequest.profile req) = true →
  db !! EditRequest.uid req = Some c →
  put_card accepts jwt_verify now req db
  = (<[EditRequest.uid req :=
         write_profile
           (profile_data (default Profile.empty (EditRequest.profile req)))
           now c]> db,
     ok_true).
Proof.
  intros Ha Hne Hv Hu Hacc Hc. unfold put_card.
  rewrite Ha, (requireAuth_bearer _ _ _ Hne Hv).
  rewrite bool_decide_eq_false_2 by (intros H; by apply H).
  unfold update. unfold accepts_edit in Hacc. by rewrite Hacc, Hc.
Qed.

Lemma put_card_missing_row (now : Z) (req : EditRequest.t) (db : store)
    (tok : jstring) (user : Payload.t) :
  EditRequest.authorization req = Some (lit "Bearer " ++ tok) →
  tok ≠ [] → jwt_verify tok now = Some user →
  Payload.uid user = Some (EditRequest.uid req) →
  accepts_edit accepts (EditRequest.uid req) (EditRequest.profile req) = true →
  db !! EditRequest.uid req = None →
  put_card accepts jwt_verify now req db = (db, Rejected RecordNotFound).
Proof.
  intros Ha Hne Hv Hu Hacc Hnone. unfold put_card.
  rewrite Ha, (requireAuth_bearer _ _ _ Hne Hv).
  rewrite bool_decide_eq_false_2 by (intros H; by apply H).
  unfold update. unfold accepts_edit in Hacc. by rewrite Hacc, Hnone.
Qed.

Lemma put_card_refused (now : Z) (req : EditRequest.t) (db : store)
    (tok : jstring) (user : Payload.t) :
  EditRequest.authorization req = Some (lit "Bearer " ++ tok) →
  tok ≠ [] → jwt_verify tok now = Some user →
  Payload.uid user = Some (EditRequest.uid req) →
  accepts_edit accepts (EditRequest.uid req) (EditRequest.profile req) = false →
  put_card accepts jwt_verify now req db = (db, Rejected RefusedText).
Proof.
  intros Ha Hne Hv Hu Hacc. unfold put_card.
  rewrite Ha, (requireAuth_bearer _ _ _ Hne Hv).
  rewrite bool_decide_eq_false_2 by (intros H; by apply H).
  unfold update. unfold accepts_edit in Hacc. by rewrite Hacc.
Qed.

(** An edit answered [{ok: true}] wrote the row through
    [write_profile], its texts accepted. *)
Lemma put_card_ok_inv (now : Z) (req : EditRequest.t) (db db' : store) :
  put_card accepts jwt_verify now req db = (db', ok_true) →
  ∃ c, db !! EditRequest.uid req = Some c
       ∧ accepts_edit accepts (EditRequest.uid req) (EditRequest.profile req) = true
       ∧ db' = <[EditRequest.uid req :=
                   write_profile
                     (profile_data (default Profile.empty (EditRequest.profile req)))
                     now c]> db.
Proof.
  unfold put_card, requireAuth.
  destruct (negb _); [discriminate|].
  destruct (jwt_verify _ _); [|discriminate].
  case_bool_decide; [discriminate|]. unfold update, accepts_edit.
  destruct (_ && _); [|discriminate].
  destruct (db !! EditRequest.uid req) as [c|]; [|discriminate].
  intros [= <-]. by exists c.
Qed.
End CodecFacts.

(* ------------------------------------------------------------------ *)
(** ** Claim and edit, one call at a time *)

(** Closes [valid_claim_token] goals of the test codec. *)
Ltac test_claim_token :=
  split; [discriminate|];
  eexists (Payload.mk _ _); repeat split; reflexivity.

(** The responses, written out. *)
Example replies_written_out :
  missing_params = Json 400 (JObj [(lit "error", JStr (lit "missing_params"))])
  ∧ invalid_token = Json 400 (JObj [(lit "error", JStr (lit "invalid_token"))])
  ∧ token_expired_or_invalid
    = Json 401 (JObj [(lit "error", JStr (lit "token_expired_or_invalid"))])
  ∧ already_claimed = Json 409 (JObj [(lit "error", JStr (lit "already_claimed"))])
  ∧ no_token = Json 401 (JObj [(lit "error", JStr (lit "no_token"))])
  ∧ bad_token = Json 401 (JObj [(lit "error", JStr (lit "bad_token"))])
  ∧ forbidden = Json 403 (JObj [(lit "error", JStr (lit "forbidden"))])
  ∧ not_found = Json 404 (JObj [(lit "error", JStr (lit "not_found"))])
  ∧ ok_true = Json 200 (JObj [(lit "ok", JBool true)])
  ∧ no_content = Send 204 [] None.
Proof. repeat split. Qed.

(** [v ?? {}], case by case. *)
Example or_empty_object_cases :
  or_empty_object None = JObj []
  ∧ or_empty_object (Some JNull) = JObj []
  ∧ or_empty_object (Some (JObj [(lit "x", JStr (lit "@ada"))]))
    = JObj [(lit "x", JStr (lit "@ada"))]
  ∧ or_empty_object (Some (JStr [])) = JStr []
  ∧ or_empty_object (Some (JBool false)) = JBool false
  ∧ or_empty_object (Some (JNum 0)) = JNum 0
  ∧ or_empty_object (Some (JArr [])) = JArr [].
Proof. repeat split. Qed.

(** C2, as stated, fails: the card [card-ada01] is claimed, and a claim
    call on it whose token does not verify is answered 401
    [token_expired_or_invalid], not [already_claimed]. *)
Lemma reclaim_bad_token_not_already_claimed :
  test_db !! lit "card-ada01" = Some ada_row
  ∧ is_Some (Card.claimedAt ada_row)
  ∧ claim no_nul TestCodec.sign TestCodec.verify 5000 (Some reclaim_with_bad_token) test_db
    = (test_db, token_expired_or_invalid)
  ∧ token_expired_or_invalid ≠ already_claimed.
Proof.
  split; [reflexivity|]. split; [by eexists|]. split; [reflexivity|discriminate].
Qed.

(** C2 (amended): a claim call on an identifier whose card is already
    claimed leaves the whole table as it was, whatever token and whatever
    profile it carries; and when the token is a valid claim token for
    that identifier, the answer is 409 [already_claimed] if the database
    accepts the texts of the call; if it refuses one, the update throws
    and the call ends without a response. *)
Theorem reclaim_never_mutates
    (accepts : jstring → bool)
    (jwt_sign : Payload.t → option jstring → Z → jstring)
    (jwt_verify : jstring → Z → option Payload.t)
    (now : Z) (body : ClaimBody.t) (db : store) (u : jstring) (c : Card.t) :
  db !! u = Some c → is_Some (Card.claimedAt c) →
  ClaimBody.uid body = Some u →
  (claim accepts jwt_sign jwt_verify now (Some body) db).1 = db
  ∧ (∀ tok, u ≠ [] → ClaimBody.claimToken body = Some tok →
            valid_claim_token jwt_verify now tok u →
            (claim accepts jwt_sign jwt_verify now (Some body) db).2
            = if accepts_body accepts body then already_claimed
              else Rejected RefusedText).
Proof.
  intros Hc Hcl Hu. split.
  - destruct (claim_store_cases accepts jwt_sign jwt_verify now (Some body) db)
      as [H|(u' & d & Hchk & _ & Hup)]; [done|].
    apply claim_check_uid in Hchk as (b & [= <-] & Hu' & _).
    assert (u' = u) as -> by congruence.
    rewrite (update_unclaimed_rows_claimed _ _ _ _ _ Hc Hcl) in Hup. congruence.
  - intros tok Hne Htok Hv. destruct (accepts_body accepts body) eqn:Hacc.
    + by rewrite (claim_valid_claimed accepts jwt_sign jwt_verify
                    _ _ _ _ _ _ Hu Hne Htok Hv Hacc Hc Hcl).
    + by rewrite (claim_valid_refused accepts jwt_sign jwt_verify
                    _ _ _ _ _ Hu Hne Htok Hv Hacc).
Qed.

Lemma reclaim_never_mutates_witness :
  (claim no_nul TestCodec.sign TestCodec.verify 5000
     (Some reclaim_with_good_token) test_db).1
  = test_db
  ∧ (claim no_nul TestCodec.sign TestCodec.verify 5000
       (Some reclaim_with_good_token) test_db).2
    = already_claimed.
Proof.
  destruct (reclaim_never_mutates no_nul TestCodec.sign TestCodec.verify 5000
              reclaim_with_good_token test_db (lit "card-ada01") ada_row)
    as [Hdb Hreply].
  - reflexivity.
  - by eexists.
  - reflexivity.
  - split; [exact Hdb|].
    apply (Hreply (lit "claim:card-ada01")).
    + discriminate.
    + reflexivity.
    + test_claim_token.
Defined.

(** C3: a claim call whose token verifies, but whose decoded purpose is
    not "claim" or whose decoded identifier is not the identifier of the
    request, is answered 400 [invalid_token] (the InvalidCredential
    outcome), and the table is unchanged. *)
Theorem claim_token_scoping
    (accepts : jstring → bool)
    (jwt_sign : Payload.t → option jstring → Z → jstring)
    (jwt_verify : jstring → Z → option Payload.t)
    (now : Z) (body : ClaimBody.t) (db : store)
    (u tok : jstring) (payload : Payload.t) :
  ClaimBody.uid body = Some u → u ≠ [] →
  ClaimBody.claimToken body = Some tok → tok ≠ [] →
  jwt_verify tok now = Some payload →
  Payload.purpose payload ≠ Some (lit "claim") ∨ Payload.uid payload ≠ Some u →
  claim accepts jwt_sign jwt_verify now (Some body) db = (db, invalid_token).
Proof.
  intros Hu Hne Htok Htne Hv Hbad. unfold claim, claim_check. simpl.
  rewrite Hu, Htok, !truthy_Some_cons by done. simpl. rewrite Hv.
  destruct Hbad as [Hp|Hp].
  - by rewrite (bool_decide_eq_true_2 _ Hp).
  - rewrite (bool_decide_eq_true_2 _ Hp). by rewrite orb_true_r.
Qed.

Lemma claim_token_scoping_witness :
  claim no_nul TestCodec.sign TestCodec.verify 5000 (Some claim_with_foreign_token) test_db
  = (test_db, invalid_token).
Proof.
  apply (claim_token_scoping no_nul TestCodec.sign TestCodec.verify 5000
           claim_with_foreign_token test_db
           (lit "card-new01") (lit "claim:card-ada01")
           (Payload.mk (Some (lit "card-ada01")) (Some (lit "claim")))).
  - reflexivity.
  - discriminate.
  - reflexivity.
  - discriminate.
  - reflexivity.
  - right. discriminate.
Defined.

(** C4: an edit call whose bearer token verifies, but decodes to an
    identifier other than the one being edited, is answered 403
    [forbidden], and the table is unchanged. *)
Theorem ownership_token_scoping
    (accepts : jstring → bool)
    (jwt_verify : jstring → Z → option Payload.t)
    (now : Z) (req : EditRequest.t) (db : store)
    (tok : jstring) (user : Payload.t) :
  EditRequest.authorization req = Some (lit "Bearer " ++ tok) →
  tok ≠ [] → jwt_verify tok now = Some user →
  Payload.uid user ≠ Some (EditRequest.uid req) →
  put_card accepts jwt_verify now req db = (db, forbidden).
Proof.
  intros Ha Hne Hv Hu. unfold put_card.
  rewrite Ha, (requireAuth_bearer jwt_verify _ _ _ Hne Hv).
  by rewrite (bool_decide_eq_true_2 _ Hu).
Qed.

Lemma ownership_token_scoping_witness :
  put_card no_nul TestCodec.verify 5000 edit_foreign_card test_db = (test_db, forbidden).
Proof.
  apply (ownership_token_scoping no_nul TestCodec.verify 5000 edit_foreign_card test_db
           (lit "owner:card-ada01") (Payload.mk (Some (lit "card-ada01")) None)).
  - reflexivity.
  - discriminate.
  - reflexivity.
  - discriminate.
Defined.

(** C5: the code does not do what the claim says. An edit call with a
    valid, correctly scoped token on an identifier that has no row is not
    answered 404: [prisma.card.update] throws, the handler has no [try],
    and the call ends as a rejected promise without a response. *)
Theorem edit_missing_card_is_unhandled :
  test_db !! lit "card-gone01" = None
  ∧ put_card no_nul TestCodec.verify 5000 edit_missing_card test_db
    = (test_db, Rejected RecordNotFound)
  ∧ Rejected RecordNotFound ≠ not_found.
Proof.
  split; [reflexivity|]. split; [|discriminate].
  apply (put_card_missing_row no_nul TestCodec.verify 5000 edit_missing_card test_db
           (lit "owner:card-gone01") (Payload.mk (Some (lit "card-gone01")) None));
    reflexivity || discriminate.
Qed.

(** C6: an edit call with a valid ownership token for an existing card
    leaves the row with the [uid], [createdAt], [claimedAt] and
    [claimedByEmail] it had before, whatever the submitted profile
    holds, and no other row changes. When the database accepts the
    texts of the call the answer is [{ok: true}] and what is written is
    the profile columns of [stores_submitted] (the store refreshes
    [updatedAt]); when it refuses one, the update throws, the call ends
    without a response and the row is as it was. *)
Theorem edit_keeps_claim_state
    (accepts : jstring → bool)
    (jwt_verify : jstring → Z → option Payload.t)
    (now : Z) (req : EditRequest.t) (db : store)
    (tok : jstring) (user : Payload.t) (c : Card.t) :
  EditRequest.authorization req = Some (lit "Bearer " ++ tok) →
  tok ≠ [] → jwt_verify tok now = Some user →
  Payload.uid user = Some (EditRequest.uid req) →
  db !! EditRequest.uid req = Some c →
  ∃ c', (put_card accepts jwt_verify now req db).1 !! EditRequest.uid req = Some c'
        ∧ Card.uid c' = Card.uid c
        ∧ Card.createdAt c' = Card.createdAt c
        ∧ Card.claimedAt c' = Card.claimedAt c
        ∧ Card.claimedByEmail c' = Card.claimedByEmail c
        ∧ (∀ u', u' ≠ EditRequest.uid req →
                 (put_card accepts jwt_verify now req db).1 !! u' = db !! u')
        ∧ (put_card accepts jwt_verify now req db).2
          = (if accepts_edit accepts (EditRequest.uid req) (EditRequest.profile req)
             then ok_true else Rejected RefusedText)
        ∧ (if accepts_edit accepts (EditRequest.uid req) (EditRequest.profile req)
           then stores_submitted (EditRequest.profile req) c c' else c' = c).
Proof.
  intros Ha Hne Hv Hu Hc.
  destruct (accepts_edit accepts (EditRequest.uid req) (EditRequest.profile req))
    eqn:Hacc.
  - rewrite (put_card_valid accepts jwt_verify _ _ _ _ _ _ Ha Hne Hv Hu Hacc Hc). simpl.
    eexists. split; [apply lookup_insert_eq|].
    repeat (split; [reflexivity|]).
    split; [intros u' Hu'; by apply lookup_insert_ne|].
    split; [done|]. apply stores_submitted_write.
  - rewrite (put_card_refused accepts jwt_verify _ _ _ _ _ Ha Hne Hv Hu Hacc). simpl.
    exists c. by repeat split.
Qed.

Lemma edit_keeps_claim_state_witness :
  ∃ c', (put_card no_nul TestCodec.verify 5000 edit_own_card test_db).1
            !! lit "card-ada01" = Some c'
        ∧ Card.uid c' = Card.uid ada_row
        ∧ Card.createdAt c' = Card.createdAt ada_row
        ∧ Card.claimedAt c' = Card.claimedAt ada_row
        ∧ Card.claimedByEmail c' = Card.claimedByEmail ada_row
        ∧ (∀ u', u' ≠ lit "card-ada01" →
                 (put_card no_nul TestCodec.verify 5000 edit_own_card test_db).1 !! u'
                 = test_db !! u')
        ∧ (put_card no_nul TestCodec.verify 5000 edit_own_card test_db).2 = ok_true
        ∧ stores_submitted (Some grace_profile) ada_row c'.
Proof.
  apply (edit_keeps_claim_state no_nul TestCodec.verify 5000 edit_own_card test_db
           (lit "owner:card-ada01") (Payload.mk (Some (lit "card-ada01")) None)
           ada_row).
  - reflexivity.
  - discriminate.
  - reflexivity.
  - reflexivity.
  - reflexivity.
Defined.

(** The claim columns survive every edit call, with or without a valid
    token, on every row of the table. *)
Lemma put_card_frame
    (accepts : jstring → bool)
    (jwt_verify : jstring → Z → option Payload.t)
    (now : Z) (req : EditRequest.t) (db : store) (u : jstring) (c : Card.t) :
  db !! u = Some c →
  ∃ c', (put_card accepts jwt_verify now req db).1 !! u = Some c'
        ∧ Card.uid c' = Card.uid c
        ∧ Card.createdAt c' = Card.createdAt c
        ∧ Card.claimedAt c' = Card.claimedAt c
        ∧ Card.claimedByEmail c' = Card.claimedByEmail c.
Proof.
  intros Hc.
  destruct (put_card_store_cases accepts jwt_verify now req db) as [->|(c0 & Hc0 & ->)].
  - by exists c.
  - destruct (decide (EditRequest.uid req = u)) as [<-|Hne].
    + rewrite lookup_insert_eq. eexists. split; [done|].
      assert (c0 = c) as -> by congruence. by repeat split.
    + rewrite lookup_insert_ne by done. by exists c.
Qed.

(** [requireAuth] does not look at the purpose of a token: the claim
    token of a card opens the edit path of that card as well. *)
Example claim_token_passes_requireAuth :
  ∃ c', put_card no_nul TestCodec.verify 5000 edit_with_claim_token test_db
        = (<[lit "card-ada01" := c']> test_db, ok_true)
        ∧ Card.name c' = Some (lit "Grace Hopper").
Proof. eexists. split; reflexivity. Qed.

(** An edit whose profile holds U+0000, with PostgreSQL's rule: the
    update throws, nothing is written and nothing is answered. *)
Example edit_with_nul_name :
  put_card no_nul TestCodec.verify 5000
    (EditRequest.mk (Some (lit "Bearer owner:card-ada01")) (lit "card-ada01")
       (Some nul_profile)) test_db
  = (test_db, Rejected RefusedText).
Proof. reflexivity. Qed.

(** C10, as stated, fails: the unclaimed card [card-new01] is claimed with
    no profile at all; the call succeeds, and the row it leaves has the
    empty object in [socials] and its old value in [emailPublic], so not
    every profile field is null. *)
Lemma claim_without_profile_not_all_null :
  test_db !! lit "card-new01" = Some prefilled_row
  ∧ ClaimBody.profile claim_without_profile = None
  ∧ ∃ c', claim no_nul TestCodec.sign TestCodec.verify 5000
            (Some claim_without_profile) test_db
          = (<[lit "card-new01" := c']> test_db,
             claim_ok TestCodec.sign 5000 (lit "card-new01"))
          ∧ Card.socials c' = Some (JObj [])
          ∧ Card.emailPublic c' = Some (lit "desk@example.com")
          ∧ ¬ every_profile_field_null c'.
Proof.
  split; [reflexivity|]. split; [reflexivity|].
  eexists. split; [reflexivity|]. split; [reflexivity|]. split; [reflexivity|].
  intros (_ & _ & _ & _ & _ & _ & H & _). discriminate H.
Qed.

(** C10 (amended): a claim call lacking the identifier or the claim token
    is answered 400 [missing_params]; nothing else is required: a call
    that names an unclaimed card, carries a valid claim token for it
    and texts the database accepts is answered with success, with or
    without a profile. A claim that is answered with success, and an
    edit that is answered [{ok: true}], have written the submitted profile over the old one
    column by column, in the one row they name and nowhere else: each of
    [name], [company], [title], [phone], [mobile], [email], [website],
    [address], [imageUrl] is the submitted value, or null when the
    property (or, for claim, the whole profile) is missing; [socials] is
    the submitted value, or the empty object when it is missing or null;
    [emailPublic] keeps its previous value. *)
Theorem write_paths_replace_profile
    (accepts : jstring → bool)
    (jwt_sign : Payload.t → option jstring → Z → jstring)
    (jwt_verify : jstring → Z → option Payload.t)
    (now : Z) (db : store) :
  (∀ body : option ClaimBody.t,
      truthy (body ≫= ClaimBody.uid) = false
      ∨ truthy (body ≫= ClaimBody.claimToken) = false →
      claim accepts jwt_sign jwt_verify now body db = (db, missing_params))
  ∧ (∀ (b : ClaimBody.t) (u tok : jstring) (c : Card.t),
      ClaimBody.uid b = Some u → u ≠ [] →
      ClaimBody.claimToken b = Some tok →
      valid_claim_token jwt_verify now tok u →
      accepts_body accepts b = true →
      db !! u = Some c → Card.claimedAt c = None →
      claim accepts jwt_sign jwt_verify now (Some b) db
      = (<[u := claimed_row (claim_data_of now b) now c]> db,
         Json 200
           (JObj [ (lit "uid", JStr u);
                   (lit "authToken",
                    JStr (jwt_sign (Payload.mk (Some u) None) (Some (lit "90d")) now)) ])))
  ∧ (∀ (body : option ClaimBody.t) (db' : store) (t : Z) (u : jstring),
      claim accepts jwt_sign jwt_verify now body db = (db', claim_ok jwt_sign t u) →
      ∃ (b : ClaimBody.t) (c c' : Card.t),
        body = Some b ∧ ClaimBody.uid b = Some u
        ∧ db !! u = Some c ∧ db' = <[u := c']> db
        ∧ stores_submitted (ClaimBody.profile b) c c')
  ∧ (∀ (req : EditRequest.t) (db' : store),
      put_card accepts jwt_verify now req db = (db', ok_true) →
      ∃ c c' : Card.t,
        db !! EditRequest.uid req = Some c
        ∧ db' = <[EditRequest.uid req := c']> db
        ∧ stores_submitted (EditRequest.profile req) c c').
Proof.
  split; [|split; [|split]].
  - intros body Hmiss. unfold claim, claim_check.
    destruct body as [b|]; simpl in *.
    + by destruct Hmiss as [-> | ->]; rewrite ?orb_true_r.
    + done.
  - intros b u tok c Hu Hne Htok Hv Hacc Hc Hun.
    by rewrite (claim_valid_fresh accepts jwt_sign jwt_verify now b db u tok c).
  - intros body db' t u Hclaim.
    apply claim_success_inv in Hclaim as (b & c & -> & Hu & _ & _ & Hc & _ & ->).
    exists b, c. eexists. split; [done|]. split; [done|]. split; [done|].
    split; [done|]. apply stores_submitted_claimed.
  - intros req db' Hput.
    apply put_card_ok_inv in Hput as (c & Hc & _ & ->).
    exists c. eexists. split; [done|]. split; [done|]. apply stores_submitted_write.
Qed.

(** The three cases at work on the sample table: no body, a claim
    without profile, an edit. *)
Example write_paths_on_test_db :
  claim no_nul TestCodec.sign TestCodec.verify 5000 None test_db
  = (test_db, missing_params)
  ∧ (claim no_nul TestCodec.sign TestCodec.verify 5000
       (Some claim_without_profile) test_db).2
    = claim_ok TestCodec.sign 5000 (lit "card-new01")
  ∧ (put_card no_nul TestCodec.verify 5000 edit_own_card test_db).2 = ok_true
  ∧ (claim no_nul TestCodec.sign TestCodec.verify 5000
       (Some claim_with_nul_name) test_db)
    = (test_db, Rejected RefusedText).
Proof. repeat split. Qed.

(* ------------------------------------------------------------------ *)
(** ** Concurrent claim calls *)

Section Race.
Variable accepts : jstring → bool.
Variable jwt_sign : Payload.t → option jstring → Z → jstring.
Variable jwt_verify : jstring → Z → option Payload.t.

#[local] Abbreviation step' := (step accepts jwt_sign jwt_verify).
#[local] Abbreviation run' := (run accepts jwt_sign jwt_verify).
#[local] Abbreviation advance' := (advance accepts jwt_sign jwt_verify).

Lemma run_app (s1 s2 : list (nat * Z)) (s : system) :
  run' (s1 ++ s2) s = run' s2 (run' s1 s).
Proof. apply foldl_app. Qed.

Lemma claimed_row_claimed (d : claim_data) (now : Z) (c : Card.t) :
  is_Some (Card.claimedAt (claimed_row d now c)).
Proof. by eexists. Qed.

(** A claimed row is never written again, whoever moves. *)
Lemma step_keeps_claimed (s : system) (ev : nat * Z) (u : jstring) (r : Card.t) :
  sys_db s !! u = Some r → is_Some (Card.claimedAt r) →
  sys_db (step' s ev) !! u = Some r.
Proof.
  intros Hr Hcl. unfold step.
  destruct (sys_calls s !! ev.1) as [c|]; [|done].
  unfold advance. destruct (c_phase c) as [|u' d|u' n|r'].
  - by destruct (claim_check _ _ _) as [?|[? ?]].
  - unfold updateMany_unclaimed. destruct (accepts_claim accepts u' d); [|done].
    destruct (decide (u' = u)) as [->|Hne].
    + by rewrite (update_unclaimed_rows_claimed _ _ _ _ _ Hr Hcl).
    + unfold update_unclaimed_rows.
      destruct (sys_db s !! u') as [c'|]; [|done].
      destruct (Card.claimedAt c'); [done|]. simpl.
      by rewrite lookup_insert_ne.
  - done.
  - done.
Qed.

Lemma run_keeps_claimed (sched : list (nat * Z)) (s : system)
    (u : jstring) (r : Card.t) :
  sys_db s !! u = Some r → is_Some (Card.claimedAt r) →
  sys_db (run' sched s) !! u = Some r.
Proof.
  revert s. induction sched as [|ev sched IH]; intros s Hr Hcl; [done|].
  simpl. apply IH; [|done]. by apply step_keeps_claimed.
Qed.

Section Invariant.
Variables (u : jstring) (c0 : Card.t) (bodies : list ClaimBody.t).
Hypothesis Hu : u ≠ [].
Hypothesis Hfree : Card.claimedAt c0 = None.
Hypothesis Hvalid : Forall (claim_request_for jwt_verify u) bodies.
Hypothesis Haccepted : Forall (λ b, accepts_body accepts b = true) bodies.

#[local] Abbreviation race_inv' := (race_inv jwt_sign u c0 bodies).

Lemma body_valid (j : nat) (b : ClaimBody.t) (now : Z) :
  bodies !! j = Some b →
  claim_check jwt_verify now (Some b) = inr (u, claim_data_of now b).
Proof.
  intros Hj. rewrite Forall_lookup in Hvalid.
  destruct (Hvalid j b Hj) as (Hbu & tok & Htok & Hv).
  by apply (claim_check_valid jwt_verify now b u tok).
Qed.

Lemma body_accepted (j : nat) (b : ClaimBody.t) (t now : Z) (db : store) :
  bodies !! j = Some b →
  updateMany_unclaimed accepts u (claim_data_of t b) now db
  = inr (update_unclaimed_rows u (claim_data_of t b) now db).
Proof.
  intros Hj. unfold updateMany_unclaimed.
  rewrite Forall_lookup in Hvalid. destruct (Hvalid j b Hj) as (Hbu & _).
  rewrite Forall_lookup in Haccepted.
  by rewrite (accepts_claim_body _ _ _ _ Hbu), (Haccepted j b Hj).
Qed.

Lemma race_inv_start (db : store) :
  db !! u = Some c0 → race_inv' (start db bodies).
Proof.
  intros Hrow. split; [apply length_map|]. left. split; [done|].
  intros j b c Hb Hc. simpl in Hc.
  rewrite list_lookup_fmap, Hb in Hc. injection Hc as <-.
  split; [done|by left].
Qed.

(** A waiting call that moves either stays waiting, the table
    untouched, or is the update of its own request. *)
Lemma advance_waiting (b : ClaimBody.t) (c : call) (now : Z) (db : store) (j : nat) :
  bodies !! j = Some b → waiting u b c →
  (advance' now c db = (db, set_phase c (Awaiting u (claim_data_of now b))))
  ∨ ∃ t, advance' now c db
         = ((update_unclaimed_rows u (claim_data_of t b) now db).1,
            set_phase c (Resumed u (update_unclaimed_rows u (claim_data_of t b) now db).2)).
Proof.
  intros Hj [Hb [Hph|[t Hph]]]; unfold advance; rewrite Hph.
  - left. by rewrite Hb, (body_valid j b now Hj).
  - right. exists t. rewrite (body_accepted j b t now db Hj).
    by destruct (update_unclaimed_rows _ _ _ _).
Qed.

Lemma race_inv_step (s : system) (ev : nat * Z) :
  race_inv' s → race_inv' (step' s ev).
Proof.
  intros [Hlen Hinv]. unfold step.
  destruct (sys_calls s !! ev.1) as [ci|] eqn:Hi; [|by split].
  destruct (lookup_lt_is_Some_2 bodies ev.1) as [bi Hbi].
  { rewrite <- Hlen. by eapply lookup_lt_Some. }
  assert (Hlt : ev.1 < length (sys_calls s)) by by eapply lookup_lt_Some.
  destruct Hinv as [[Hrow Hall]|(w & bw & t & tdb & Hw & Hrow & Hall)].
  - (* no update has run' yet *)
    pose proof (Hall _ _ _ Hbi Hi) as Hwait.
    destruct (advance_waiting bi ci ev.2 (sys_db s) ev.1 Hbi Hwait) as [->|[t ->]].
    + split; [simpl; by rewrite length_insert|]. left. split; [done|].
      intros j b c Hb Hc. simpl in Hc. destruct (decide (j = ev.1)) as [->|Hne].
      * rewrite list_lookup_insert_eq in Hc by done. injection Hc as <-.
        assert (b = bi) as -> by congruence.
        split; [apply Hwait|]. right. by eexists.
      * rewrite list_lookup_insert_ne in Hc by done. by eapply Hall.
    + rewrite (update_unclaimed_rows_fresh _ _ _ _ _ Hrow Hfree). simpl.
      split; [simpl; by rewrite length_insert|]. right.
      exists ev.1, bi, t, ev.2. split; [done|].
      split; [apply lookup_insert_eq|].
      intros j b c Hb Hc. simpl in Hc. destruct (decide (j = ev.1)) as [->|Hne].
      * rewrite list_lookup_insert_eq in Hc by done. injection Hc as <-.
        assert (b = bi) as -> by congruence.
        split; [apply Hwait|]. by left.
      * rewrite list_lookup_insert_ne in Hc by done. left. by eapply Hall.
  - (* call [w] has won *)
    pose proof (Hall _ _ _ Hbi Hi) as Hci.
    assert (Hclaimed := claimed_row_claimed (claim_data_of t bw) tdb c0).
    assert (∃ c', advance' ev.2 ci (sys_db s) = (sys_db s, c')
                  ∧ if decide (ev.1 = w) then won jwt_sign u bi c'
                    else waiting u bi c' ∨ lost u bi c') as (c' & -> & Hc').
    { destruct (decide (ev.1 = w)) as [Hew|Hew].
      - destruct Hci as [Hb [Hph|[t' Hph]]]; unfold advance; rewrite Hph.
        + eexists. split; [done|]. split; [done|]. right. by eexists.
        + eexists. split; [done|]. split; [done|]. right. by eexists.
      - destruct Hci as [Hwait|[Hb [Hph|Hph]]].
        + destruct (advance_waiting bi ci ev.2 (sys_db s) ev.1 Hbi Hwait)
            as [->|[t' ->]].
          * eexists. split; [done|]. left.
            split; [apply Hwait|]. right. by eexists.
          * rewrite (update_unclaimed_rows_claimed _ _ _ _ _ Hrow Hclaimed).
            eexists. split; [done|]. right. split; [apply Hwait|]. by left.
        + unfold advance. rewrite Hph.
          eexists. split; [done|]. right. split; [done|]. by right.
        + unfold advance. rewrite Hph.
          eexists. split; [done|]. right. split; [done|]. by right. }
    split; [simpl; by rewrite length_insert|]. right.
    exists w, bw, t, tdb. split; [done|]. split; [done|].
    intros j b c Hb Hc. simpl in Hc. destruct (decide (j = ev.1)) as [->|Hne].
    + rewrite list_lookup_insert_eq in Hc by done. injection Hc as <-.
      by assert (b = bi) as -> by congruence.
    + rewrite list_lookup_insert_ne in Hc by done. by eapply Hall.
Qed.

Lemma race_inv_run (sched : list (nat * Z)) (s : system) :
  race_inv' s → race_inv' (run' sched s).
Proof.
  revert s. induction sched as [|ev sched IH]; intros s Hs; [done|].
  simpl. apply IH. by apply race_inv_step.
Qed.
End Invariant.

(** *** Every call responds *)

Lemma step_length (s : system) (ev : nat * Z) :
  length (sys_calls (step' s ev)) = length (sys_calls s).
Proof.
  unfold step. destruct (sys_calls s !! ev.1); [|done].
  destruct (advance' _ _ _). simpl. apply length_insert.
Qed.

Lemma advance_moves_left (now : Z) (c : call) (db : store) :
  moves_left (advance' now c db).2 ≤ moves_left c - 1.
Proof.
  unfold advance, moves_left.
  destruct (c_phase c) as [|u d|u n|r] eqn:Hph.
  - destruct (claim_check _ _ _) as [?|[? ?]]; simpl; lia.
  - destruct (updateMany_unclaimed _ _ _ _ _) as [e|[db' n]]; simpl; lia.
  - simpl. lia.
  - simpl. rewrite Hph. lia.
Qed.

Lemma advance_moves_left_le (now : Z) (c : call) (db : store) :
  moves_left (advance' now c db).2 ≤ moves_left c.
Proof. pose proof (advance_moves_left now c db). lia. Qed.

Lemma step_moves_left (s : system) (ev : nat * Z) (j : nat) (c : call) :
  sys_calls s !! j = Some c →
  ∃ c', sys_calls (step' s ev) !! j = Some c'
        ∧ moves_left c' ≤ moves_left c - moves_of j [ev].
Proof.
  intros Hj. unfold step, moves_of. simpl.
  destruct (Nat.eqb_spec ev.1 j) as [->|Hne]; simpl.
  - rewrite Hj. pose proof (advance_moves_left ev.2 c (sys_db s)) as Hle.
    destruct (advance' _ _ _) as [db' c']. simpl in *.
    exists c'. split; [|done].
    apply list_lookup_insert_eq. by eapply lookup_lt_Some.
  - destruct (sys_calls s !! ev.1) as [ci|]; [|exists c; split; [done|lia]].
    destruct (advance' _ _ _) as [db' c']. simpl.
    exists c. split; [by rewrite list_lookup_insert_ne|lia].
Qed.

Lemma run_moves_left (sched : list (nat * Z)) (s : system) (j : nat) (c : call) :
  sys_calls s !! j = Some c →
  ∃ c', sys_calls (run' sched s) !! j = Some c'
        ∧ moves_left c' ≤ moves_left c - moves_of j sched.
Proof.
  revert s c. induction sched as [|ev sched IH]; intros s c Hj.
  - exists c. split; [done|]. unfold moves_of. simpl. lia.
  - destruct (step_moves_left s ev j c Hj) as (c1 & Hc1 & Hle1).
    destruct (IH _ _ Hc1) as (c2 & Hc2 & Hle2).
    exists c2. split; [done|].
    unfold moves_of in *. simpl in *.
    destruct (Nat.eqb ev.1 j); simpl in *; lia.
Qed.

Lemma run_length (sched : list (nat * Z)) (s : system) :
  length (sys_calls (run' sched s)) = length (sys_calls s).
Proof.
  revert s. induction sched as [|ev sched IH]; intros s; [done|].
  simpl. rewrite IH. apply step_length.
Qed.

Lemma finished_lookup (s : system) :
  finished s = true ↔
  ∀ j c, sys_calls s !! j = Some c → ∃ r, c_phase c = Done r.
Proof.
  unfold finished. rewrite forallb_forall. split.
  - intros H j c Hj.
    assert (Hin : In c (sys_calls s)).
    { apply list_elem_of_In, list_elem_of_lookup. eauto. }
    apply H, bool_decide_eq_true in Hin as [r Hr].
    unfold response in Hr. destruct (c_phase c); try discriminate. eauto.
  - intros H c Hin.
    apply list_elem_of_In, list_elem_of_lookup in Hin as [j Hj].
    destruct (H j c Hj) as [r Hr]. apply bool_decide_eq_true.
    unfold response. rewrite Hr. by eexists.
Qed.

(** A call needs three moves; a schedule that gives every call three
    moves ends with every call answered, whatever the requests are. *)
Lemma fair_schedule_finishes (db : store) (bodies : list ClaimBody.t)
    (sched : list (nat * Z)) :
  (∀ j, j < length bodies → 3 ≤ moves_of j sched) →
  finished (run' sched (start db bodies)) = true.
Proof.
  intros Hfair. apply finished_lookup. intros j c Hj.
  assert (Hlt : j < length bodies).
  { apply lookup_lt_Some in Hj. rewrite run_length in Hj.
    simpl in Hj. by rewrite length_map in Hj. }
  destruct (lookup_lt_is_Some_2 (sys_calls (start db bodies)) j) as [c0 Hc0].
  { simpl. by rewrite length_map. }
  destruct (run_moves_left sched _ j c0 Hc0) as (c' & Hc' & Hle).
  assert (c' = c) as -> by congruence.
  assert (Hz : moves_left c = 0).
  { pose proof (Hfair j Hlt). unfold moves_left at 2 in Hle.
    destruct (c_phase c0); lia. }
  unfold moves_left in Hz. destruct (c_phase c); try discriminate. eauto.
Qed.

End Race.




(** The race of [race_schedule], run: the second call wins, the first is
    told 409, and the row holds the profile of the second. *)
Example race_schedule_outcome :
  let final := run no_nul TestCodec.sign TestCodec.verify race_schedule
                 (start test_db race_bodies) in
  map response (sys_calls final)
  = [ Some (Json 409 (JObj [(lit "error", JStr (lit "already_claimed"))]));
      Some (Json 200 (JObj [ (lit "uid", JStr (lit "card-new01"));
                             (lit "authToken", JStr (lit "owner:card-new01")) ])) ]
  ∧ (Card.name <$> sys_db final !! lit "card-new01") = Some (Some (lit "Grace Hopper"))
  ∧ (Card.title <$> sys_db final !! lit "card-new01") = Some (Some (lit "Rear Admiral"))
  ∧ (Card.company <$> sys_db final !! lit "card-new01") = Some None
  ∧ (Card.socials <$> sys_db final !! lit "card-new01") = Some (Some (JObj []))
  ∧ (Card.emailPublic <$> sys_db final !! lit "card-new01")
    = Some (Some (lit "desk@example.com"))
  ∧ (Card.claimedByEmail <$> sys_db final !! lit "card-new01")
    = Some (Some (lit "grace@example.com"))
  ∧ (Card.claimedAt <$> sys_db final !! lit "card-new01") = Some (Some 5001%Z).
Proof. vm_compute. repeat split; reflexivity. Qed.

(** One call run alone through its three moves is [claim]. *)
Lemma run_alone_is_claim
    (accepts : jstring → bool)
    (jwt_sign : Payload.t → option jstring → Z → jstring)
    (jwt_verify : jstring → Z → option Payload.t)
    (now : Z) (body : ClaimBody.t) (db : store) :
  let final := run accepts jwt_sign jwt_verify [(0, now); (0, now); (0, now)]
                 (start db [body]) in
  sys_db final = (claim accepts jwt_sign jwt_verify now (Some body) db).1
  ∧ map response (sys_calls final)
    = [Some (claim accepts jwt_sign jwt_verify now (Some body) db).2].
Proof.
  unfold claim, run, start, step, advance. cbn.
  destruct (claim_check jwt_verify now (Some body)) as [r|[u d]]; cbn.
  - done.
  - destruct (updateMany_unclaimed accepts u d now db) as [e|[db' n]]; by cbn.
Qed.

(* ------------------------------------------------------------------ *)
(** ** Contact file *)

Lemma truthy_populated (v : option jstring) : truthy v = true ↔ populated v.
Proof.
  split.
  - apply truthy_true_inv.
  - intros (s & -> & Hs). by apply truthy_Some_cons.
Qed.

Lemma truthy_js_or (a b : option jstring) :
  truthy (js_or a b) = truthy a || truthy b.
Proof. unfold js_or. by destruct (truthy a) eqn:Ha. Qed.

Lemma or_empty_Some (s : jstring) : or_empty (Some s) = s.
Proof. by destruct s. Qed.

Lemma hasProfileData_existsb (c : Card.t) :
  hasProfileData c = existsb truthy (identity_fields c).
Proof.
  unfold hasProfileData, identity_fields. simpl.
  rewrite !truthy_js_or. by rewrite orb_false_r.
Qed.

Lemma hasProfileData_false (c : Card.t) :
  hasProfileData c = false ↔ no_identity_field c.
Proof.
  rewrite hasProfileData_existsb. unfold no_identity_field.
  induction (identity_fields c) as [|v l IH]; simpl.
  - split; [constructor|done].
  - rewrite orb_false_iff, Forall_cons, IH, <- truthy_populated.
    destruct (truthy v); intuition congruence.
Qed.

(** The first four lines are always there. *)
Lemma vcard_lines_head (c : Card.t) :
  ∃ rest, vcard_lines c
          = lit "BEGIN:VCARD" :: lit "VERSION:3.0" :: name_line c
            :: (lit "FN:" ++ or_empty (Card.name c)) :: rest.
Proof.
  unfold vcard_lines, vcard_entries, filter_Boolean, name_line.
  destruct (name_parts (Card.name c)) as [first last_]. simpl.
  by eexists.
Qed.

Lemma not_populated_truthy (v : option jstring) : ¬ populated v → truthy v = false.
Proof.
  intros Hn. destruct (truthy v) eqn:Hv; [|done].
  by apply truthy_populated in Hv.
Qed.

(** Without a rendered field the file is the blank one. *)
Lemma vcardFrom_no_rendered_field (c : Card.t) :
  no_rendered_field c → vcardFrom c = blank_vcard.
Proof.
  unfold no_rendered_field, rendered_fields. rewrite !Forall_cons.
  intros (Hn & Hco & Hti & Hmo & Hph & Hep & Hem & Hwe & Had & _).
  apply not_populated_truthy in Hn, Hco, Hti, Hmo, Hph, Hep, Hem, Hwe, Had.
  unfold vcardFrom, vcard_lines, vcard_entries, name_line, name_parts, line_if,
    js_or, or_empty.
  rewrite Hn, Hco, Hti, Hmo, Hph, Hep, Hem, Hwe, Had. reflexivity.
Qed.

(** The export of an existing card whose key the database takes. *)
Lemma get_vcf_found (accepts : jstring → bool) (db : store) (u : jstring) (c : Card.t) :
  accepts u = true → db !! u = Some c →
  get_vcf accepts u db
  = if hasProfileData c then vcf_file u (vcardFrom c) else no_content.
Proof.
  intros Hacc Hc. unfold get_vcf, findUnique. rewrite Hacc, Hc.
  by destruct (hasProfileData c).
Qed.

(** C7: the code does not do what the claim says. For an existing card
    the export answers 204 with no body exactly when none of the ten
    fields of [hasProfileData] ([name], [mobile], [phone], [emailPublic],
    [email], [company], [title], [website], [address], [imageUrl])
    holds a non-empty text, and a card whose profile fields are all
    null gets the 204; otherwise it sends the file of [vcardFrom] with
    both headers. But [vcardFrom] writes nine of the ten fields only:
    for a card whose [imageUrl] is the one populated field the file
    sent is the blank one, header, [N:;;;;], [FN:] and footer, which
    is what a blank card would render. *)
Theorem export_sends_blank_file
    (accepts : jstring → bool) (db : store) (u : jstring) (c : Card.t) :
  accepts u = true → db !! u = Some c →
  (get_vcf accepts u db = Send 204 [] None ↔ no_identity_field c)
  ∧ (every_profile_field_null c → get_vcf accepts u db = Send 204 [] None)
  ∧ (¬ no_identity_field c →
     get_vcf accepts u db
     = Send 200
         [ (lit "Content-Type", lit "text/vcard; charset=utf-8");
           (lit "Content-Disposition",
            lit "attachment; filename=" ++ [34%N] ++ u ++ lit ".vcf" ++ [34%N]) ]
         (Some (vcardFrom c)))
  ∧ (populated (Card.imageUrl c) → no_rendered_field c →
     get_vcf accepts u db
     = Send 200
         [ (lit "Content-Type", lit "text/vcard; charset=utf-8");
           (lit "Content-Disposition",
            lit "attachment; filename=" ++ [34%N] ++ u ++ lit ".vcf" ++ [34%N]) ]
         (Some blank_vcard))
  ∧ vcardFrom (Card.blank u (Card.createdAt c)) = blank_vcard.
Proof.
  intros Hacc Hc. rewrite (get_vcf_found accepts db u c Hacc Hc).
  pose proof (hasProfileData_false c) as Hiff.
  split; [|split; [|split; [|split]]].
  - destruct (hasProfileData c); simpl.
    + split; [discriminate|]. intros H. by apply Hiff in H.
    + split; [intros _; by apply Hiff|done].
  - intros (Hn & Hco & Hti & Hph & Hmo & Hem & Hep & Hwe & Had & Him & _).
    assert (hasProfileData c = false) as ->; [|done].
    apply Hiff. unfold no_identity_field, identity_fields.
    rewrite Hn, Hco, Hti, Hph, Hmo, Hem, Hep, Hwe, Had, Him.
    repeat constructor; by intros (s & ? & _).
  - intros Hsome. destruct (hasProfileData c); [done|].
    destruct Hsome. by apply Hiff.
  - intros Him Hnone. rewrite (vcardFrom_no_rendered_field c Hnone).
    assert (hasProfileData c = true) as ->; [|done].
    apply not_false_iff_true. intros Hp. clear Hiff.
    apply hasProfileData_false in Hp. unfold no_identity_field, identity_fields in Hp.
    rewrite !Forall_cons in Hp. by destruct Hp as (_ & _ & _ & _ & _ & _ & _ & _ & _ & H & _).
  - reflexivity.
Qed.

Lemma export_sends_blank_file_witness :
  image_db !! lit "card-img01" = Some image_only_row
  ∧ populated (Card.imageUrl image_only_row)
  ∧ no_rendered_field image_only_row
  ∧ get_vcf no_nul (lit "card-img01") image_db
    = Send 200
        [ (lit "Content-Type", lit "text/vcard; charset=utf-8");
          (lit "Content-Disposition",
           lit "attachment; filename=" ++ [34%N] ++ lit "card-img01.vcf" ++ [34%N]) ]
        (Some blank_vcard).
Proof.
  assert (Him : populated (Card.imageUrl image_only_row)).
  { eexists. split; [reflexivity|discriminate]. }
  assert (Hnone : no_rendered_field image_only_row).
  { repeat constructor; by intros (s & ? & _). }
  split; [reflexivity|]. split; [exact Him|]. split; [exact Hnone|].
  destruct (export_sends_blank_file no_nul image_db (lit "card-img01") image_only_row)
    as (_ & _ & _ & Hblank & _); [reflexivity|reflexivity|].
  exact (Hblank Him Hnone).
Defined.

(** The exports of the sample cards, written out: a claimed card with a
    profile, a blank card, a card that is not there, an identifier the
    database does not take. *)
Example exports_written_out :
  get_vcf no_nul (lit "card-ada01") test_db
  = Send 200
      [ (lit "Content-Type", lit "text/vcard; charset=utf-8");
        (lit "Content-Disposition",
         lit "attachment; filename=" ++ [34%N] ++ lit "card-ada01.vcf" ++ [34%N]) ]
      (Some (lit "BEGIN:VCARD" ++ [13; 10]%N ++ lit "VERSION:3.0" ++ [13; 10]%N
             ++ lit "N:Lovelace;Ada;;;" ++ [13; 10]%N
             ++ lit "FN:Ada Lovelace" ++ [13; 10]%N
             ++ lit "ORG:Analytical Engines" ++ [13; 10]%N
             ++ lit "TEL;TYPE=CELL,VOICE:+1-555-0100" ++ [13; 10]%N
             ++ lit "EMAIL;TYPE=INTERNET:ada@example.com" ++ [13; 10]%N
             ++ lit "END:VCARD"))
  ∧ vcardFrom prefilled_row
    = lit "BEGIN:VCARD" ++ [13; 10]%N ++ lit "VERSION:3.0" ++ [13; 10]%N
      ++ lit "N:Name;Old;;;" ++ [13; 10]%N ++ lit "FN:Old Name" ++ [13; 10]%N
      ++ lit "EMAIL;TYPE=INTERNET:desk@example.com" ++ [13; 10]%N ++ lit "END:VCARD"
  ∧ get_vcf no_nul (lit "card-blank1")
      (<[lit "card-blank1" := Card.blank (lit "card-blank1") 1000]> ∅)
    = Send 204 [] None
  ∧ get_vcf no_nul (lit "card-gone01") test_db = Send 404 [] (Some (lit "Not found"))
  ∧ get_vcf no_nul [0%N] test_db = Rejected RefusedText.
Proof. vm_compute. repeat split; reflexivity. Qed.

(** *** Splitting the name *)

Lemma trimEnd_cons_fix (c : N) (s : jstring) :
  trimEnd (c :: s) = c :: s → trimEnd s = s ∧ (s = [] → is_ws c = false).
Proof.
  simpl. destruct (trimEnd s) as [|r0 r] eqn:Hr.
  - destruct (is_ws c); [discriminate|]. intros [= <-]. by split.
  - intros [= <-]. split; [done|discriminate].
Qed.

Lemma trimEnd_idemp (s : jstring) : trimEnd (trimEnd s) = trimEnd s.
Proof.
  induction s as [|c s IH]; [done|]. simpl.
  destruct (trimEnd s) as [|r0 r] eqn:Hr.
  - destruct (is_ws c) eqn:Hc; [done|]. simpl. by rewrite Hc.
  - change (trimEnd (c :: r0 :: r)) with
      (match trimEnd (r0 :: r) with
       | [] => if is_ws c then [] else [c]
       | x => c :: x
       end).
    by rewrite IH.
Qed.

Lemma trimStart_head (s : jstring) (c : N) (r : jstring) :
  trimStart s = c :: r → is_ws c = false.
Proof.
  induction s as [|a s IH]; [discriminate|]. simpl.
  destruct (is_ws a) eqn:Ha; [done|]. by intros [= <- _].
Qed.

Lemma trimEnd_head (c : N) (s : jstring) :
  is_ws c = false → ∃ r, trimEnd (c :: s) = c :: r.
Proof.
  intros Hc. simpl. destruct (trimEnd s); rewrite ?Hc; by eexists.
Qed.

Lemma trim_head (s : jstring) (c : N) (r : jstring) :
  trim s = c :: r → is_ws c = false.
Proof.
  unfold trim. destruct (trimStart s) as [|a t] eqn:Ht; [discriminate|].
  pose proof (trimStart_head _ _ _ Ht) as Ha.
  destruct (trimEnd_head a t Ha) as [r' ->]. by intros [= <- _].
Qed.

Lemma words_go_trimEnd (s cur : jstring) :
  words_go cur (trimEnd s) = words_go cur s.
Proof.
  revert cur. induction s as [|c s IH]; intros cur; [done|].
  simpl. destruct (trimEnd s) as [|r0 r] eqn:Hr.
  - destruct (is_ws c) eqn:Hc; simpl.
    + destruct cur; by rewrite <- IH.
    + by rewrite Hc, <- IH.
  - simpl. destruct (is_ws c); [destruct cur|]; by rewrite <- IH.
Qed.

Lemma words_trimStart (s : jstring) : words (trimStart s) = words s.
Proof.
  unfold words. induction s as [|c s IH]; [done|]. simpl.
  destruct (is_ws c) eqn:Hc; [done|]. simpl. by rewrite Hc.
Qed.

Lemma words_trim (s : jstring) : words (trim s) = words s.
Proof.
  unfold trim, words. rewrite words_go_trimEnd. apply words_trimStart.
Qed.

Lemma split_go_not_nil (in_gap : bool) (cur s : jstring) :
  split_go in_gap cur s ≠ [].
Proof.
  revert in_gap cur. induction s as [|c s IH]; intros in_gap cur; simpl; [done|].
  destruct (is_ws c); [destruct in_gap|]; done.
Qed.

(** On a string without trailing white space, scanned from a state in
    which an empty piece is never closed, [split] finds the words. *)
Lemma split_go_words (s : jstring) (in_gap : bool) (cur : jstring) :
  trimEnd s = s →
  (in_gap = true → cur = []) →
  (cur = [] → ∃ c s', s = c :: s' ∧ (in_gap = false → is_ws c = false)) →
  split_go in_gap cur s = words_go cur s.
Proof.
  revert in_gap cur. induction s as [|c s IH]; intros in_gap cur Hend Hgap Hcur.
  - simpl. destruct cur; [|done]. by destruct Hcur as (? & ? & ? & _).
  - apply trimEnd_cons_fix in Hend as [Hend Hlast]. simpl.
    destruct (is_ws c) eqn:Hc.
    + assert (Hs : ∃ c' s', s = c' :: s' ∧ (true = false → is_ws c' = false)).
      { destruct s as [|c' s']; [by specialize (Hlast eq_refl)|].
        eexists _, _. split; [done|discriminate]. }
      destruct in_gap.
      * rewrite (Hgap eq_refl). apply IH; [done|done|]. intros _. exact Hs.
      * destruct cur as [|a cur].
        -- destruct (Hcur eq_refl) as (c' & s' & [= <- <-] & Hns).
           specialize (Hns eq_refl). congruence.
        -- f_equal. apply IH; [done|done|]. intros _. exact Hs.
    + apply IH; [done|discriminate|]. intros Hnil. by destruct cur.
Qed.

Lemma split_ws_trim (s : jstring) :
  split_ws (trim s) = match words s with [] => [[]] | ws => ws end.
Proof.
  rewrite <- (words_trim s). unfold split_ws, words.
  destruct (trim s) as [|c r] eqn:Ht; [done|].
  rewrite <- (split_go_words (c :: r) false []).
  - pose proof (split_go_not_nil false [] (c :: r)).
    by destruct (split_go false [] (c :: r)).
  - rewrite <- Ht. apply trimEnd_idemp.
  - discriminate.
  - intros _. exists c, r. split; [done|]. intros _. by eapply trim_head.
Qed.

(** [first] is the first word, [last] the last word when there are two
    or more. *)
Lemma name_parts_words (s : jstring) :
  name_parts (Some s)
  = (default [] (head (words s)),
     if (2 <=? length (words s))%nat then default [] (last (words s)) else []).
Proof.
  unfold name_parts. rewrite or_empty_Some, split_ws_trim.
  destruct (words s) as [|w [|w' ws]]; simpl.
  - done.
  - by rewrite or_empty_Some.
  - by rewrite or_empty_Some.
Qed.

(** Words are non-empty and free of white space. *)
Lemma words_go_spec (s cur : jstring) :
  Forall (λ c, is_ws c = false) cur →
  Forall (λ w, w ≠ [] ∧ Forall (λ c, is_ws c = false) w) (words_go cur s).
Proof.
  revert cur. induction s as [|c s IH]; intros cur Hcur; simpl.
  - destruct cur; [constructor|]. constructor; [by split|constructor].
  - destruct (is_ws c) eqn:Hc.
    + destruct cur; [by apply IH|].
      constructor; [done|]. by apply IH.
    + apply IH. apply Forall_app. split; [done|]. by constructor.
Qed.

(** C9, as stated, fails: for the name "Ada King Lovelace" the name line
    is [N:Lovelace;Ada;;;]; the middle word is not in the first-name
    position, where the specification puts "Ada King". *)
Lemma middle_names_are_dropped :
  Card.name three_word_row = Some (lit "Ada King Lovelace")
  ∧ words (lit "Ada King Lovelace") = [lit "Ada"; lit "King"; lit "Lovelace"]
  ∧ name_line three_word_row = lit "N:Lovelace;Ada;;;"
  ∧ name_line_as_specified (lit "Ada King Lovelace") = lit "N:Lovelace;Ada King;;;"
  ∧ name_line three_word_row ≠ name_line_as_specified (lit "Ada King Lovelace")
  ∧ vcard_lines three_word_row
    = [lit "BEGIN:VCARD"; lit "VERSION:3.0"; lit "N:Lovelace;Ada;;;";
       lit "FN:Ada King Lovelace"; lit "END:VCARD"].
Proof. vm_compute. repeat split; (reflexivity || discriminate). Qed.

(** C9 (amended): for a card with a name, the name line is the third
    line of the file and reads [N:<last>;<first>;;;], where, of the
    white-space-separated words of the name, [<first>] is the first word
    alone and [<last>] is the last word when the name has two words or
    more. A one-word name leaves [<last>] empty, a name without any word
    leaves both empty, and the words between the first and the last
    appear in neither position. *)
Theorem name_line_first_and_last (c : Card.t) (s : jstring) :
  Card.name c = Some s →
  (∃ rest, vcard_lines c
           = lit "BEGIN:VCARD" :: lit "VERSION:3.0" :: name_line c :: rest)
  ∧ name_line c
    = lit "N:"
      ++ (if (2 <=? length (words s))%nat then default [] (last (words s)) else [])
      ++ lit ";" ++ default [] (head (words s)) ++ lit ";;;"
  ∧ Forall (λ w, w ≠ [] ∧ Forall (λ c, is_ws c = false) w) (words s).
Proof.
  intros Hs. split; [|split].
  - destruct (vcard_lines_head c) as [rest ->]. by eexists.
  - unfold name_line. by rewrite Hs, name_parts_words.
  - by apply words_go_spec.
Qed.

Lemma name_line_first_and_last_witness :
  (∃ rest, vcard_lines ada_row
           = lit "BEGIN:VCARD" :: lit "VERSION:3.0" :: name_line ada_row :: rest)
  ∧ name_line ada_row
    = lit "N:"
      ++ (if (2 <=? length (words (lit "Ada Lovelace")))%nat
          then default [] (last (words (lit "Ada Lovelace"))) else [])
      ++ lit ";" ++ default [] (head (words (lit "Ada Lovelace"))) ++ lit ";;;"
  ∧ Forall (λ w, w ≠ [] ∧ Forall (λ c, is_ws c = false) w)
      (words (lit "Ada Lovelace")).
Proof.
  apply (name_line_first_and_last ada_row (lit "Ada Lovelace")).
  reflexivity.
Defined.

(** The names of the specification's examples. *)
Example name_line_examples :
  name_line ada_row = lit "N:Lovelace;Ada;;;"
  ∧ name_parts (Some (lit "Cher")) = (lit "Cher", [])
  ∧ name_parts (Some (lit "  Ada   Lovelace ")) = (lit "Ada", lit "Lovelace")
  ∧ name_parts (Some (lit "   ")) = ([], [])
  ∧ name_parts None = ([], []).
Proof. vm_compute. repeat split; reflexivity. Qed.

(* ------------------------------------------------------------------ *)
(** ** Escaping: the server's renderer against the export script's *)

(** C8: the code does not do what the claim says. For a card whose
    company holds a comma and a semicolon, whose address holds a line
    feed and whose title line has 78 units, [vcardFrom] emits the values
    as they are (the line feed splits the address line in two) and leaves
    the long line unwrapped; [buildVCard] of the export script, on the same
    card, escapes the three characters and wraps the long line. *)
Theorem vcardFrom_neither_escapes_nor_folds :
  vcard_lines punctuated_row
  = [ lit "BEGIN:VCARD";
      lit "VERSION:3.0";
      lit "N:Doe;Jo;;;";
      lit "FN:Jo Doe";
      lit "ORG:Doe, Smith; Partners";
      lit "TITLE:Senior Vice President of Strategic Partnerships and Business Development";
      lit "ADR;TYPE=WORK:;;12 Long Street" ++ [10%N] ++ lit "Suite 4;;;;";
      lit "END:VCARD" ]
  ∧ map length (vcard_lines punctuated_row) = [11; 11; 11; 9; 24; 78; 42; 9]
  ∧ vcardFrom punctuated_row = join crlf (vcard_lines punctuated_row)
  ∧ buildVCard punctuated_row
    = join crlf
        [ lit "BEGIN:VCARD";
          lit "VERSION:3.0";
          lit "N:Doe;Jo;;;";
          lit "FN:Jo Doe";
          lit "ORG:Doe\, Smith\; Partners";
          lit "TITLE:Senior Vice President of Strategic Partnerships and Business Dev";
          lit " elopment";
          lit "ADR;TYPE=WORK:;;12 Long Street\nSuite 4;;;;";
          lit "END:VCARD" ].
Proof. vm_compute. repeat split; reflexivity. Qed.

(** In general: a populated company goes into the file as it is. *)
Lemma vcardFrom_company_verbatim (c : Card.t) (s : jstring) :
  Card.company c = Some s → s ≠ [] → In (lit "ORG:" ++ s) (vcard_lines c).
Proof.
  intros Hs Hne. unfold vcard_lines, filter_Boolean.
  apply filter_In. split; [|done].
  unfold vcard_entries, line_if. rewrite Hs, truthy_Some_cons by done.
  simpl. rewrite app_nil_r. tauto.
Qed.

(** *** What [vEscape] does, unit by unit *)

Lemma vEscape_nil : vEscape [] = [].
Proof. reflexivity. Qed.

Lemma vEscape_plain (c : N) (s : jstring) :
  c ≠ 92%N → c ≠ 13%N → c ≠ 10%N → c ≠ 44%N → c ≠ 59%N →
  vEscape (c :: s) = c :: vEscape s.
Proof.
  intros H92 H13 H10 H44 H59. unfold vEscape, replace_unit. simpl.
  apply N.eqb_neq in H92, H13, H10, H44, H59.
  rewrite H92. simpl. rewrite H13, H10. simpl. rewrite H44. simpl.
  by rewrite H59.
Qed.

Lemma vEscape_backslash (s : jstring) :
  vEscape (92%N :: s) = 92%N :: 92%N :: vEscape s.
Proof. reflexivity. Qed.

Lemma vEscape_comma (s : jstring) :
  vEscape (44%N :: s) = 92%N :: 44%N :: vEscape s.
Proof. reflexivity. Qed.

Lemma vEscape_semicolon (s : jstring) :
  vEscape (59%N :: s) = 92%N :: 59%N :: vEscape s.
Proof. reflexivity. Qed.

Lemma vEscape_lf (s : jstring) :
  vEscape (10%N :: s) = 92%N :: 110%N :: vEscape s.
Proof. reflexivity. Qed.

Lemma vEscape_crlf (s : jstring) :
  vEscape (13%N :: 10%N :: s) = 92%N :: 110%N :: vEscape s.
Proof. reflexivity. Qed.

Lemma vEscape_cr_end : vEscape [13%N] = [92%N; 110%N].
Proof. reflexivity. Qed.

Lemma vEscape_cr (d : N) (s : jstring) :
  d ≠ 10%N → vEscape (13%N :: d :: s) = 92%N :: 110%N :: vEscape (d :: s).
Proof.
  intros H10. unfold vEscape, replace_unit. simpl.
  destruct (d =? 92)%N eqn:H92; simpl.
  - done.
  - apply N.eqb_neq in H10. by rewrite H10.
Qed.

(** Every value the script writes reads back as the original text with
    its line breaks turned into line feeds. *)
Lemma vUnescape_vEscape (s : jstring) : vUnescape (vEscape s) = line_feeds s.
Proof.
  remember (length s) as n eqn:Hn.
  assert (Hle : length s ≤ n) by lia. clear Hn.
  revert s Hle. induction n as [|n IH]; intros s Hle.
  { destruct s; [done|simpl in Hle; lia]. }
  destruct s as [|c s]; [done|]. simpl in Hle.
  destruct (N.eq_dec c 92%N) as [->|H92].
  { rewrite vEscape_backslash. simpl. by rewrite IH by lia. }
  destruct (N.eq_dec c 44%N) as [->|H44].
  { rewrite vEscape_comma. simpl. by rewrite IH by lia. }
  destruct (N.eq_dec c 59%N) as [->|H59].
  { rewrite vEscape_semicolon. simpl. by rewrite IH by lia. }
  destruct (N.eq_dec c 10%N) as [->|H10].
  { rewrite vEscape_lf. simpl. by rewrite IH by lia. }
  destruct (N.eq_dec c 13%N) as [->|H13].
  { destruct s as [|d s]; [done|]. simpl in Hle.
    destruct (N.eq_dec d 10%N) as [->|Hd].
    - rewrite vEscape_crlf. simpl. by rewrite IH by lia.
    - rewrite vEscape_cr by done.
      change (vUnescape (92%N :: 110%N :: vEscape (d :: s)))
        with (10%N :: vUnescape (vEscape (d :: s))).
      rewrite IH by (simpl; lia).
      simpl. apply N.eqb_neq in Hd. by rewrite Hd. }
  rewrite vEscape_plain by done. simpl.
  apply N.eqb_neq in H92, H13. rewrite H92, H13. by rewrite IH by lia.
Qed.

Lemma line_feeds_without_cr (s : jstring) :
  Forall (λ c, c ≠ 13%N) s → line_feeds s = s.
Proof.
  induction 1 as [|c s Hc _ IH]; [done|]. simpl.
  apply N.eqb_neq in Hc. by rewrite Hc, IH.
Qed.

(** For a text without carriage return the round trip is exact. *)
Lemma vEscape_round_trip (s : jstring) :
  Forall (λ c, c ≠ 13%N) s → vUnescape (vEscape s) = s.
Proof. intros Hs. rewrite vUnescape_vEscape. by apply line_feeds_without_cr. Qed.

(** A carriage return does not come back. *)
Example vEscape_carriage_return :
  vUnescape (vEscape (lit "a" ++ [13%N; 10%N] ++ lit "b")) = lit "a" ++ [10%N] ++ lit "b".
Proof. reflexivity. Qed.

(** *** The folding loop *)

(** Once the fuel covers the length, more fuel changes nothing. *)
Lemma fold_loop_fuels (fuel1 fuel2 : nat) (rest : jstring) :
  length rest ≤ fuel1 → length rest ≤ fuel2 →
  fold_loop fuel1 rest = fold_loop fuel2 rest.
Proof.
  revert fuel2 rest. induction fuel1 as [|fuel1 IH]; intros fuel2 rest H1 H2.
  - destruct rest; [by destruct fuel2|simpl in H1; lia].
  - destruct fuel2 as [|fuel2].
    + destruct rest; [reflexivity|simpl in H2; lia].
    + cbn [fold_loop].
      destruct (70 <? length rest) eqn:Hlong; [|done].
      apply Nat.ltb_lt in Hlong.
      do 3 f_equal. apply IH; rewrite length_drop; lia.
Qed.

(** [length rest] rounds are enough. *)
Lemma fold_loop_fuel (fuel : nat) (rest : jstring) :
  length rest ≤ fuel → fold_loop fuel rest = fold_loop (length rest) rest.
Proof. intros Hle. by apply fold_loop_fuels. Qed.

(** A long line is its first 70 units, the continuation mark, and the
    rest folded in the same way. *)
Lemma fold_line_long (line : jstring) :
  70 < length line →
  fold_line line = take 70 line ++ crlf ++ lit " " ++ fold_line (drop 70 line).
Proof.
  intros Hlong. unfold fold_line at 1.
  rewrite (proj2 (Nat.leb_gt _ _)) by done.
  destruct (length line) as [|n] eqn:Hlen; [lia|].
  cbn [fold_loop]. rewrite Hlen.
  rewrite (proj2 (Nat.ltb_lt _ _)) by done.
  do 3 f_equal.
  assert (Hd : length (drop 70 line) ≤ n) by (rewrite length_drop; lia).
  rewrite fold_loop_fuel by done. unfold fold_line.
  destruct (length (drop 70 line) <=? 70) eqn:Hshort; [|done].
  apply Nat.leb_le in Hshort.
  destruct (length (drop 70 line)) as [|m] eqn:Hm.
  - by destruct (drop 70 line).
  - cbn [fold_loop]. rewrite Hm.
    by rewrite (proj2 (Nat.ltb_ge _ _)) by done.
Qed.

Lemma fold_line_short (line : jstring) :
  length line ≤ 70 → fold_line line = line.
Proof. intros Hle. unfold fold_line. by rewrite (proj2 (Nat.leb_le _ _)). Qed.

(* ------------------------------------------------------------------ *)
(** ** The routes together *)

Lemma startsWith_inv (p raw : jstring) :
  startsWith p raw = true → ∃ rest, raw = p ++ rest.
Proof.
  revert raw. induction p as [|a p IH]; intros raw H; simpl in H.
  - by exists raw.
  - destruct raw as [|r raw]; [discriminate|].
    apply andb_true_iff in H as [Ha Hp]. apply N.eqb_eq in Ha as ->.
    destruct (IH raw Hp) as [rest ->]. by exists rest.
Qed.

Lemma claim_ok_eq
    (jwt_sign : Payload.t → option jstring → Z → jstring) (t : Z) (u : jstring) :
  claim_ok jwt_sign t u
  = Json 200 (JObj [ (lit "uid", JStr u);
                     (lit "authToken", JStr (jwt_sign (owner_payload u) (Some (lit "90d")) t)) ]).
Proof. reflexivity. Qed.

Lemma accepts_body_uid (accepts : jstring → bool) (b : ClaimBody.t) (u : jstring) :
  ClaimBody.uid b = Some u → accepts_body accepts b = true → accepts u = true.
Proof.
  intros Hu. unfold accepts_body. rewrite Hu. simpl.
  intros H. by apply andb_true_iff in H as [H%andb_true_iff _]; destruct H.
Qed.

Lemma accepts_edit_uid (accepts : jstring → bool) (u : jstring)
    (profile : option Profile.t) :
  accepts_edit accepts u profile = true → accepts u = true.
Proof. unfold accepts_edit. intros H. by apply andb_true_iff in H as [? _]. Qed.

(** *** What the creation of rows can do to a table *)

Lemma create_keeps (accepts : jstring → bool) (id : jstring) (now : Z)
    (db db' : store) (u : jstring) (c : Card.t) :
  create accepts id now db = inr db' → db !! u = Some c → db' !! u = Some c.
Proof.
  unfold create. destruct (accepts id); [|discriminate].
  destruct (db !! id) as [c0|] eqn:Hid; [discriminate|].
  intros [= <-] Hc. rewrite lookup_insert_ne; [done|]. congruence.
Qed.

Lemma create_keyed (accepts : jstring → bool) (id : jstring) (now : Z)
    (db db' : store) :
  create accepts id now db = inr db' → keyed_by_uid db → keyed_by_uid db'.
Proof.
  unfold create. destruct (accepts id); [|discriminate].
  destruct (db !! id) as [c0|] eqn:Hid; [discriminate|].
  intros [= <-] Hk u c. destruct (decide (id = u)) as [->|Hne].
  - rewrite lookup_insert_eq. by intros [= <-].
  - rewrite lookup_insert_ne by done. apply Hk.
Qed.

Lemma create_loop_S
    (accepts : jstring → bool) (nanoid : nat → jstring) (clock : nat → Z)
    (fuel i : nat) (count : jsnumber) (db : store) (rows : list jstring) :
  create_loop accepts nanoid clock (S fuel) i count db rows
  = if js_lt (Finite (inject_Z (Z.of_nat i))) count then
      match create accepts (nanoid i) (clock i) db with
      | inr db' =>
          create_loop accepts nanoid clock fuel (S i) count db' (rows ++ [nanoid i])
      | inl e => (db, inl e)
      end
    else (db, inr rows).
Proof. reflexivity. Qed.

Lemma create_loop_keeps
    (accepts : jstring → bool) (nanoid : nat → jstring) (clock : nat → Z)
    (fuel i : nat) (count : jsnumber) (db : store) (rows : list jstring)
    (u : jstring) (c : Card.t) :
  db !! u = Some c →
  (create_loop accepts nanoid clock fuel i count db rows).1 !! u = Some c.
Proof.
  revert i db rows. induction fuel as [|fuel IH]; intros i db rows Hc; [done|].
  rewrite create_loop_S. destruct (js_lt _ _); [|done].
  destruct (create accepts (nanoid i) (clock i) db) as [e|db'] eqn:Hcr; [done|].
  apply IH. by eapply create_keeps.
Qed.

Lemma create_loop_keyed
    (accepts : jstring → bool) (nanoid : nat → jstring) (clock : nat → Z)
    (fuel i : nat) (count : jsnumber) (db : store) (rows : list jstring) :
  keyed_by_uid db →
  keyed_by_uid (create_loop accepts nanoid clock fuel i count db rows).1.
Proof.
  revert i db rows. induction fuel as [|fuel IH]; intros i db rows Hk; [done|].
  rewrite create_loop_S. destruct (js_lt _ _); [|done].
  destruct (create accepts (nanoid i) (clock i) db) as [e|db'] eqn:Hcr; [done|].
  apply IH. by eapply create_keyed.
Qed.

Lemma admin_create_uids_table
    (accepts : jstring → bool) (ADMIN_KEY : jstring) (key : option jstring)
    (count : jsnumber) (nanoid : nat → jstring) (clock : nat → Z) (db : store) :
  (admin_create_uids accepts ADMIN_KEY key count nanoid clock db).1 = db
  ∨ (admin_create_uids accepts ADMIN_KEY key count nanoid clock db).1
    = (create_loop accepts nanoid clock 201 0 (clamp_count count) db []).1.
Proof.
  unfold admin_create_uids. destruct (requireAdmin _ _); cbn [negb]; [|by left].
  right. by destruct (create_loop _ _ _ _ _ _ _ _) as [db' [e|rows]].
Qed.

Section AppFacts.
Variable accepts : jstring → bool.
Variable ADMIN_KEY : jstring.
Variable jwt_sign : Payload.t → option jstring → Z → jstring.
Variable jwt_verify : jstring → Z → option Payload.t.

#[local] Abbreviation handle' := (handle accepts ADMIN_KEY jwt_sign jwt_verify).
#[local] Abbreviation serve' := (serve accepts ADMIN_KEY jwt_sign jwt_verify).
#[local] Abbreviation claim' := (claim accepts jwt_sign jwt_verify).

(** *** What one request can do to a row *)

Lemma handle_frame (now : Z) (req : request) (s : server) (u : jstring) (c : Card.t) :
  cards s !! u = Some c →
  ∃ c', cards (handle' now req s).1 !! u = Some c'
        ∧ Card.uid c' = Card.uid c
        ∧ Card.createdAt c' = Card.createdAt c
        ∧ (is_Some (Card.claimedAt c) →
           Card.claimedAt c' = Card.claimedAt c
           ∧ Card.claimedByEmail c' = Card.claimedByEmail c).
Proof.
  intros Hc.
  destruct req as [uid|body|uid|req|key id|key count ids clock|key uid profile|body ip];
    simpl.
  - by exists c.
  - destruct (claim_store_cases accepts jwt_sign jwt_verify now body (cards s))
      as [Hsame|(u' & d & _ & _ & Hup)];
      destruct (claim' now body (cards s)) as [db' r]; simpl in *.
    + subst db'. by exists c.
    + apply update_unclaimed_rows_count_1 in Hup as (c0 & Hc0 & Hfree & -> & _).
      destruct (decide (u' = u)) as [->|Hne].
      * rewrite lookup_insert_eq. eexists. split; [done|].
        assert (c0 = c) as -> by congruence.
        split; [done|]. split; [done|]. intros [a Ha]. congruence.
      * rewrite lookup_insert_ne by done. by exists c.
  - by exists c.
  - destruct (put_card_frame accepts jwt_verify now req (cards s) u c Hc)
      as (c' & Hc' & ? & ? & ? & ?).
    destruct (put_card accepts jwt_verify now req (cards s)) as [db' r]. simpl in *.
    exists c'. by repeat split.
  - unfold admin_create_uid. destruct (requireAdmin _ _); simpl; [|by exists c].
    destruct (create accepts id now (cards s)) as [e|db'] eqn:Hcr; simpl; [by exists c|].
    exists c. split; [by eapply create_keeps|done].
  - exists c. split; [|done].
    destruct (admin_create_uids_table accepts ADMIN_KEY key count ids clock (cards s))
      as [Hsame|Hloop];
      destruct (admin_create_uids _ _ _ _ _ _ _) as [db' o]; simpl in *; subst db'.
    + done.
    + by apply create_loop_keeps.
  - unfold admin_put_card. destruct (requireAdmin _ _); simpl; [|by exists c].
    unfold update. destruct (cards s !! uid) as [c0|] eqn:Hc0; simpl; [|by exists c].
    destruct (_ && _); simpl; [|by exists c].
    destruct (decide (uid = u)) as [->|Hne].
    + rewrite lookup_insert_eq. eexists. split; [done|].
      assert (c0 = c) as -> by congruence. by repeat split.
    + rewrite lookup_insert_ne by done. by exists c.
  - destruct (post_event _ _ _ _ _). by exists c.
Qed.

Lemma handle_keyed (now : Z) (req : request) (s : server) :
  keyed_by_uid (cards s) → keyed_by_uid (cards (handle' now req s).1).
Proof.
  intros Hk.
  destruct req as [uid|body|uid|req|key id|key count ids clock|key uid profile|body ip];
    simpl; try apply Hk.
  - intros u c'.
    destruct (claim_store_cases accepts jwt_sign jwt_verify now body (cards s))
      as [Hsame|(u' & d & _ & _ & Hup)];
      destruct (claim' now body (cards s)) as [db' r]; simpl in *.
    + subst db'. apply Hk.
    + apply update_unclaimed_rows_count_1 in Hup as (c0 & Hc0 & Hfree & -> & _).
      destruct (decide (u' = u)) as [->|Hne].
      * rewrite lookup_insert_eq. intros [= <-]. simpl. by apply Hk.
      * rewrite lookup_insert_ne by done. apply Hk.
  - intros u c'.
    destruct (put_card_store_cases accepts jwt_verify now req (cards s))
      as [Hsame|(c0 & Hc0 & Hup)];
      destruct (put_card accepts jwt_verify now req (cards s)) as [db' r]; simpl in *.
    + subst db'. apply Hk.
    + subst db'. destruct (decide (EditRequest.uid req = u)) as [<-|Hne].
      * rewrite lookup_insert_eq. intros [= <-]. simpl. by apply Hk.
      * rewrite lookup_insert_ne by done. apply Hk.
  - unfold admin_create_uid. destruct (requireAdmin _ _); simpl; [|apply Hk].
    destruct (create accepts id now (cards s)) as [e|db'] eqn:Hcr; simpl; [apply Hk|].
    by eapply create_keyed.
  - destruct (admin_create_uids_table accepts ADMIN_KEY key count ids clock (cards s))
      as [Hsame|Hloop];
      destruct (admin_create_uids _ _ _ _ _ _ _) as [db' o]; simpl in *; subst db'.
    + done.
    + by apply create_loop_keyed.
  - intros u c'.
    unfold admin_put_card. destruct (requireAdmin _ _); simpl; [|apply Hk].
    unfold update. destruct (cards s !! uid) as [c0|] eqn:Hc0; simpl; [|apply Hk].
    destruct (_ && _); simpl; [|apply Hk].
    destruct (decide (uid = u)) as [->|Hne].
    + rewrite lookup_insert_eq. intros [= <-]. simpl. by apply Hk.
    + rewrite lookup_insert_ne by done. apply Hk.
  - by destruct (post_event _ _ _ _ _).
Qed.

Lemma serve_cons (now : Z) (req : request) (reqs : list (Z * request)) (s : server) :
  serve' ((now, req) :: reqs) s
  = ((serve' reqs (handle' now req s).1).1,
     (handle' now req s).2 :: (serve' reqs (handle' now req s).1).2).
Proof.
  simpl. destruct (handle' now req s) as [s1 o]. simpl.
  by destruct (serve' reqs s1).
Qed.

Lemma serve_app (l1 l2 : list (Z * request)) (s : server) :
  serve' (l1 ++ l2) s
  = ((serve' l2 (serve' l1 s).1).1, (serve' l1 s).2 ++ (serve' l2 (serve' l1 s).1).2).
Proof.
  revert s. induction l1 as [|[now req] l1 IH]; intros s.
  - simpl. by destruct (serve' l2 s).
  - rewrite <- app_comm_cons, !serve_cons, IH. done.
Qed.

End AppFacts.

Lemma profile_view_submitted (profile : option Profile.t) (old new : Card.t) :
  stores_submitted profile old new → profile_view new = submitted_view profile.
Proof.
  intros (Hn & Hco & Hti & Hph & Hmo & Hem & Hwe & Had & Him & Hso & _).
  unfold profile_view, submitted_view.
  by rewrite Hn, Hco, Hti, Hph, Hmo, Hem, Hwe, Had, Him, Hso.
Qed.

Lemma put_card_foreign
    (accepts : jstring → bool)
    (jwt_verify : jstring → Z → option Payload.t)
    (now : Z) (req : EditRequest.t) (db : store)
    (tok : jstring) (user : Payload.t) :
  EditRequest.authorization req = Some (lit "Bearer " ++ tok) →
  tok ≠ [] → jwt_verify tok now = Some user →
  Payload.uid user ≠ Some (EditRequest.uid req) →
  put_card accepts jwt_verify now req db = (db, forbidden).
Proof.
  intros Ha Hne Hv Hu. unfold put_card.
  rewrite Ha, (requireAuth_bearer jwt_verify _ _ _ Hne Hv).
  by rewrite (bool_decide_eq_true_2 _ Hu).
Qed.

(** The lookups of the sample table, written out: an unclaimed card, a
    claimed one, one that is not there, an identifier the database does
    not take. *)
Example lookups_written_out :
  get_card no_nul TestCodec.sign 5000 (lit "card-new01") test_db
  = Json 200 (JObj [ (lit "uid", JStr (lit "card-new01"));
                     (lit "claimed", JBool false);
                     (lit "claimToken", JStr (lit "claim:card-new01")) ])
  ∧ get_card no_nul TestCodec.sign 5000 (lit "card-ada01") test_db
    = Json 200
        (JObj [ (lit "uid", JStr (lit "card-ada01"));
                (lit "claimed", JBool true);
                (lit "profile",
                 JObj [ (lit "name", JStr (lit "Ada Lovelace"));
                        (lit "company", JStr (lit "Analytical Engines"));
                        (lit "title", JNull);
                        (lit "phone", JNull);
                        (lit "mobile", JStr (lit "+1-555-0100"));
                        (lit "email", JStr (lit "ada@example.com"));
                        (lit "website", JNull);
                        (lit "address", JNull);
                        (lit "socials", JObj []);
                        (lit "imageUrl", JNull) ]) ])
  ∧ get_card no_nul TestCodec.sign 5000 (lit "card-gone01") test_db
    = Json 404 (JObj [(lit "error", JStr (lit "not_found"))])
  ∧ get_card no_nul TestCodec.sign 5000 [0%N] test_db = Rejected RefusedText.
Proof. vm_compute. repeat split; reflexivity. Qed.

(** X1: the claim token that the lookup of an unclaimed card hands out
    is accepted by the claim route for that card. With a codec that
    reads back what it signed, and an identifier the database takes,
    the lookup answers 200 with [claimed: false] and a token, and the
    claim carrying that token writes the claimed row and answers with
    success when the database accepts the texts submitted; when it
    refuses one, the claim ends without a response and the table is as
    it was. *)
Theorem lookup_token_is_accepted
    (accepts : jstring → bool)
    (jwt_sign : Payload.t → option jstring → Z → jstring)
    (jwt_verify : jstring → Z → option Payload.t)
    (t t' : Z) (db : store) (u : jstring) (c : Card.t)
    (profile : option Profile.t) (emailForLogin : option jstring) :
  db !! u = Some c → Card.claimedAt c = None → u ≠ [] → accepts u = true →
  reads_back jwt_sign jwt_verify (claim_payload u) None t t' →
  ∃ tok,
    get_card accepts jwt_sign t u db
    = Json 200 (JObj [ (lit "uid", JStr u);
                       (lit "claimed", JBool false);
                       (lit "claimToken", JStr tok) ])
    ∧ claim accepts jwt_sign jwt_verify t'
        (Some (ClaimBody.mk (Some u) (Some tok) profile emailForLogin)) db
      = if accepts_body accepts (ClaimBody.mk (Some u) (Some tok) profile emailForLogin)
        then (<[u := claimed_row
                       (claim_data_of t'
                          (ClaimBody.mk (Some u) (Some tok) profile emailForLogin))
                       t' c]> db,
              Json 200
                (JObj [ (lit "uid", JStr u);
                        (lit "authToken",
                         JStr (jwt_sign (Payload.mk (Some u) None)
                                 (Some (lit "90d")) t')) ]))
        else (db, Rejected RefusedText).
Proof.
  intros Hc Hfree Hu Hacc [Hne Hv].
  exists (jwt_sign (claim_payload u) None t). split.
  - unfold get_card, findUnique. by rewrite Hacc, Hc, Hfree.
  - assert (Hvalid : valid_claim_token jwt_verify t'
                       (jwt_sign (claim_payload u) None t) u).
    { split; [done|]. by exists (claim_payload u). }
    destruct (accepts_body accepts _) eqn:Hbody.
    + by apply (claim_valid_fresh accepts jwt_sign jwt_verify t' _ db u
                  (jwt_sign (claim_payload u) None t) c).
    + by apply (claim_valid_refused accepts jwt_sign jwt_verify t' _ db u
                  (jwt_sign (claim_payload u) None t)).
Qed.

Lemma lookup_token_is_accepted_witness :
  ∃ tok,
    get_card no_nul TestCodec.sign 5000 (lit "card-new01") test_db
    = Json 200 (JObj [ (lit "uid", JStr (lit "card-new01"));
                       (lit "claimed", JBool false);
                       (lit "claimToken", JStr tok) ])
    ∧ claim no_nul TestCodec.sign TestCodec.verify 5001
        (Some (ClaimBody.mk (Some (lit "card-new01")) (Some tok) (Some nul_profile) None))
        test_db
      = (test_db, Rejected RefusedText).
Proof.
  apply (lookup_token_is_accepted no_nul TestCodec.sign TestCodec.verify 5000 5001
           test_db (lit "card-new01") prefilled_row (Some nul_profile) None).
  - reflexivity.
  - reflexivity.
  - discriminate.
  - reflexivity.
  - split; [discriminate|reflexivity].
Defined.

(** The same lookup and claim with a profile the database takes. *)
Example lookup_then_claim :
  claim no_nul TestCodec.sign TestCodec.verify 5001
    (Some (ClaimBody.mk (Some (lit "card-new01")) (Some (lit "claim:card-new01"))
             (Some grace_profile) None))
    test_db
  = (<[lit "card-new01" :=
         {| Card.uid := lit "card-new01";
            Card.email := None;
            Card.name := Some (lit "Grace Hopper");
            Card.company := None;
            Card.title := Some (lit "Rear Admiral");
            Card.phone := None;
            Card.mobile := None;
            Card.emailPublic := Some (lit "desk@example.com");
            Card.website := None;
            Card.address := None;
            Card.socials := Some (JObj []);
            Card.imageUrl := None;
            Card.createdAt := 1000;
            Card.updatedAt := 5001;
            Card.claimedAt := Some 5001%Z;
            Card.claimedByEmail := None |}]> test_db,
     Json 200 (JObj [ (lit "uid", JStr (lit "card-new01"));
                      (lit "authToken", JStr (lit "owner:card-new01")) ])).
Proof. reflexivity. Qed.



(** X3: an edit that was answered [{ok: true}] does not claim the card.
    If the row was claimed, the next lookup shows the profile as the edit
    submitted it; if the row was unclaimed it stays unclaimed and the
    lookup still hands out a claim token. *)
Theorem lookup_after_edit
    (accepts : jstring → bool)
    (jwt_sign : Payload.t → option jstring → Z → jstring)
    (jwt_verify : jstring → Z → option Payload.t)
    (now t' : Z) (req : EditRequest.t) (db db' : store) :
  put_card accepts jwt_verify now req db = (db', ok_true) →
  ∃ c, db !! EditRequest.uid req = Some c
       ∧ get_card accepts jwt_sign t' (EditRequest.uid req) db'
         = match Card.claimedAt c with
           | Some _ => claimed_view (EditRequest.uid req)
                         (submitted_view (EditRequest.profile req))
           | None => unclaimed_view (EditRequest.uid req)
                       (jwt_sign (claim_payload (EditRequest.uid req)) None t')
           end.
Proof.
  intros Hput. apply put_card_ok_inv in Hput as (c & Hc & Hacc & ->).
  exists c. split; [done|].
  unfold get_card, findUnique.
  rewrite (accepts_edit_uid accepts _ _ Hacc), lookup_insert_eq. simpl.
  destruct (Card.claimedAt c); [|done].
  f_equal. apply (profile_view_submitted _ c), stores_submitted_write.
Qed.

Lemma lookup_after_edit_witness :
  ∃ c, test_db !! EditRequest.uid edit_own_card = Some c
       ∧ get_card no_nul TestCodec.sign 6000 (EditRequest.uid edit_own_card)
           (put_card no_nul TestCodec.verify 5000 edit_own_card test_db).1
         = match Card.claimedAt c with
           | Some _ => claimed_view (EditRequest.uid edit_own_card)
                         (submitted_view (EditRequest.profile edit_own_card))
           | None => unclaimed_view (EditRequest.uid edit_own_card)
                       (TestCodec.sign (claim_payload (EditRequest.uid edit_own_card))
                          None 6000)
           end.
Proof.
  apply (lookup_after_edit no_nul TestCodec.sign TestCodec.verify 5000 6000
           edit_own_card test_db).
  reflexivity.
Defined.

(** X4: the ownership token in the response of a successful claim opens
    the edit route for the claimed card, and for no other: with a codec
    that reads the token back, an edit of that card with the token as
    bearer is answered [{ok: true}] when the database accepts the
    profile it carries (and ends without a response when not), and an
    edit of any other identifier with it is answered 403. *)
Theorem claim_token_then_edit
    (accepts : jstring → bool)
    (jwt_sign : Payload.t → option jstring → Z → jstring)
    (jwt_verify : jstring → Z → option Payload.t)
    (now t' : Z) (body : option ClaimBody.t) (db db' : store) (t : Z) (u : jstring)
    (profile : option Profile.t) :
  claim accepts jwt_sign jwt_verify now body db = (db', claim_ok jwt_sign t u) →
  reads_back jwt_sign jwt_verify (owner_payload u) (Some (lit "90d")) t t' →
  ∃ authToken,
    claim_ok jwt_sign t u
    = Json 200 (JObj [(lit "uid", JStr u); (lit "authToken", JStr authToken)])
    ∧ (put_card accepts jwt_verify t' (EditRequest.mk (bearer authToken) u profile) db').2
      = (if accepts_edit accepts u profile then ok_true else Rejected RefusedText)
    ∧ ∀ u', u' ≠ u →
            put_card accepts jwt_verify t'
              (EditRequest.mk (bearer authToken) u' profile) db'
            = (db', forbidden).
Proof.
  intros Hclaim [Hne Hv].
  apply claim_success_inv in Hclaim
    as (b & c & -> & Hu & Hune & Hacc & Hc & Hfree & ->).
  exists (jwt_sign (owner_payload u) (Some (lit "90d")) t).
  split; [apply claim_ok_eq|]. split.
  - destruct (accepts_edit accepts u profile) eqn:Hedit.
    + erewrite (put_card_valid accepts jwt_verify t' _ _
                  (jwt_sign (owner_payload u) (Some (lit "90d")) t) (owner_payload u));
        try done.
      apply lookup_insert_eq.
    + by erewrite (put_card_refused accepts jwt_verify t' _ _
                     (jwt_sign (owner_payload u) (Some (lit "90d")) t) (owner_payload u)).
  - intros u' Hu'.
    apply (put_card_foreign accepts jwt_verify t' _ _
             (jwt_sign (owner_payload u) (Some (lit "90d")) t) (owner_payload u));
      try done.
    simpl. congruence.
Qed.

Lemma claim_token_then_edit_witness :
  ∃ authToken,
    claim_ok TestCodec.sign 5000 (lit "card-new01")
    = Json 200 (JObj [(lit "uid", JStr (lit "card-new01"));
                      (lit "authToken", JStr authToken)])
    ∧ (put_card no_nul TestCodec.verify 6000
         (EditRequest.mk (bearer authToken) (lit "card-new01") None)
         (claim no_nul TestCodec.sign TestCodec.verify 5000
            (Some claim_as_grace) test_db).1).2
      = ok_true
    ∧ ∀ u', u' ≠ lit "card-new01" →
            put_card no_nul TestCodec.verify 6000
              (EditRequest.mk (bearer authToken) u' None)
              (claim no_nul TestCodec.sign TestCodec.verify 5000
                 (Some claim_as_grace) test_db).1
            = ((claim no_nul TestCodec.sign TestCodec.verify 5000
                  (Some claim_as_grace) test_db).1,
               forbidden).
Proof.
  apply (claim_token_then_edit no_nul TestCodec.sign TestCodec.verify 5000 6000
           (Some claim_as_grace) test_db _ 5000 (lit "card-new01") None).
  - reflexivity.
  - split; [discriminate|reflexivity].
Defined.

(** X5: the edit route does not look at the purpose of a token. A claim
    token for a card, as every lookup of the unclaimed card hands out,
    passes as bearer of an edit of that card: when the database accepts
    the texts of the call the profile is overwritten and the answer is
    [{ok: true}], the card as claimed or unclaimed as it was; when it
    refuses one the call ends without a response and the table is as it
    was. *)
Theorem claim_token_opens_edit
    (accepts : jstring → bool)
    (jwt_verify : jstring → Z → option Payload.t)
    (now : Z) (db : store) (u tok : jstring) (c : Card.t)
    (profile : option Profile.t) :
  valid_claim_token jwt_verify now tok u →
  db !! u = Some c →
  ∃ c', stores_submitted profile c c'
        ∧ Card.claimedAt c' = Card.claimedAt c
        ∧ put_card accepts jwt_verify now (EditRequest.mk (bearer tok) u profile) db
          = if accepts_edit accepts u profile
            then (<[u := c']> db, ok_true)
            else (db, Rejected RefusedText).
Proof.
  intros (Hne & p & Hv & _ & Hpu) Hc.
  eexists. split; [apply (stores_submitted_write profile now c)|]. split; [done|].
  destruct (accepts_edit accepts u profile) eqn:Hacc.
  - by erewrite (put_card_valid accepts jwt_verify now _ db tok p c).
  - by erewrite (put_card_refused accepts jwt_verify now _ db tok p).
Qed.

Lemma claim_token_opens_edit_witness :
  ∃ c', stores_submitted (Some grace_profile) prefilled_row c'
        ∧ Card.claimedAt c' = Card.claimedAt prefilled_row
        ∧ put_card no_nul TestCodec.verify 5000
            (EditRequest.mk (bearer (lit "claim:card-new01")) (lit "card-new01")
               (Some grace_profile)) test_db
          = (<[lit "card-new01" := c']> test_db, ok_true).
Proof.
  apply (claim_token_opens_edit no_nul TestCodec.verify 5000 test_db
           (lit "card-new01") (lit "claim:card-new01") prefilled_row (Some grace_profile)).
  - test_claim_token.
  - reflexivity.
Defined.

(** X6: an edit call is refused before the store is touched when it has
    no usable bearer token (no [Authorization] header, a header that
    does not start with "Bearer ", or nothing after it: 401 [no_token])
    and when the token fails verification (401 [bad_token]); and
    whatever the request, the table changes only if the answer is
    [{ok: true}]. *)
Theorem edit_refusals
    (accepts : jstring → bool)
    (jwt_verify : jstring → Z → option Payload.t)
    (now : Z) (req : EditRequest.t) (db : store) :
  ((∀ tok, tok ≠ [] → EditRequest.authorization req ≠ bearer tok) →
   put_card accepts jwt_verify now req db = (db, no_token))
  ∧ (∀ tok, EditRequest.authorization req = bearer tok → tok ≠ [] →
            jwt_verify tok now = None →
            put_card accepts jwt_verify now req db = (db, bad_token))
  ∧ ((put_card accepts jwt_verify now req db).2 ≠ ok_true →
     (put_card accepts jwt_verify now req db).1 = db).
Proof.
  split; [|split].
  - intros Hnone. unfold put_card, requireAuth.
    destruct (startsWith (lit "Bearer ") (or_empty (EditRequest.authorization req)))
      eqn:Hsw; [|done].
    apply startsWith_inv in Hsw as [rest Hraw]. rewrite Hraw.
    destruct (bearer_token rest) as [_ ->].
    destruct rest as [|r rest]; [done|].
    exfalso. apply (Hnone (r :: rest)); [done|].
    unfold or_empty in Hraw.
    destruct (truthy (EditRequest.authorization req)) eqn:Htr; [|discriminate].
    apply truthy_true_inv in Htr as (s & Hs & _). rewrite Hs in *.
    unfold bearer. f_equal. exact Hraw.
  - intros tok Ha Hne Hv. unfold put_card, bearer in *.
    rewrite Ha. unfold requireAuth.
    replace (or_empty (Some (lit "Bearer " ++ tok))) with (lit "Bearer " ++ tok)
      by reflexivity.
    destruct (bearer_token tok) as [-> ->].
    rewrite truthy_Some_cons by done. simpl. by rewrite Hv.
  - unfold put_card, update.
    destruct (requireAuth _ _ _); [done|]. case_bool_decide; [done|].
    destruct (_ && _); [|done].
    destruct (db !! EditRequest.uid req); [|done].
    simpl. intros Hnot. by destruct Hnot.
Qed.

Lemma edit_refusals_witness :
  put_card no_nul TestCodec.verify 5000
    (EditRequest.mk (Some (lit "Basic owner:card-ada01")) (lit "card-ada01") None) test_db
  = (test_db, no_token)
  ∧ put_card no_nul TestCodec.verify 5000
      (EditRequest.mk (bearer (lit "forged")) (lit "card-ada01") None) test_db
    = (test_db, bad_token)
  ∧ (put_card no_nul TestCodec.verify 5000 edit_foreign_card test_db).1 = test_db.
Proof.
  split; [|split].
  - apply (edit_refusals no_nul TestCodec.verify 5000
             (EditRequest.mk (Some (lit "Basic owner:card-ada01")) (lit "card-ada01") None)
             test_db).
    intros tok _. discriminate.
  - apply (edit_refusals no_nul TestCodec.verify 5000
             (EditRequest.mk (bearer (lit "forged")) (lit "card-ada01") None) test_db)
      with (tok := lit "forged").
    + reflexivity.
    + discriminate.
    + reflexivity.
  - apply (edit_refusals no_nul TestCodec.verify 5000 edit_foreign_card test_db).
    discriminate.
Defined.

(** X7: the last edit wins. When two edits of the same card are both
    answered [{ok: true}], the table after the second is the table the
    second edit alone would have produced: nothing of the first profile
    is left. *)
Theorem edit_last_write_wins
    (accepts : jstring → bool)
    (jwt_verify : jstring → Z → option Payload.t)
    (t1 t2 : Z) (req1 req2 : EditRequest.t) (db db1 db2 : store) :
  put_card accepts jwt_verify t1 req1 db = (db1, ok_true) →
  EditRequest.uid req1 = EditRequest.uid req2 →
  put_card accepts jwt_verify t2 req2 db1 = (db2, ok_true) →
  put_card accepts jwt_verify t2 req2 db = (db2, ok_true).
Proof.
  intros H1 Huid H2. apply put_card_ok_inv in H1 as (c & Hc & _ & ->).
  pose proof H2 as H2'. apply put_card_ok_inv in H2' as (c1 & Hc1 & _ & ->).
  rewrite <- Huid in *. rewrite lookup_insert_eq in Hc1. injection Hc1 as <-.
  revert H2. unfold put_card, requireAuth.
  destruct (negb _); [discriminate|].
  destruct (jwt_verify _ _); [|discriminate].
  case_bool_decide; [discriminate|]. unfold update. rewrite <- Huid.
  destruct (_ && _); [|discriminate].
  rewrite lookup_insert_eq, Hc. intros _. by rewrite insert_insert_eq.
Qed.

Lemma edit_last_write_wins_witness :
  put_card no_nul TestCodec.verify 6000 edit_own_card test_db
  = ((put_card no_nul TestCodec.verify 6000 edit_own_card
        (put_card no_nul TestCodec.verify 5000
           (EditRequest.mk (bearer (lit "owner:card-ada01")) (lit "card-ada01") None)
           test_db).1).1,
     ok_true).
Proof.
  apply (edit_last_write_wins no_nul TestCodec.verify 5000 6000
           (EditRequest.mk (bearer (lit "owner:card-ada01")) (lit "card-ada01") None)
           edit_own_card test_db
           (put_card no_nul TestCodec.verify 5000
              (EditRequest.mk (bearer (lit "owner:card-ada01")) (lit "card-ada01") None)
              test_db).1).
  - reflexivity.
  - reflexivity.
  - reflexivity.
Defined.

(** *** Sequences of requests *)

Lemma serve_frame
    (accepts : jstring → bool)
    (ADMIN_KEY : jstring)
    (jwt_sign : Payload.t → option jstring → Z → jstring)
    (jwt_verify : jstring → Z → option Payload.t)
    (reqs : list (Z * request)) (s : server) (u : jstring) (c : Card.t) :
  cards s !! u = Some c →
  ∃ c', cards (serve accepts ADMIN_KEY jwt_sign jwt_verify reqs s).1 !! u = Some c'
        ∧ Card.uid c' = Card.uid c
        ∧ Card.createdAt c' = Card.createdAt c
        ∧ (is_Some (Card.claimedAt c) →
           Card.claimedAt c' = Card.claimedAt c
           ∧ Card.claimedByEmail c' = Card.claimedByEmail c).
Proof.
  revert s c. induction reqs as [|[now req] reqs IH]; intros s c Hc.
  - by exists c.
  - rewrite serve_cons. simpl.
    destruct (handle_frame accepts ADMIN_KEY jwt_sign jwt_verify now req s u c Hc)
      as (c1 & Hc1 & Hu1 & Hcr1 & Hcl1).
    destruct (IH _ _ Hc1) as (c2 & Hc2 & Hu2 & Hcr2 & Hcl2).
    exists c2. split; [done|]. split; [congruence|]. split; [congruence|].
    intros Hsome. destruct (Hcl1 Hsome) as [Ha Hb].
    destruct Hcl2 as [Ha2 Hb2]; [by rewrite Ha|]. split; congruence.
Qed.

(** X8: whatever requests are served, in whatever order (lookups, claims,
    exports, owner edits, the creation of one identifier or of many,
    admin edits, events), a row is never removed, its [uid] and
    [createdAt] never change, and once it is claimed its [claimedAt] and
    [claimedByEmail] stay what they are. *)
Theorem claim_state_is_permanent
    (accepts : jstring → bool)
    (ADMIN_KEY : jstring)
    (jwt_sign : Payload.t → option jstring → Z → jstring)
    (jwt_verify : jstring → Z → option Payload.t)
    (reqs : list (Z * request)) (s : server) (u : jstring) (c : Card.t) :
  cards s !! u = Some c →
  ∃ c', cards (serve accepts ADMIN_KEY jwt_sign jwt_verify reqs s).1 !! u = Some c'
        ∧ Card.uid c' = Card.uid c
        ∧ Card.createdAt c' = Card.createdAt c
        ∧ (is_Some (Card.claimedAt c) →
           Card.claimedAt c' = Card.claimedAt c
           ∧ Card.claimedByEmail c' = Card.claimedByEmail c).
Proof. apply serve_frame. Qed.

Lemma claim_state_is_permanent_witness :
  ∃ c', cards (serve no_nul test_admin_key TestCodec.sign TestCodec.verify
                 test_traffic test_server).1 !! lit "card-ada01" = Some c'
        ∧ Card.uid c' = Card.uid ada_row
        ∧ Card.createdAt c' = Card.createdAt ada_row
        ∧ (is_Some (Card.claimedAt ada_row) →
           Card.claimedAt c' = Card.claimedAt ada_row
           ∧ Card.claimedByEmail c' = Card.claimedByEmail ada_row).
Proof.
  apply (claim_state_is_permanent no_nul test_admin_key TestCodec.sign TestCodec.verify
           test_traffic test_server (lit "card-ada01") ada_row).
  reflexivity.
Defined.

(** X9: every row stays under its own [uid]: if the table is keyed by
    [uid] before a sequence of requests, it is so after it, the rows
    that the two creation routes add included. *)
Theorem keyed_by_uid_is_kept
    (accepts : jstring → bool)
    (ADMIN_KEY : jstring)
    (jwt_sign : Payload.t → option jstring → Z → jstring)
    (jwt_verify : jstring → Z → option Payload.t)
    (reqs : list (Z * request)) (s : server) :
  keyed_by_uid (cards s) →
  keyed_by_uid (cards (serve accepts ADMIN_KEY jwt_sign jwt_verify reqs s).1).
Proof.
  revert s. induction reqs as [|[now req] reqs IH]; intros s Hk; [done|].
  rewrite serve_cons. simpl. apply IH. by apply handle_keyed.
Qed.

Lemma test_db_keyed : keyed_by_uid test_db.
Proof.
  intros u c. unfold test_db.
  destruct (decide (lit "card-ada01" = u)) as [<-|Hne1].
  { rewrite lookup_insert_eq. by intros [= <-]. }
  rewrite lookup_insert_ne by done.
  destruct (decide (lit "card-new01" = u)) as [<-|Hne2].
  { rewrite lookup_insert_eq. by intros [= <-]. }
  rewrite lookup_insert_ne by done. by rewrite lookup_empty.
Qed.

Lemma keyed_by_uid_is_kept_witness :
  keyed_by_uid (cards (serve no_nul test_admin_key TestCodec.sign TestCodec.verify
                         test_traffic test_server).1).
Proof.
  apply (keyed_by_uid_is_kept no_nul test_admin_key TestCodec.sign TestCodec.verify
           test_traffic test_server).
  exact test_db_keyed.
Defined.

(** X10: a card is claimed at most once, whatever happens in between.
    If a claim call naming [u] was answered with success, then no later
    claim call naming [u] is, with any token, after any requests served
    before, between and after. *)
Theorem second_claim_never_succeeds
    (accepts : jstring → bool)
    (ADMIN_KEY : jstring)
    (jwt_sign : Payload.t → option jstring → Z → jstring)
    (jwt_verify : jstring → Z → option Payload.t)
    (pre mid : list (Z * request)) (ti tj : Z) (bi bj : ClaimBody.t)
    (u : jstring) (s : server) :
  ClaimBody.uid bi = Some u → ClaimBody.uid bj = Some u →
  let first :=
    handle accepts ADMIN_KEY jwt_sign jwt_verify ti (PostClaim (Some bi))
      (serve accepts ADMIN_KEY jwt_sign jwt_verify pre s).1 in
  let second :=
    handle accepts ADMIN_KEY jwt_sign jwt_verify tj (PostClaim (Some bj))
      (serve accepts ADMIN_KEY jwt_sign jwt_verify mid first.1).1 in
  claim_succeeded jwt_sign first.2 → ¬ claim_succeeded jwt_sign second.2.
Proof.
  intros Hbi Hbj first second (t & u0 & Hfirst) (t' & u1 & Hsecond).
  subst first second. simpl in *.
  set (s1 := (serve accepts ADMIN_KEY jwt_sign jwt_verify pre s).1) in *.
  destruct (claim accepts jwt_sign jwt_verify ti (Some bi) (cards s1))
    as [db1 r1] eqn:Hc1.
  simpl in *. injection Hfirst as ->.
  apply claim_success_inv in Hc1
    as (b & c & [= <-] & Hu0 & _ & _ & Hc & Hfree & ->).
  assert (u0 = u) as -> by congruence.
  set (s2 := {| cards := _; events := _ |}) in *.
  destruct (serve_frame accepts ADMIN_KEY jwt_sign jwt_verify mid s2 u
              (claimed_row (claim_data_of ti bi) ti c))
    as (c' & Hc' & _ & _ & Hcl).
  { apply lookup_insert_eq. }
  destruct Hcl as [Hcl _]; [by eexists|].
  set (s3 := (serve accepts ADMIN_KEY jwt_sign jwt_verify mid s2).1) in *.
  pose proof (claim_on_claimed accepts jwt_sign jwt_verify tj bj (cards s3) u c' t' u1
                Hbj Hc') as Hno.
  destruct (claim accepts jwt_sign jwt_verify tj (Some bj) (cards s3)) as [db3 r3].
  simpl in *. injection Hsecond as ->. apply Hno; [|done].
  rewrite Hcl. by eexists.
Qed.

Lemma second_claim_never_succeeds_witness :
  ¬ claim_succeeded TestCodec.sign
      (handle no_nul test_admin_key TestCodec.sign TestCodec.verify 5004
         (PostClaim (Some claim_without_profile))
         (serve no_nul test_admin_key TestCodec.sign TestCodec.verify
            (take 2 (drop 2 test_traffic))
            (handle no_nul test_admin_key TestCodec.sign TestCodec.verify 5001
               (PostClaim (Some claim_as_grace))
               (serve no_nul test_admin_key TestCodec.sign TestCodec.verify
                  (take 1 test_traffic) test_server).1).1).1).2.
Proof.
  apply (second_claim_never_succeeds no_nul test_admin_key TestCodec.sign
           TestCodec.verify
           (take 1 test_traffic) (take 2 (drop 2 test_traffic)) 5001 5004
           claim_as_grace claim_without_profile (lit "card-new01") test_server).
  - reflexivity.
  - reflexivity.
  - exists 5001%Z, (lit "card-new01"). reflexivity.
Defined.

(** *** Admin routes *)

Lemma requireAdmin_closed (ADMIN_KEY : jstring) (key : option jstring) :
  ADMIN_KEY = [] ∨ key ≠ Some ADMIN_KEY → requireAdmin ADMIN_KEY key = false.
Proof.
  unfold requireAdmin. intros [->|Hk]; [done|].
  rewrite (bool_decide_eq_true_2 _ Hk). by rewrite orb_true_r.
Qed.

Lemma requireAdmin_open (ADMIN_KEY : jstring) :
  ADMIN_KEY ≠ [] → requireAdmin ADMIN_KEY (Some ADMIN_KEY) = true.
Proof.
  intros Hne. unfold requireAdmin. rewrite truthy_Some_cons by done.
  by rewrite bool_decide_eq_false_2 by (intros H; by apply H).
Qed.

(** X11: the admin routes answer 401 [admin_only] and leave the table
    alone unless the configured key is non-empty and the [x-admin-key]
    header equals it. With an empty [ADMIN_KEY] they are closed to every
    request, one with an empty header included. *)
Theorem admin_routes_need_the_key
    (accepts : jstring → bool)
    (ADMIN_KEY : jstring) (key : option jstring) (now : Z) (db : store)
    (nanoid : jstring) (count : jsnumber) (ids : nat → jstring) (clock : nat → Z)
    (uid : jstring) (profile : option Profile.t) :
  ADMIN_KEY = [] ∨ key ≠ Some ADMIN_KEY →
  admin_create_uid accepts ADMIN_KEY key nanoid now db = (db, Replied admin_only)
  ∧ admin_create_uids accepts ADMIN_KEY key count ids clock db = (db, Replied admin_only)
  ∧ admin_put_card accepts ADMIN_KEY key uid profile now db = (db, Replied admin_only).
Proof.
  intros Hclosed. apply requireAdmin_closed in Hclosed.
  unfold admin_create_uid, admin_create_uids, admin_put_card.
  by rewrite Hclosed.
Qed.

Lemma admin_routes_need_the_key_witness :
  admin_create_uid no_nul [] (Some []) (lit "card-x0001") 5000 test_db
  = (test_db, Replied admin_only)
  ∧ admin_create_uids no_nul [] (Some []) (Finite 3) test_nanoid test_clock test_db
    = (test_db, Replied admin_only)
  ∧ admin_put_card no_nul [] (Some []) (lit "card-ada01") None 5000 test_db
    = (test_db, Replied admin_only).
Proof.
  apply (admin_routes_need_the_key no_nul [] (Some []) 5000 test_db (lit "card-x0001")
           (Finite 3) test_nanoid test_clock (lit "card-ada01") None).
  by left.
Defined.

(** X12: the admin edit writes what the owner edit writes, the ten
    profile columns over the old ones, and keeps [uid], [createdAt],
    [claimedAt] and [claimedByEmail], when the database accepts the
    texts of the call. Where the owner edit ends in a rejected promise,
    for a missing row or a refused text, the admin edit answers 400
    [update_failed] and changes nothing. *)
Theorem admin_edit_keeps_claim_state
    (accepts : jstring → bool)
    (ADMIN_KEY : jstring) (uid : jstring) (profile : option Profile.t)
    (now : Z) (db : store) :
  ADMIN_KEY ≠ [] →
  (db !! uid = None →
   admin_put_card accepts ADMIN_KEY (Some ADMIN_KEY) uid profile now db
   = (db, Replied update_failed))
  ∧ (∀ c, db !! uid = Some c →
       ∃ c', stores_submitted profile c c'
             ∧ Card.uid c' = Card.uid c
             ∧ Card.createdAt c' = Card.createdAt c
             ∧ Card.claimedAt c' = Card.claimedAt c
             ∧ Card.claimedByEmail c' = Card.claimedByEmail c
             ∧ admin_put_card accepts ADMIN_KEY (Some ADMIN_KEY) uid profile now db
               = if accepts_edit accepts uid profile
                 then (<[uid := c']> db, RowSent c')
                 else (db, Replied update_failed)).
Proof.
  intros Hne. unfold admin_put_card, update, accepts_edit.
  rewrite (requireAdmin_open _ Hne). simpl. split.
  - by intros ->.
  - intros c ->. eexists. split; [apply (stores_submitted_write profile now c)|].
    repeat (split; [reflexivity|]). by destruct (_ && _).
Qed.

Lemma admin_edit_keeps_claim_state_witness :
  admin_put_card no_nul test_admin_key (Some test_admin_key) (lit "card-gone01")
    (Some grace_profile) 5000 test_db
  = (test_db, Replied update_failed)
  ∧ ∃ c', stores_submitted (Some grace_profile) ada_row c'
          ∧ Card.uid c' = Card.uid ada_row
          ∧ Card.createdAt c' = Card.createdAt ada_row
          ∧ Card.claimedAt c' = Card.claimedAt ada_row
          ∧ Card.claimedByEmail c' = Card.claimedByEmail ada_row
          ∧ admin_put_card no_nul test_admin_key (Some test_admin_key) (lit "card-ada01")
              (Some grace_profile) 5000 test_db
            = (<[lit "card-ada01" := c']> test_db, RowSent c').
Proof.
  split.
  - apply (admin_edit_keeps_claim_state no_nul test_admin_key (lit "card-gone01")
             (Some grace_profile) 5000 test_db); [discriminate|reflexivity].
  - apply (admin_edit_keeps_claim_state no_nul test_admin_key (lit "card-ada01")
             (Some grace_profile) 5000 test_db); [discriminate|reflexivity].
Defined.

(** The admin edit of a name that holds U+0000: 400, nothing written. *)
Example admin_edit_with_nul_name :
  admin_put_card no_nul test_admin_key (Some test_admin_key) (lit "card-ada01")
    (Some nul_profile) 5000 test_db
  = (test_db, Replied (Json 400 (JObj [(lit "error", JStr (lit "update_failed"))]))).
Proof. reflexivity. Qed.

(** *** The number of rounds of the bulk creation *)

Lemma js_lt_rounds (i : nat) (q : Q) :
  js_lt (Finite (inject_Z (Z.of_nat i))) (Finite q) = true
  ↔ i < Z.to_nat (Qceiling q).
Proof.
  unfold js_lt. rewrite negb_true_iff. split.
  - intros Hle.
    assert (Hlt : (inject_Z (Z.of_nat i) < q)%Q).
    { apply Qnot_le_lt. intros H. apply Qle_bool_iff in H. congruence. }
    assert (Hz : (Z.of_nat i < Qceiling q)%Z).
    { rewrite Zlt_Qlt. eapply Qlt_le_trans; [exact Hlt|apply Qle_ceiling]. }
    lia.
  - intros Hi.
    assert (Hz : (Z.of_nat i <= Qceiling q - 1)%Z) by lia.
    rewrite Zle_Qle in Hz.
    assert (Hlt : (inject_Z (Z.of_nat i) < q)%Q).
    { eapply Qle_lt_trans; [exact Hz|apply Qceiling_lt]. }
    destruct (Qle_bool q (inject_Z (Z.of_nat i))) eqn:Hb; [|done].
    apply Qle_bool_iff in Hb. exfalso. by apply (Qlt_not_le _ _ Hlt).
Qed.

(** The clamped count is a number between 1 and 200. *)
Lemma clamp_count_finite (n : jsnumber) :
  ∃ q, clamp_count n = Finite q ∧ (1 <= q)%Q ∧ (q <= 200)%Q.
Proof.
  assert (Hmax : ∀ x : Q,
    ∃ q, js_min (js_max (Finite x) (Finite 1)) (Finite 200) = Finite q
         ∧ (1 <= q)%Q ∧ (q <= 200)%Q).
  { intros x. unfold js_max, js_min, js_lt.
    destruct (Qle_bool 1 x) eqn:H1; simpl.
    - destruct (Qle_bool x 200) eqn:H2; simpl.
      + exists x. split; [done|]. split; by apply Qle_bool_iff.
      + exists 200%Q. split; [done|]. split; discriminate.
    - exists 1%Q. split; [done|]. split; discriminate. }
  unfold clamp_count, js_or_one. destruct n as [| | |x].
  - apply Hmax.
  - exists 200%Q. split; [reflexivity|]. split; discriminate.
  - exists 1%Q. split; [reflexivity|]. split; discriminate.
  - destruct (Qeq_bool x 0); apply Hmax.
Qed.

Lemma rounds_of_clamp_count (n : jsnumber) :
  1 ≤ rounds_of (clamp_count n) ≤ 200
  ∧ ∀ i, js_lt (Finite (inject_Z (Z.of_nat i))) (clamp_count n) = true
         ↔ i < rounds_of (clamp_count n).
Proof.
  destruct (clamp_count_finite n) as (q & -> & Hlo & Hhi). simpl. split.
  - apply Qceiling_resp_le in Hlo, Hhi.
    change (Qceiling 1) with 1%Z in Hlo. change (Qceiling 200) with 200%Z in Hhi.
    lia.
  - intros i. apply js_lt_rounds.
Qed.

Lemma create_loop_fresh
    (accepts : jstring → bool) (nanoid : nat → jstring) (clock : nat → Z)
    (count : jsnumber) (n fuel i : nat) (db : store) (rows : list jstring) :
  (∀ k, js_lt (Finite (inject_Z (Z.of_nat k))) count = true ↔ k < n) →
  i ≤ n → n - i < fuel →
  NoDup (map nanoid (seq i (n - i))) →
  (∀ k, i ≤ k < n → db !! nanoid k = None ∧ accepts (nanoid k) = true) →
  ∃ db', create_loop accepts nanoid clock fuel i count db rows
         = (db', inr (rows ++ map nanoid (seq i (n - i))))
         ∧ (∀ k, i ≤ k < n →
                 db' !! nanoid k = Some (Card.blank (nanoid k) (clock k)))
         ∧ (∀ u, (∀ k, i ≤ k < n → u ≠ nanoid k) → db' !! u = db !! u).
Proof.
  intros Hcount. revert i db rows.
  induction fuel as [|fuel IH]; intros i db rows Hin Hfuel Hnd Hfresh; [lia|].
  rewrite create_loop_S.
  destruct (js_lt (Finite (inject_Z (Z.of_nat i))) count) eqn:Hlt.
  - apply Hcount in Hlt.
    replace (n - i) with (S (n - S i)) in * by lia.
    simpl in Hnd. apply NoDup_cons in Hnd as [Hnotin Hnd].
    destruct (Hfresh i) as [Hnone Hacc]; [lia|].
    unfold create. rewrite Hacc, Hnone.
    destruct (IH (S i) (<[nanoid i := Card.blank (nanoid i) (clock i)]> db)
                (rows ++ [nanoid i])) as (db' & Hloop & Hnew & Hold);
      [lia|lia|done| |].
    { intros k Hk. destruct (Hfresh k) as [Hk1 Hk2]; [lia|]. split; [|done].
      rewrite lookup_insert_ne; [done|].
      intros Heq. apply Hnotin. rewrite Heq.
      apply list_elem_of_fmap. exists k. split; [done|].
      apply list_elem_of_In, in_seq. lia. }
    exists db'. split; [|split].
    + rewrite Hloop. simpl. by rewrite <- app_assoc.
    + intros k Hk. destruct (decide (k = i)) as [->|Hki].
      * rewrite Hold; [apply lookup_insert_eq|].
        intros k' Hk' Heq. apply Hnotin. rewrite Heq.
        apply list_elem_of_fmap. exists k'. split; [done|].
        apply list_elem_of_In, in_seq. lia.
      * apply Hnew. lia.
    + intros u Hu. rewrite Hold by (intros k Hk; apply Hu; lia).
      apply lookup_insert_ne. intros Heq. by apply (Hu i); [lia|].
  - assert (Hni : n = i).
    { destruct (decide (i < n)) as [Hi|Hi]; [|lia].
      apply Hcount in Hi. congruence. }
    subst n. replace (i - i) with 0 by lia. simpl.
    exists db. rewrite app_nil_r. split; [done|]. split; [lia|done].
Qed.

(** Whenever the loop runs to its end, the list it returns holds the
    identifiers of all its rounds, in the order drawn. *)
Lemma create_loop_rows
    (accepts : jstring → bool) (nanoid : nat → jstring) (clock : nat → Z)
    (count : jsnumber) (n fuel i : nat) (db db' : store) (rows rows' : list jstring) :
  (∀ k, js_lt (Finite (inject_Z (Z.of_nat k))) count = true ↔ k < n) →
  i ≤ n → n - i < fuel →
  create_loop accepts nanoid clock fuel i count db rows = (db', inr rows') →
  rows' = rows ++ map nanoid (seq i (n - i)).
Proof.
  intros Hcount. revert i db rows.
  induction fuel as [|fuel IH]; intros i db rows Hin Hfuel; [lia|].
  rewrite create_loop_S.
  destruct (js_lt (Finite (inject_Z (Z.of_nat i))) count) eqn:Hlt.
  - apply Hcount in Hlt.
    destruct (create accepts (nanoid i) (clock i) db) as [e|db1]; [discriminate|].
    intros Hloop. apply IH in Hloop; [|lia|lia]. rewrite Hloop.
    replace (n - i) with (S (n - S i)) by lia. simpl. by rewrite <- app_assoc.
  - assert (Hni : n = i).
    { destruct (decide (i < n)) as [Hi|Hi]; [|lia].
      apply Hcount in Hi. congruence. }
    subst n. replace (i - i) with 0 by lia. simpl. rewrite app_nil_r. congruence.
Qed.

(** X13: the bulk creation runs as many rounds as there are naturals
    below the clamped count: the count asked for, with 1 for a missing,
    non-numeric or zero count, raised to 1 and cut at 200, so between 1
    and 200 rounds, and 3 for a count of 2.5. Whatever identifiers are
    drawn, a response of the route with the right key lists exactly one
    row per round, so 1 to 200 rows, in the order drawn. When the
    identifiers drawn in these rounds are distinct, new to the table
    and taken by the database, the route does respond, and it has made
    one blank, unclaimed row per round: each identifier is the key of
    its row, and every other row is as before. *)
Theorem bulk_create_makes_clamped_rows
    (accepts : jstring → bool)
    (ADMIN_KEY : jstring) (count : jsnumber)
    (nanoid : nat → jstring) (clock : nat → Z) (db : store) :
  ADMIN_KEY ≠ [] →
  1 ≤ rounds_of (clamp_count count) ≤ 200
  ∧ (∀ db' r,
       admin_create_uids accepts ADMIN_KEY (Some ADMIN_KEY) count nanoid clock db
       = (db', Replied r) →
       r = Json 200
             (JObj [ (lit "ok", JBool true);
                     (lit "rows",
                      JArr (map (λ u, JObj [(lit "uid", JStr u)])
                              (map nanoid (seq 0 (rounds_of (clamp_count count)))))) ])
       ∧ 1 ≤ length (map nanoid (seq 0 (rounds_of (clamp_count count)))) ≤ 200)
  ∧ (NoDup (map nanoid (seq 0 (rounds_of (clamp_count count)))) →
     (∀ k, k < rounds_of (clamp_count count) →
           db !! nanoid k = None ∧ accepts (nanoid k) = true) →
     ∃ db',
       admin_create_uids accepts ADMIN_KEY (Some ADMIN_KEY) count nanoid clock db
       = (db',
          Replied
            (Json 200
               (JObj [ (lit "ok", JBool true);
                       (lit "rows",
                        JArr (map (λ u, JObj [(lit "uid", JStr u)])
                                (map nanoid (seq 0 (rounds_of (clamp_count count)))))) ])))
       ∧ (∀ k, k < rounds_of (clamp_count count) →
               db' !! nanoid k = Some (Card.blank (nanoid k) (clock k)))
       ∧ (∀ u, (∀ k, k < rounds_of (clamp_count count) → u ≠ nanoid k) →
               db' !! u = db !! u)).
Proof.
  intros Hne.
  destruct (rounds_of_clamp_count count) as [Hbounds Hcount].
  split; [done|]. split.
  { intros db' r. unfold admin_create_uids.
    rewrite (requireAdmin_open _ Hne). cbn [negb].
    destruct (create_loop accepts nanoid clock 201 0 (clamp_count count) db [])
      as [db1 [e|rows]] eqn:Hloop; [discriminate|].
    apply (create_loop_rows accepts nanoid clock (clamp_count count)
             (rounds_of (clamp_count count))) in Hloop; [|done|lia|lia].
    rewrite Nat.sub_0_r in Hloop. simpl in Hloop. subst rows.
    intros [= _ <-]. split; [reflexivity|].
    by rewrite length_map, length_seq. }
  intros Hnd Hfresh.
  destruct (create_loop_fresh accepts nanoid clock (clamp_count count)
              (rounds_of (clamp_count count)) 201 0 db [] Hcount)
    as (db' & Hloop & Hnew & Hold).
  { lia. }
  { lia. }
  { by rewrite Nat.sub_0_r. }
  { intros k Hk. apply Hfresh. lia. }
  rewrite Nat.sub_0_r in Hloop.
  exists db'. unfold admin_create_uids.
  rewrite (requireAdmin_open _ Hne). cbn [negb]. rewrite Hloop.
  split; [done|]. split.
  - intros k Hk. apply Hnew. lia.
  - intros u Hu. apply Hold. intros k Hk. apply Hu. lia.
Qed.

Lemma bulk_create_makes_clamped_rows_witness :
  1 ≤ rounds_of (clamp_count (Finite (5 # 2))) ≤ 200
  ∧ ∃ db',
      admin_create_uids no_nul test_admin_key (Some test_admin_key) (Finite (5 # 2))
        test_nanoid test_clock test_db
      = (db',
         Replied
           (Json 200
              (JObj [ (lit "ok", JBool true);
                      (lit "rows",
                       JArr (map (λ u, JObj [(lit "uid", JStr u)])
                               (map test_nanoid
                                  (seq 0 (rounds_of (clamp_count (Finite (5 # 2))))))))
                    ])))
      ∧ (∀ k, k < rounds_of (clamp_count (Finite (5 # 2))) →
              db' !! test_nanoid k = Some (Card.blank (test_nanoid k) (test_clock k)))
      ∧ (∀ u, (∀ k, k < rounds_of (clamp_count (Finite (5 # 2))) → u ≠ test_nanoid k) →
              db' !! u = test_db !! u).
Proof.
  destruct (bulk_create_makes_clamped_rows no_nul test_admin_key (Finite (5 # 2))
              test_nanoid test_clock test_db) as (Hbounds & _ & Hrows).
  { discriminate. }
  split; [exact Hbounds|]. apply Hrows.
  - apply (bool_decide_eq_true_1
             (NoDup (map test_nanoid (seq 0 (rounds_of (clamp_count (Finite (5 # 2)))))))).
    vm_compute. reflexivity.
  - intros k Hk. change (rounds_of (clamp_count (Finite (5 # 2)))) with 3 in Hk.
    destruct k as [|[|[|k]]]; [by split|by split|by split|lia].
Defined.

(** Counts and the rounds they give: none or not a number, zero,
    negative, fractional, at and beyond the limit, infinite. *)
Example rounds_of_counts :
  rounds_of (clamp_count NaN) = 1
  ∧ rounds_of (clamp_count (Finite 0)) = 1
  ∧ rounds_of (clamp_count (Finite (-5))) = 1
  ∧ rounds_of (clamp_count (Finite (1 # 2))) = 1
  ∧ rounds_of (clamp_count (Finite (5 # 2))) = 3
  ∧ rounds_of (clamp_count (Finite 200)) = 200
  ∧ rounds_of (clamp_count (Finite (401 # 2))) = 200
  ∧ rounds_of (clamp_count (Finite 100000)) = 200
  ∧ rounds_of (clamp_count PosInfinity) = 200
  ∧ rounds_of (clamp_count NegInfinity) = 1.
Proof. repeat split; reflexivity. Qed.

(** A count of 2.5 makes three rows; when the second identifier drawn is
    taken, the first row is made, the call ends without a response and
    no third identifier is drawn. *)
Example bulk_create_runs :
  admin_create_uids no_nul test_admin_key (Some test_admin_key) (Finite (5 # 2))
    test_nanoid test_clock ∅
  = (<[lit "uid-2" := Card.blank (lit "uid-2") 7002]>
       (<[lit "uid-1" := Card.blank (lit "uid-1") 7001]>
          (<[lit "uid-0" := Card.blank (lit "uid-0") 7000]> ∅)),
     Replied (Json 200
                (JObj [ (lit "ok", JBool true);
                        (lit "rows",
                         JArr [ JObj [(lit "uid", JStr (lit "uid-0"))];
                                JObj [(lit "uid", JStr (lit "uid-1"))];
                                JObj [(lit "uid", JStr (lit "uid-2"))] ]) ])))
  ∧ admin_create_uids no_nul test_admin_key (Some test_admin_key) (Finite (5 # 2))
      test_nanoid test_clock (<[lit "uid-1" := ada_row]> ∅)
    = (<[lit "uid-0" := Card.blank (lit "uid-0") 7000]> (<[lit "uid-1" := ada_row]> ∅),
       CreateRejected UniqueConstraintFailed).
Proof. split; reflexivity. Qed.

(** *** Analytics *)

Lemma or_literal_not_empty (v : option jstring) (fallback : string) :
  fallback ≠ EmptyString → or_literal v fallback ≠ [].
Proof.
  intros Hf. unfold or_literal. destruct (truthy v) eqn:Hv.
  - apply truthy_true_inv in Hv as (s & -> & Hs). done.
  - destruct fallback; [done|discriminate].
Qed.

Lemma handle_events
    (accepts : jstring → bool)
    (ADMIN_KEY : jstring)
    (jwt_sign : Payload.t → option jstring → Z → jstring)
    (jwt_verify : jstring → Z → option Payload.t)
    (now : Z) (req : request) (s : server) :
  events (handle accepts ADMIN_KEY jwt_sign jwt_verify now req s).1
  = events s ++ option_list (stored_event accepts (now, req)).
Proof.
  unfold stored_event.
  destruct req as [uid|body|uid|req|key id|key count ids clock|key uid profile|body ip];
    simpl.
  - by rewrite app_nil_r.
  - destruct (claim _ _ _ _ _ _). simpl. by rewrite app_nil_r.
  - by rewrite app_nil_r.
  - destruct (put_card _ _ _ _ _). simpl. by rewrite app_nil_r.
  - destruct (admin_create_uid _ _ _ _ _ _). simpl. by rewrite app_nil_r.
  - destruct (admin_create_uids _ _ _ _ _ _ _). simpl. by rewrite app_nil_r.
  - destruct (admin_put_card _ _ _ _ _ _ _). simpl. by rewrite app_nil_r.
  - unfold post_event. destruct (accepts_event _ _); simpl; [done|].
    by rewrite app_nil_r.
Qed.

Lemma stored_event_named (accepts : jstring → bool) (tr : Z * request) (e : Event.t) :
  stored_event accepts tr = Some e →
  Event.uid e ≠ [] ∧ Event.kind e ≠ [] ∧ accepts_event accepts e = true
  ∧ is_post_event tr = true.
Proof.
  unfold stored_event, is_post_event. destruct tr.2; try discriminate.
  destruct (accepts_event _ _) eqn:Hacc; [|discriminate].
  intros [= <-]. split; [by apply or_literal_not_empty|].
  split; [by apply or_literal_not_empty|done].
Qed.

(** X14: the event table only grows. A sequence of requests leaves the
    events it found in place and appends, in order, the event of every
    event request whose texts the database accepts, and nothing else
    (an event request with a refused text ends without a response);
    every event recorded has a non-empty [uid] and a non-empty [kind] (a
    missing or empty one is recorded as "unknown", as "visit"). *)
Theorem events_are_append_only
    (accepts : jstring → bool)
    (ADMIN_KEY : jstring)
    (jwt_sign : Payload.t → option jstring → Z → jstring)
    (jwt_verify : jstring → Z → option Payload.t)
    (reqs : list (Z * request)) (s : server) :
  events (serve accepts ADMIN_KEY jwt_sign jwt_verify reqs s).1
  = events s ++ omap (stored_event accepts) reqs
  ∧ length (omap (stored_event accepts) reqs) ≤ length (List.filter is_post_event reqs)
  ∧ Forall (λ e, Event.uid e ≠ [] ∧ Event.kind e ≠ [])
      (omap (stored_event accepts) reqs).
Proof.
  split; [|split].
  - revert s. induction reqs as [|[now req] reqs IH]; intros s.
    + simpl. by rewrite app_nil_r.
    + rewrite serve_cons. cbn [fst]. rewrite IH, handle_events.
      rewrite <- app_assoc. f_equal. cbn [omap list_omap].
      by destruct (stored_event accepts (now, req)).
  - induction reqs as [|tr reqs IH]; [done|]. cbn [omap list_omap List.filter].
    destruct (stored_event accepts tr) as [e|] eqn:He.
    + apply stored_event_named in He as (_ & _ & _ & ->). simpl. lia.
    + destruct (is_post_event tr); simpl; lia.
  - apply Forall_forall. intros e He.
    apply list_elem_of_omap in He as (tr & _ & Htr).
    by apply stored_event_named in Htr as (? & ? & _).
Qed.

(** The sample traffic, served: two events stored and one refused, the
    card claimed once, four identifiers created. *)
Example test_traffic_outcome :
  let '(s, os) := serve no_nul test_admin_key TestCodec.sign TestCodec.verify
                    test_traffic test_server in
  map Event.uid (events s) = [lit "unknown"; lit "card-new01"]
  ∧ map Event.kind (events s) = [lit "visit"; lit "visit"]
  ∧ os !! 0 = Some (Replied (Json 200 (JObj [(lit "ok", JBool true)])))
  ∧ os !! 1 = Some (Replied (claim_ok TestCodec.sign 5001 (lit "card-new01")))
  ∧ os !! 4 = Some (Replied already_claimed)
  ∧ os !! 5 = Some (Replied (Json 200 (JObj [(lit "uid", JStr (lit "card-x0001"))])))
  ∧ os !! 6 = Some (Replied (rows_created [lit "uid-0"; lit "uid-1"; lit "uid-2"]))
  ∧ os !! 7 = Some (Replied (Rejected RefusedText))
  ∧ (Card.name <$> cards s !! lit "card-new01") = Some (Some (lit "Grace Hopper"))
  ∧ is_Some (cards s !! lit "card-x0001")
  ∧ cards s !! lit "uid-2" = Some (Card.blank (lit "uid-2") 7002)
  ∧ size (cards s) = 6.
Proof. vm_compute. repeat split; try reflexivity. by eexists. Qed.

(* ------------------------------------------------------------------ *)
(** ** The export scripts: escaping *)

(** Induction on a string where the step may skip two units. *)
Lemma jstring_ind2 (P : jstring → Prop) :
  P [] →
  (∀ c s, P s → (∀ d s', s = d :: s' → P s') → P (c :: s)) →
  ∀ s, P s.
Proof.
  intros Hnil Hcons s.
  assert (H : P s ∧ ∀ d s', s = d :: s' → P s').
  { induction s as [|c s [IH1 IH2]].
    - split; [done|discriminate].
    - split; [by apply Hcons|]. by intros d s' [= _ <-]. }
  apply H.
Qed.

(** X15: a value the script escapes reads back, by the reader's rules
    of the format, as the original text with every line break ([\r\n],
    [\r], [\n]) turned into one line feed; for a text without carriage
    return the round trip is exact. *)
Theorem escaped_value_reads_back (s : jstring) :
  vUnescape (vEscape s) = line_feeds s
  ∧ (Forall (λ c, c ≠ 13%N) s → vUnescape (vEscape s) = s).
Proof.
  split; [apply vUnescape_vEscape|].
  intros Hs. rewrite vUnescape_vEscape. by apply line_feeds_without_cr.
Qed.

Lemma escaped_value_reads_back_witness :
  vUnescape (vEscape (lit "Doe, Smith; Partners\ R&D")) = line_feeds (lit "Doe, Smith; Partners\ R&D")
  ∧ vUnescape (vEscape (lit "Doe, Smith; Partners\ R&D")) = lit "Doe, Smith; Partners\ R&D".
Proof.
  destruct (escaped_value_reads_back (lit "Doe, Smith; Partners\ R&D")) as [H1 H2].
  split; [exact H1|]. apply H2.
  apply (bool_decide_eq_true_1
           (Forall (λ c, c ≠ 13%N) (lit "Doe, Smith; Partners\ R&D"))).
  vm_compute. reflexivity.
Defined.

Lemma vEscape_well_formed (s : jstring) :
  well_escaped (vEscape s) = true ∧ one_line (vEscape s).
Proof.
  induction s as [|c s [IHw IHl] IH2] using jstring_ind2; [by split; [|constructor]|].
  destruct (N.eq_dec c 92%N) as [->|H92].
  { rewrite vEscape_backslash. split; [done|].
    repeat (constructor; [by split|]). done. }
  destruct (N.eq_dec c 44%N) as [->|H44].
  { rewrite vEscape_comma. split; [done|].
    repeat (constructor; [by split|]). done. }
  destruct (N.eq_dec c 59%N) as [->|H59].
  { rewrite vEscape_semicolon. split; [done|].
    repeat (constructor; [by split|]). done. }
  destruct (N.eq_dec c 10%N) as [->|H10].
  { rewrite vEscape_lf. split; [done|].
    repeat (constructor; [by split|]). done. }
  destruct (N.eq_dec c 13%N) as [->|H13].
  { destruct s as [|d s]; [by split; [|repeat constructor]|].
    destruct (N.eq_dec d 10%N) as [->|Hd].
    - rewrite vEscape_crlf. destruct (IH2 _ _ eq_refl) as [IHw' IHl'].
      split; [done|]. repeat (constructor; [by split|]). done.
    - rewrite vEscape_cr by done. split; [done|].
      repeat (constructor; [by split|]). done. }
  rewrite vEscape_plain by done. split.
  - simpl. apply N.eqb_neq in H92, H44, H59, H10, H13.
    by rewrite H92, H44, H59, H10, H13.
  - by constructor.
Qed.

(** X16: an escaped value is one line and well formed: it holds no
    carriage return and no line feed, every backslash in it starts one
    of the four escapes, and no comma or semicolon stands outside an
    escape. A value cannot end its property or start another line. *)
Theorem escaped_value_is_well_formed (s : jstring) :
  well_escaped (vEscape s) = true ∧ one_line (vEscape s).
Proof. apply vEscape_well_formed. Qed.

(** *** The second version of the script *)

Lemma replace_breaks_versions (s : jstring) :
  GenQrs2.replace_breaks s = replace_breaks s.
Proof.
  induction s as [|c s IH IH2] using jstring_ind2; [done|].
  simpl. destruct (c =? 10)%N eqn:H10.
  - apply N.eqb_eq in H10 as ->. simpl. by rewrite IH.
  - destruct (c =? 13)%N eqn:H13; [|by rewrite IH].
    destruct s as [|d s]; [done|].
    destruct (d =? 10)%N; [|by rewrite IH].
    by rewrite (IH2 _ _ eq_refl).
Qed.

Lemma vEscape_versions (s : jstring) : GenQrs2.vEscape s = vEscape s.
Proof. unfold GenQrs2.vEscape, vEscape. by rewrite replace_breaks_versions. Qed.

Lemma script_line_versions (tag : string) (v : option jstring) (close : string) :
  GenQrs2.script_line tag v close = script_line tag v close.
Proof. unfold GenQrs2.script_line, script_line. by rewrite vEscape_versions. Qed.

Lemma buildVCard_script_lines (c : Card.t) :
  buildVCard c = foldVCard (join crlf (script_lines c)).
Proof. reflexivity. Qed.

(** X17: the second and the third version of the script agree. Their
    escaping routines, written with different patterns for the line
    break, give the same text for every value, and the file of the third
    version is the file of the second, folded. *)
Theorem script_versions_agree (s : jstring) (c : Card.t) :
  GenQrs2.vEscape s = vEscape s
  ∧ buildVCard c = foldVCard (GenQrs2.buildVCard c).
Proof.
  split; [apply vEscape_versions|].
  rewrite buildVCard_script_lines. f_equal.
  unfold GenQrs2.buildVCard, script_lines.
  by rewrite !script_line_versions, !vEscape_versions.
Qed.

(* ------------------------------------------------------------------ *)
(** ** The export scripts: folding *)

Lemma join_cons2 (sep x y : jstring) (rest : list jstring) :
  join sep (x :: y :: rest) = x ++ sep ++ join sep (y :: rest).
Proof. reflexivity. Qed.

Lemma fold_line_pieces (line : jstring) :
  ∃ pieces, fold_line line = join (crlf ++ lit " ") pieces
            ∧ concat pieces = line
            ∧ pieces ≠ []
            ∧ Forall (λ p, length p ≤ 70) pieces
            ∧ (70 < length line → 2 ≤ length pieces).
Proof.
  remember (length line) as n eqn:Hn.
  revert line Hn. induction n as [n IH] using lt_wf_ind. intros line ->.
  destruct (le_lt_dec (length line) 70) as [Hshort|Hlong].
  - exists [line]. rewrite fold_line_short by done. simpl. rewrite app_nil_r.
    split; [done|]. split; [done|]. split; [done|].
    split; [constructor; [done|constructor]|lia].
  - destruct (IH (length (drop 70 line))) with (line := drop 70 line)
      as (ps & Hfold & Hcat & Hne & Hlen & _); [rewrite length_drop; lia|done|].
    exists (take 70 line :: ps). rewrite fold_line_long by done.
    destruct ps as [|p ps]; [done|]. rewrite join_cons2, Hfold, <- !app_assoc.
    split; [done|]. split; [simpl in *; by rewrite Hcat, take_drop|].
    split; [done|]. split; [|simpl; lia].
    constructor; [rewrite length_take; lia|done].
Qed.

Lemma unfold_lines_other (c : N) (s : jstring) :
  c ≠ 13%N → unfold_lines (c :: s) = c :: unfold_lines s.
Proof.
  intros Hc. apply N.eqb_neq in Hc. simpl.
  destruct s as [|d [|e s]]; try done. by rewrite Hc.
Qed.

Lemma unfold_lines_app (p s : jstring) :
  Forall (λ c, c ≠ 13%N) p → unfold_lines (p ++ s) = p ++ unfold_lines s.
Proof.
  induction 1 as [|c p Hc _ IH]; [done|].
  rewrite <- app_comm_cons, unfold_lines_other by done. by rewrite IH.
Qed.

Lemma unfold_lines_fold_mark (s : jstring) :
  unfold_lines (crlf ++ lit " " ++ s) = unfold_lines s.
Proof. reflexivity. Qed.

Lemma unfold_lines_break (s : jstring) :
  head s ≠ Some 32%N → unfold_lines (crlf ++ s) = crlf ++ unfold_lines s.
Proof.
  intros Hs. destruct s as [|e s]; [done|].
  assert (He : (e =? 32)%N = false).
  { apply N.eqb_neq. intros ->. by apply Hs. }
  change (unfold_lines (crlf ++ e :: s))
    with (if (13 =? 13)%N && (10 =? 10)%N && (e =? 32)%N then unfold_lines s
          else 13%N :: unfold_lines (10%N :: e :: s)).
  rewrite He. cbn [N.eqb Pos.eqb andb].
  by rewrite (unfold_lines_other 10 (e :: s)).
Qed.

Lemma one_line_no_cr (s : jstring) : one_line s → Forall (λ c, c ≠ 13%N) s.
Proof. intros H. eapply Forall_impl; [exact H|]. by intros c [_ ?]. Qed.

(** Unfolding undoes [fold_line], whatever follows. *)
Lemma unfold_lines_fold_line (line rest : jstring) :
  one_line line →
  unfold_lines (fold_line line ++ rest) = line ++ unfold_lines rest.
Proof.
  remember (length line) as n eqn:Hn.
  revert line Hn. induction n as [n IH] using lt_wf_ind. intros line -> Hline.
  destruct (le_lt_dec (length line) 70) as [Hshort|Hlong].
  - rewrite fold_line_short by done. by apply unfold_lines_app, one_line_no_cr.
  - rewrite fold_line_long by done. rewrite <- !app_assoc.
    rewrite unfold_lines_app by (apply one_line_no_cr; by apply Forall_take).
    rewrite unfold_lines_fold_mark.
    rewrite (IH (length (drop 70 line))) by
      (rewrite ?length_drop; try lia; try done; by apply Forall_drop).
    by rewrite app_assoc, take_drop.
Qed.

(** X18: [fold_line] cuts a line into pieces of at most 70 units, in
    order and without losing any, and joins them with a line break and a
    space: a physical line of the folded text has at most 71 units, a
    line longer than 70 is cut at least once, and a reader that removes
    each break-and-space gets the line back (given that the line itself
    holds no line break, as after the split of [foldVCard]). *)
Theorem fold_line_cuts_and_restores (line : jstring) :
  (∃ pieces, fold_line line = join (crlf ++ lit " ") pieces
             ∧ concat pieces = line
             ∧ Forall (λ p, length p ≤ 70) pieces
             ∧ (70 < length line → 2 ≤ length pieces))
  ∧ (one_line line → unfold_lines (fold_line line) = line).
Proof.
  split.
  - destruct (fold_line_pieces line) as (ps & H1 & H2 & _ & H3 & H4). by exists ps.
  - intros Hline. rewrite <- (app_nil_r (fold_line line)).
    rewrite unfold_lines_fold_line by done. simpl. apply app_nil_r.
Qed.

Lemma fold_line_cuts_and_restores_witness :
  unfold_lines
    (fold_line (lit "TITLE:Senior Vice President of Strategic Partnerships and Business Development"))
  = lit "TITLE:Senior Vice President of Strategic Partnerships and Business Development".
Proof.
  apply (fold_line_cuts_and_restores
           (lit "TITLE:Senior Vice President of Strategic Partnerships and Business Development")).
  apply (bool_decide_eq_true_1
           (one_line (lit "TITLE:Senior Vice President of Strategic Partnerships and Business Development"))).
  vm_compute. reflexivity.
Defined.

(* ------------------------------------------------------------------ *)
(** ** The export scripts: the file as a reader sees it *)

Lemma split_breaks_go_app (l cur rest : jstring) :
  one_line l → split_breaks_go cur (l ++ rest) = split_breaks_go (cur ++ l) rest.
Proof.
  intros Hl. revert cur. induction Hl as [|c l [H10 H13] _ IH]; intros cur.
  - by rewrite app_nil_r.
  - simpl. apply N.eqb_neq in H10, H13. rewrite H13, H10.
    rewrite IH. by rewrite <- app_assoc.
Qed.

Lemma split_breaks_go_crlf (cur rest : jstring) :
  split_breaks_go cur (crlf ++ rest) = cur :: split_breaks_go [] rest.
Proof. reflexivity. Qed.

Lemma split_breaks_go_join (cur l : jstring) (ls : list jstring) :
  Forall one_line (l :: ls) →
  split_breaks_go cur (join crlf (l :: ls)) = (cur ++ l) :: ls.
Proof.
  revert cur l. induction ls as [|l2 ls IH]; intros cur l Hall.
  - simpl. rewrite <- (app_nil_r l) at 1.
    rewrite split_breaks_go_app by by inversion Hall. done.
  - rewrite join_cons2. inversion Hall as [|? ? Hl Hrest]; subst.
    rewrite split_breaks_go_app by done.
    rewrite split_breaks_go_crlf. f_equal. by apply (IH []).
Qed.

(** Splitting a text made by joining break-free lines gives the lines. *)
Lemma split_breaks_join (lines : list jstring) :
  lines ≠ [] → Forall one_line lines → split_breaks (join crlf lines) = lines.
Proof.
  intros Hne Hall. destruct lines as [|l ls]; [done|].
  unfold split_breaks. by rewrite split_breaks_go_join.
Qed.

Lemma fold_line_head (c : N) (r : jstring) :
  ∃ t, fold_line (c :: r) = c :: t.
Proof.
  destruct (le_lt_dec (length (c :: r)) 70) as [Hshort|Hlong].
  - rewrite fold_line_short by done. by eexists.
  - rewrite fold_line_long by done. simpl. by eexists.
Qed.

Lemma join_fold_head (l : jstring) (ls : list jstring) :
  head l ≠ Some 32%N → head (join crlf (map fold_line (l :: ls))) ≠ Some 32%N.
Proof.
  intros Hl. destruct l as [|c r].
  - cbn [map]. change (fold_line []) with (@nil N).
    destruct (map fold_line ls); simpl; discriminate.
  - destruct (fold_line_head c r) as [t Ht]. simpl. rewrite Ht.
    destruct (map fold_line ls); simpl; done.
Qed.

Lemma unfold_lines_join_fold (lines : list jstring) :
  Forall one_line lines → Forall (λ l, head l ≠ Some 32%N) lines →
  unfold_lines (join crlf (map fold_line lines)) = join crlf lines.
Proof.
  intros Hone Hhead. induction lines as [|l ls IH]; [done|].
  inversion Hone as [|? ? Hl Hls]; inversion Hhead as [|? ? Hh Hhs]; subst.
  destruct ls as [|l2 ls].
  - simpl. rewrite <- (app_nil_r (fold_line l)).
    rewrite unfold_lines_fold_line by done. simpl. apply app_nil_r.
  - change (map fold_line (l :: l2 :: ls))
      with (fold_line l :: fold_line l2 :: map fold_line ls).
    rewrite !join_cons2. rewrite unfold_lines_fold_line by done.
    rewrite unfold_lines_break.
    + f_equal. f_equal. by apply IH.
    + apply (join_fold_head l2 ls). by inversion Hhs.
Qed.

(** A line made of a break-free tag, an escaped value and a break-free
    close. *)
Lemma tagged_line_ok (tag v close : jstring) (c : N) (r : jstring) :
  tag = c :: r → c ≠ 32%N → one_line tag → one_line close →
  one_line (tag ++ vEscape v ++ close) ∧ head (tag ++ vEscape v ++ close) ≠ Some 32%N.
Proof.
  intros -> Hc Htag Hclose. split.
  - apply Forall_app. split; [done|]. apply Forall_app. split; [|done].
    apply vEscape_well_formed.
  - simpl. congruence.
Qed.

(** Closes a [one_line] goal on a literal by evaluation. *)
Ltac literal_one_line :=
  lazymatch goal with
  | |- ?G => apply (bool_decide_eq_true_1 G); vm_compute; reflexivity
  end.

Lemma script_line_ok (tag : string) (v : option jstring) (close : string)
    (c : N) (r : jstring) :
  lit tag = c :: r → c ≠ 32%N → one_line (lit tag) → one_line (lit close) →
  Forall (λ l, one_line l ∧ head l ≠ Some 32%N) (script_line tag v close).
Proof.
  intros Htag Hc H1 H2. unfold script_line. destruct (truthy v); [|constructor].
  constructor; [|constructor]. by apply (tagged_line_ok _ _ _ c r).
Qed.

Lemma script_lines_ok (card : Card.t) :
  Forall (λ l, one_line l ∧ head l ≠ Some 32%N) (script_lines card).
Proof.
  unfold script_lines.
  constructor; [split; [literal_one_line|discriminate]|].
  constructor; [split; [literal_one_line|discriminate]|].
  constructor.
  { split; [|discriminate].
    apply Forall_app. split; [literal_one_line|].
    apply Forall_app. split; [apply vEscape_well_formed|].
    apply Forall_app. split; [literal_one_line|].
    apply Forall_app. split; [apply vEscape_well_formed|literal_one_line]. }
  constructor.
  { split; [|discriminate].
    apply Forall_app. split; [literal_one_line|apply vEscape_well_formed]. }
  repeat (apply Forall_app; split;
          [eapply script_line_ok;
           [reflexivity|discriminate|literal_one_line|literal_one_line]|]).
  constructor; [split; [literal_one_line|discriminate]|constructor].
Qed.

(** X19: whatever the fields of a card hold, the file the script writes
    reads back as the lines the script made: a reader that unfolds it
    and splits it at line breaks gets the logical lines, one property on
    each, none of them holding a line break. A value cannot add a line
    or a property to the file. *)
Theorem buildVCard_reads_back (card : Card.t) :
  unfold_lines (buildVCard card) = join crlf (script_lines card)
  ∧ split_breaks (unfold_lines (buildVCard card)) = script_lines card
  ∧ Forall one_line (script_lines card).
Proof.
  pose proof (script_lines_ok card) as Hok.
  assert (Hone : Forall one_line (script_lines card)).
  { eapply Forall_impl; [exact Hok|]. by intros l [? _]. }
  assert (Hhead : Forall (λ l, head l ≠ Some 32%N) (script_lines card)).
  { eapply Forall_impl; [exact Hok|]. by intros l [_ ?]. }
  assert (Hne : script_lines card ≠ []) by (unfold script_lines; discriminate).
  assert (Hunfold : unfold_lines (buildVCard card) = join crlf (script_lines card)).
  { rewrite buildVCard_script_lines. unfold foldVCard.
    rewrite split_breaks_join by done. by apply unfold_lines_join_fold. }
  split; [done|]. split; [|done].
  rewrite Hunfold. by apply split_breaks_join.
Qed.

(** The card with a comma, a semicolon, a line feed and a long title,
    read back. *)
Example punctuated_row_reads_back :
  split_breaks (unfold_lines (buildVCard punctuated_row))
  = [ lit "BEGIN:VCARD";
      lit "VERSION:3.0";
      lit "N:Doe;Jo;;;";
      lit "FN:Jo Doe";
      lit "ORG:Doe\, Smith\; Partners";
      lit "TITLE:Senior Vice President of Strategic Partnerships and Business Development";
      lit "ADR;TYPE=WORK:;;12 Long Street\nSuite 4;;;;";
      lit "END:VCARD" ].
Proof. vm_compute. reflexivity. Qed.

(** *** Physical lines *)

Lemma join_fold_mark (x : jstring) (xs : list jstring) :
  join (crlf ++ lit " ") (x :: xs) = join crlf (x :: map (app (lit " ")) xs).
Proof.
  revert x. induction xs as [|y ys IH]; intros x; [done|].
  cbn [map]. rewrite !join_cons2, IH.
  destruct (map (app (lit " ")) ys); simpl; by rewrite <- ?app_assoc.
Qed.

Lemma join_app (sep : jstring) (xs ys : list jstring) :
  xs ≠ [] → ys ≠ [] → join sep (xs ++ ys) = join sep xs ++ sep ++ join sep ys.
Proof.
  intros Hxs Hys. induction xs as [|x xs IH]; [done|].
  destruct xs as [|x2 xs].
  - destruct ys as [|y ys]; [done|]. reflexivity.
  - rewrite <- !app_comm_cons, !join_cons2. rewrite app_comm_cons, IH by done.
    by rewrite <- !app_assoc.
Qed.

Lemma join_groups (sep : jstring) (g : list jstring) (gs : list (list jstring)) :
  g ≠ [] → Forall (λ g, g ≠ []) gs →
  join sep (map (join sep) (g :: gs)) = join sep (concat (g :: gs)).
Proof.
  revert g. induction gs as [|g2 gs IH]; intros g Hg Hgs.
  - simpl. by rewrite app_nil_r.
  - inversion Hgs as [|? ? Hg2 Hgs']; subst.
    change (map (join sep) (g :: g2 :: gs))
      with (join sep g :: join sep g2 :: map (join sep) gs).
    rewrite join_cons2.
    change (join sep g2 :: map (join sep) gs) with (map (join sep) (g2 :: gs)).
    rewrite IH by done.
    change (concat (g :: g2 :: gs)) with (g ++ concat (g2 :: gs)).
    rewrite join_app; [done|done|].
    simpl. destruct g2; [done|discriminate].
Qed.

(** A folded line as its physical lines: the first piece, and the other
    pieces each behind a space. *)
Lemma fold_line_physical (line : jstring) :
  one_line line →
  ∃ phys, fold_line line = join crlf phys ∧ phys ≠ []
          ∧ Forall (λ p, one_line p ∧ length p ≤ 71) phys.
Proof.
  intros Hline. destruct (fold_line_pieces line) as (ps & Hfold & Hcat & Hne & Hlen & _).
  destruct ps as [|p ps]; [done|].
  exists (p :: map (app (lit " ")) ps). rewrite Hfold, join_fold_mark.
  split; [done|]. split; [done|].
  assert (Hones : Forall one_line (p :: ps)).
  { apply Forall_forall. intros q Hq. rewrite <- Hcat in Hline.
    unfold one_line in *. rewrite Forall_concat in Hline.
    by apply (proj1 (Forall_forall _ _) Hline). }
  inversion Hones as [|? ? Hp Hps]; inversion Hlen as [|? ? Lp Lps]; subst.
  constructor; [split; [done|lia]|].
  apply Forall_fmap. apply Forall_forall. intros q Hq. simpl. split.
  - constructor; [by split|]. by apply (proj1 (Forall_forall _ _) Hps).
  - pose proof (proj1 (Forall_forall _ _) Lps q Hq). simpl in *. lia.
Qed.

Lemma fold_lines_physical (lines : list jstring) :
  Forall one_line lines →
  ∃ groups, map fold_line lines = map (join crlf) groups
            ∧ Forall (λ g, g ≠ []) groups
            ∧ Forall (Forall (λ p, one_line p ∧ length p ≤ 71)) groups.
Proof.
  induction 1 as [|l ls Hl _ (gs & Hmap & Hne & Hok)].
  - exists []. by repeat split.
  - destruct (fold_line_physical l Hl) as (g & Hg & Hgne & Hgok).
    exists (g :: gs). simpl. rewrite Hg, Hmap. split; [done|].
    split; by constructor.
Qed.

(** X20: no physical line of the file the script writes has more than
    71 units, whatever the card holds: 70 of the logical line and, on a
    continuation line, the space before them. *)
Theorem buildVCard_line_length (card : Card.t) :
  Forall (λ p, length p ≤ 71) (split_breaks (buildVCard card)).
Proof.
  pose proof (script_lines_ok card) as Hok.
  assert (Hone : Forall one_line (script_lines card)).
  { eapply Forall_impl; [exact Hok|]. by intros l [? _]. }
  assert (Hne : script_lines card ≠ []) by (unfold script_lines; discriminate).
  rewrite buildVCard_script_lines. unfold foldVCard.
  rewrite (split_breaks_join (script_lines card)) by done.
  destruct (fold_lines_physical _ Hone) as (gs & Hmap & Hgne & Hgok).
  rewrite Hmap. destruct gs as [|g gs].
  { destruct (script_lines card); [done|discriminate]. }
  inversion Hgne; subst. rewrite join_groups by done.
  assert (Hall : Forall (λ p, one_line p ∧ length p ≤ 71) (concat (g :: gs))).
  { by apply Forall_concat. }
  rewrite split_breaks_join.
  - eapply Forall_impl; [exact Hall|]. by intros p [_ ?].
  - simpl. destruct g; [done|discriminate].
  - eapply Forall_impl; [exact Hall|]. by intros p [? _].
Qed.

(** The physical lines of the long-title card. *)
Example punctuated_row_line_lengths :
  map length (split_breaks (buildVCard punctuated_row)) = [11; 11; 11; 9; 26; 70; 9; 43; 9].
Proof. vm_compute. reflexivity. Qed.

(* ------------------------------------------------------------------ *)
(** ** The renderers against each other *)

Lemma line_if_or_empty (tag : string) (v : option jstring) (close : string) :
  line_if tag (Some (or_empty v)) close = line_if tag v close.
Proof. unfold line_if, or_empty. by destruct v as [[|a s]|]. Qed.

Lemma js_or_falsy (a b : option jstring) :
  truthy a = false → line_if "EMAIL;TYPE=INTERNET:" (js_or a b) ""
                     = line_if "EMAIL;TYPE=INTERNET:" b "".
Proof. intros Ha. unfold js_or. by rewrite Ha. Qed.

(** X21: the three renderers that do not escape write the same file:
    [buildVCard] of the sheet export and of the first QR script always,
    and [vcardFrom] of the server whenever the card has no public email
    (the one field only the server knows). *)
Theorem unescaped_renderers_agree (c : Card.t) :
  QrSheet.buildVCard c = GenQrs1.buildVCard c
  ∧ (truthy (Card.emailPublic c) = false → vcardFrom c = GenQrs1.buildVCard c).
Proof.
  split.
  - unfold QrSheet.buildVCard, GenQrs1.buildVCard. by rewrite line_if_or_empty.
  - intros Hpub. unfold vcardFrom, vcard_lines, vcard_entries, GenQrs1.buildVCard.
    rewrite (js_or_falsy _ _ Hpub). unfold name_line, name_parts. done.
Qed.

Lemma unescaped_renderers_agree_witness :
  QrSheet.buildVCard ada_row = GenQrs1.buildVCard ada_row
  ∧ vcardFrom ada_row = GenQrs1.buildVCard ada_row.
Proof.
  destruct (unescaped_renderers_agree ada_row) as [H1 H2].
  split; [exact H1|apply H2; reflexivity].
Defined.

Lemma filter_Boolean_cons (x : jstring) (l : list jstring) :
  filter_Boolean (x :: l) = match x with [] => filter_Boolean l | _ => x :: filter_Boolean l end.
Proof. by destruct x. Qed.

Lemma filter_Boolean_line_if (tag : string) (v : option jstring) (close : string)
    (rest : list jstring) :
  tag ≠ EmptyString →
  filter_Boolean (line_if tag v close :: rest) = pushed tag v close ++ filter_Boolean rest.
Proof.
  intros Htag. rewrite filter_Boolean_cons. unfold line_if, pushed.
  destruct (truthy v); [|done].
  destruct tag as [|a tag]; [done|]. reflexivity.
Qed.

(** The lines of [vcardFrom], as pushes. *)
Lemma vcard_lines_pushed (c : Card.t) :
  vcard_lines c
  = [ lit "BEGIN:VCARD"; lit "VERSION:3.0"; name_line c;
      lit "FN:" ++ or_empty (Card.name c) ]
    ++ pushed "ORG:" (Card.company c) ""
    ++ pushed "TITLE:" (Card.title c) ""
    ++ pushed "TEL;TYPE=CELL,VOICE:" (Card.mobile c) ""
    ++ pushed "TEL;TYPE=WORK,VOICE:" (Card.phone c) ""
    ++ pushed "EMAIL;TYPE=INTERNET:" (js_or (Card.emailPublic c) (Card.email c)) ""
    ++ pushed "URL:" (Card.website c) ""
    ++ pushed "ADR;TYPE=WORK:;;" (Card.address c) ";;;;"
    ++ [lit "END:VCARD"].
Proof.
  unfold vcard_lines, vcard_entries.
  rewrite (filter_Boolean_cons (lit "BEGIN:VCARD")).
  rewrite (filter_Boolean_cons (lit "VERSION:3.0")).
  rewrite (filter_Boolean_cons (name_line c)).
  rewrite (filter_Boolean_cons (lit "FN:" ++ _)).
  rewrite !filter_Boolean_line_if by discriminate.
  unfold name_line. destruct (name_parts (Card.name c)) as [first last_].
  reflexivity.
Qed.

Lemma vEscape_plain_text (s : jstring) : plain_text s → vEscape s = s.
Proof.
  induction 1 as [|c s (H92 & H44 & H59 & H10 & H13) _ IH]; [done|].
  rewrite vEscape_plain by done. by rewrite IH.
Qed.

Lemma plain_text_one_line (s : jstring) : plain_text s → one_line s.
Proof. intros H. eapply Forall_impl; [exact H|]. by intros c (_ & _ & _ & ? & ?). Qed.

Lemma words_go_Forall (P : N → Prop) (s cur : jstring) :
  Forall P cur → Forall P s → Forall (Forall P) (words_go cur s).
Proof.
  intros Hcur Hs. revert cur Hcur. induction Hs as [|c s Hc _ IH]; intros cur Hcur; simpl.
  - destruct cur; [constructor|]. constructor; [done|constructor].
  - destruct (is_ws c).
    + destruct cur; [by apply IH|]. constructor; [done|]. by apply IH.
    + apply IH. apply Forall_app. split; [done|]. by constructor.
Qed.

Lemma filter_Boolean_words (s : jstring) : filter_Boolean (words s) = words s.
Proof.
  pose proof (words_go_spec s [] (Forall_nil_2 _)) as H. fold (words s) in H.
  induction H as [|w ws [Hw _] _ IH]; [done|].
  rewrite filter_Boolean_cons, IH. by destruct w.
Qed.

(** The third script splits the name as the server does. *)
Lemma script_name_parts (name : option jstring) :
  let parts := filter_Boolean (split_ws (trim (or_empty name))) in
  (or_empty (head parts),
   if (1 <? length parts)%nat then default [] (last parts) else [])
  = name_parts name.
Proof.
  unfold name_parts. simpl. rewrite split_ws_trim.
  pose proof (filter_Boolean_words (or_empty name)) as Hf.
  destruct (words (or_empty name)) as [|w [|w2 ws]] eqn:Hw.
  - reflexivity.
  - rewrite Hf. reflexivity.
  - rewrite Hf. reflexivity.
Qed.

Lemma script_line_plain (tag : string) (v : option jstring) (close : string) :
  plain_text (or_empty v) → script_line tag v close = pushed tag v close.
Proof.
  intros Hv. unfold script_line, pushed, or_empty in *.
  destruct (truthy v); [|done]. by rewrite vEscape_plain_text.
Qed.

Lemma name_parts_plain (name : option jstring) :
  plain_text (or_empty name) →
  plain_text (name_parts name).1 ∧ plain_text (name_parts name).2.
Proof.
  intros Hp. destruct name as [s|]; [|split; constructor].
  rewrite or_empty_Some in Hp. rewrite name_parts_words. cbn [fst snd].
  pose proof (words_go_Forall _ s [] (Forall_nil_2 _) Hp) as Hw. fold (words s) in Hw.
  split.
  - destruct (words s) as [|w ws]; [constructor|]. by inversion Hw.
  - destruct (2 <=? length (words s)); [|constructor].
    destruct (last (words s)) as [w|] eqn:Hl; [|constructor].
    apply last_Some_elem_of in Hl.
    by apply (proj1 (Forall_forall _ _) Hw).
Qed.

Lemma name_parts_Forall (P : N → Prop) (name : option jstring) :
  Forall P (or_empty name) →
  Forall P (name_parts name).1 ∧ Forall P (name_parts name).2.
Proof.
  intros Hp. destruct name as [s|]; [|split; constructor].
  rewrite or_empty_Some in Hp. rewrite name_parts_words. cbn [fst snd].
  pose proof (words_go_Forall _ s [] (Forall_nil_2 _) Hp) as Hw. fold (words s) in Hw.
  split.
  - destruct (words s) as [|w ws]; [constructor|]. by inversion Hw.
  - destruct (2 <=? length (words s)); [|constructor].
    destruct (last (words s)) as [w|] eqn:Hl; [|constructor].
    apply last_Some_elem_of in Hl.
    by apply (proj1 (Forall_forall _ _) Hw).
Qed.

Lemma pushed_one_line (tag : string) (v : option jstring) (close : string) :
  one_line (lit tag) → one_line (lit close) → one_line (or_empty v) →
  Forall one_line (pushed tag v close).
Proof.
  intros Htag Hclose Hv. unfold pushed, or_empty in *.
  destruct (truthy v); [|constructor]. constructor; [|constructor].
  apply Forall_app. split; [done|]. by apply Forall_app.
Qed.

(** When no value holds a line break, no entry of the array does. *)
Lemma vcard_lines_one_line (c : Card.t) :
  Forall (λ v, one_line (or_empty v)) (rendered_fields c) →
  Forall one_line (vcard_lines c).
Proof.
  unfold rendered_fields. rewrite !Forall_cons.
  intros (Hn & Hco & Hti & Hmo & Hph & Hep & Hem & Hwe & Had & _).
  rewrite vcard_lines_pushed.
  destruct (name_parts_Forall _ (Card.name c) Hn) as [Hfirst Hlast].
  constructor; [literal_one_line|].
  constructor; [literal_one_line|].
  constructor.
  { unfold name_line. destruct (name_parts (Card.name c)) as [first last_].
    cbn [fst snd] in *.
    apply Forall_app. split; [literal_one_line|].
    apply Forall_app. split; [done|].
    apply Forall_app. split; [literal_one_line|].
    apply Forall_app. split; [done|literal_one_line]. }
  constructor.
  { apply Forall_app. split; [literal_one_line|done]. }
  assert (Hmail : one_line (or_empty (js_or (Card.emailPublic c) (Card.email c)))).
  { unfold js_or. by destruct (truthy (Card.emailPublic c)). }
  repeat (apply Forall_app; split;
          [apply pushed_one_line; [literal_one_line|literal_one_line|done]|]).
  constructor; [literal_one_line|constructor].
Qed.


(** The sample cards: the file of the first has the eight lines of its
    array; the address of the other holds a line feed: its array has
    eight entries, its file nine lines. *)
Example lines_of_sample_files :
  split_breaks (vcardFrom ada_row)
  = [ lit "BEGIN:VCARD"; lit "VERSION:3.0"; lit "N:Lovelace;Ada;;;";
      lit "FN:Ada Lovelace"; lit "ORG:Analytical Engines";
      lit "TEL;TYPE=CELL,VOICE:+1-555-0100"; lit "EMAIL;TYPE=INTERNET:ada@example.com";
      lit "END:VCARD" ]
  ∧ length (vcard_lines punctuated_row) = 8
  ∧ length (split_breaks (vcardFrom punctuated_row)) = 9.
Proof. vm_compute. repeat split; reflexivity. Qed.


Lemma script_lines_plain (c : Card.t) :
  truthy (Card.emailPublic c) = false →
  trim (or_empty (Card.name c)) = or_empty (Card.name c) →
  Forall plain_text (rendered_values c) →
  script_lines c = vcard_lines c.
Proof.
  intros Hpub Htrim Hplain. rewrite vcard_lines_pushed.
  unfold rendered_values in Hplain. simpl in Hplain.
  repeat match goal with
         | H : Forall _ (_ :: _) |- _ => apply Forall_cons in H as [? H]
         end.
  unfold script_lines.
  pose proof (script_name_parts (Card.name c)) as Hparts. simpl in Hparts.
  destruct (name_parts_plain (Card.name c)) as [Hfirst Hlast]; [done|].
  unfold name_line. rewrite <- Hparts in *. simpl in *.
  rewrite (vEscape_plain_text _ Hfirst), (vEscape_plain_text _ Hlast).
  rewrite Htrim. rewrite (vEscape_plain_text (or_empty (Card.name c))) by done.
  rewrite !script_line_plain by done.
  unfold js_or. by rewrite Hpub.
Qed.

(** X23: on plain data the script and the server write the same file.
    For a card without public email, whose name has no white space
    around it, whose values hold none of backslash, comma, semicolon and
    line break, and whose lines have at most 70 units, the escaped and
    folded [buildVCard] of the script equals [vcardFrom]. *)
Theorem script_and_server_agree_on_plain_cards (c : Card.t) :
  truthy (Card.emailPublic c) = false →
  trim (or_empty (Card.name c)) = or_empty (Card.name c) →
  Forall plain_text (rendered_values c) →
  Forall (λ l, length l ≤ 70) (vcard_lines c) →
  buildVCard c = vcardFrom c.
Proof.
  intros Hpub Htrim Hplain Hshort.
  pose proof (script_lines_plain c Hpub Htrim Hplain) as Hlines.
  pose proof (script_lines_ok c) as Hok.
  assert (Hone : Forall one_line (script_lines c)).
  { eapply Forall_impl; [exact Hok|]. by intros l [? _]. }
  assert (Hne : script_lines c ≠ []) by (unfold script_lines; discriminate).
  rewrite buildVCard_script_lines. unfold foldVCard, vcardFrom.
  rewrite split_breaks_join by done. rewrite Hlines. f_equal.
  clear -Hshort. induction Hshort as [|l ls Hl _ IH]; [done|].
  simpl. by rewrite fold_line_short, IH.
Qed.

Lemma script_and_server_agree_on_plain_cards_witness :
  buildVCard ada_row = vcardFrom ada_row.
Proof.
  apply (script_and_server_agree_on_plain_cards ada_row).
  - reflexivity.
  - reflexivity.
  - apply (bool_decide_eq_true_1 (Forall plain_text (rendered_values ada_row))).
    vm_compute. reflexivity.
  - apply (bool_decide_eq_true_1
             (Forall (λ l, length l ≤ 70) (vcard_lines ada_row))).
    vm_compute. reflexivity.
Defined.

(* ------------------------------------------------------------------ *)
(** ** The sheet export: reading the CSV back *)

Lemma bare_cr_false (s : jstring) :
  bare_cr s = false → QrSheet.needs_quotes s = false → has_cr s = false.
Proof. unfold bare_cr, has_cr. intros Hb Hq. by rewrite Hq in Hb. Qed.

Lemma csv_plain_run (s cell : jstring) (row : list jstring) (rest : jstring) :
  QrSheet.needs_quotes s = false → has_cr s = false →
  csv_go Plain cell row (s ++ rest) = csv_go Plain (cell ++ s) row rest.
Proof.
  revert cell. induction s as [|c s IH]; intros cell Hs Hcr.
  - by rewrite app_nil_r.
  - simpl in Hs. apply orb_false_iff in Hs as [Hc Hs].
    apply orb_false_iff in Hc as [Hc H10]. apply orb_false_iff in Hc as [H34 H44].
    simpl in Hcr. apply orb_false_iff in Hcr as [H13 Hcr].
    simpl. rewrite H44, H10, H13, H34. simpl.
    rewrite IH by done. by rewrite <- app_assoc.
Qed.

Lemma csv_quoted_run (s cell : jstring) (row : list jstring) (rest : jstring) :
  csv_go Quoted cell row (replace_unit 34 (dquote ++ dquote) s ++ rest)
  = csv_go Quoted (cell ++ s) row rest.
Proof.
  revert cell. induction s as [|c s IH]; intros cell.
  - by rewrite app_nil_r.
  - unfold replace_unit in *. simpl. destruct (c =? 34)%N eqn:Hc.
    + apply N.eqb_eq in Hc as ->. simpl.
      rewrite IH. by rewrite <- app_assoc.
    + simpl. rewrite Hc. rewrite IH. by rewrite <- app_assoc.
Qed.

(** A written cell, followed by a comma or a line feed, is read as the
    value, unless it was written without quotes and holds a carriage
    return. *)
Lemma csv_cell_then_comma (v : option jstring) (row : list jstring) (rest : jstring) :
  bare_cr (default [] v) = false →
  csv_go Plain [] row (QrSheet.csv_cell v ++ 44%N :: rest)
  = csv_go Plain [] (row ++ [default [] v]) rest.
Proof.
  intros Hcr.
  unfold QrSheet.csv_cell. destruct (QrSheet.needs_quotes (default [] v)) eqn:Hq.
  - rewrite <- !app_assoc. change (dquote ++ ?x) with (34%N :: x). cbn [csv_go].
    simpl. rewrite csv_quoted_run. reflexivity.
  - rewrite csv_plain_run by (done || by apply bare_cr_false). reflexivity.
Qed.

Lemma csv_cell_then_lf (v : option jstring) (row : list jstring) (rest : jstring) :
  bare_cr (default [] v) = false →
  csv_go Plain [] row (QrSheet.csv_cell v ++ 10%N :: rest)
  = (row ++ [default [] v]) :: csv_go Plain [] [] rest.
Proof.
  intros Hcr.
  unfold QrSheet.csv_cell. destruct (QrSheet.needs_quotes (default [] v)) eqn:Hq.
  - rewrite <- !app_assoc. change (dquote ++ ?x) with (34%N :: x). cbn [csv_go].
    simpl. rewrite csv_quoted_run. reflexivity.
  - rewrite csv_plain_run by (done || by apply bare_cr_false). reflexivity.
Qed.

Lemma csv_row_read (v : option jstring) (vs : list (option jstring))
    (row : list jstring) (rest : jstring) :
  no_bare_cr (v :: vs) →
  csv_go Plain [] row (QrSheet.toCsvRow (v :: vs) ++ rest)
  = (row ++ map (default []) (v :: vs)) :: csv_go Plain [] [] rest.
Proof.
  unfold QrSheet.toCsvRow, no_bare_cr.
  revert v row. induction vs as [|v2 vs IH]; intros v row Hcr.
  - simpl. rewrite <- app_assoc. apply csv_cell_then_lf. by inversion Hcr.
  - change (map QrSheet.csv_cell (v :: v2 :: vs))
      with (QrSheet.csv_cell v :: map QrSheet.csv_cell (v2 :: vs)).
    destruct (map QrSheet.csv_cell (v2 :: vs)) as [|c2 cs] eqn:Hmap; [discriminate|].
    rewrite join_cons2, <- Hmap. rewrite <- !app_assoc.
    change (lit "," ++ ?x) with (44%N :: x).
    inversion Hcr as [|? ? Hv Hvs]; subst.
    rewrite csv_cell_then_comma by done. rewrite app_assoc, IH by done.
    by rewrite <- app_assoc.
Qed.

Lemma sheet_concat (base : jstring) (rows : list Card.t) :
  QrSheet.sheet base rows
  = QrSheet.toCsvRow QrSheet.header
    ++ concat (map (λ c, QrSheet.toCsvRow (QrSheet.card_cells base c)) rows).
Proof.
  unfold QrSheet.sheet. generalize (QrSheet.toCsvRow QrSheet.header).
  induction rows as [|c rows IH]; intros acc; simpl.
  - by rewrite app_nil_r.
  - rewrite IH. by rewrite <- app_assoc.
Qed.

Lemma read_csv_rows (base : jstring) (rows : list Card.t) :
  Forall (λ c, no_bare_cr (QrSheet.card_cells base c)) rows →
  read_csv (concat (map (λ c, QrSheet.toCsvRow (QrSheet.card_cells base c)) rows))
  = map (λ c, map (default []) (QrSheet.card_cells base c)) rows.
Proof.
  unfold read_csv. induction 1 as [|c rows Hc _ IH]; [done|].
  cbn [map concat]. unfold QrSheet.card_cells at 1.
  rewrite csv_row_read by exact Hc. by rewrite IH.
Qed.

Lemma header_no_bare_cr : no_bare_cr QrSheet.header.
Proof.
  apply (bool_decide_eq_true_1 (no_bare_cr QrSheet.header)). vm_compute. reflexivity.
Qed.

(** The text up to the first carriage return. *)
Lemma has_cr_split (s : jstring) :
  has_cr s = true →
  ∃ pre post, s = pre ++ 13%N :: post ∧ has_cr pre = false.
Proof.
  induction s as [|c s IH]; [discriminate|]. simpl.
  destruct (c =? 13)%N eqn:Hc.
  - apply N.eqb_eq in Hc as ->. intros _. by exists [], s.
  - simpl. intros Hs. destruct (IH Hs) as (pre & post & -> & Hpre).
    exists (c :: pre), post. split; [done|]. simpl. by rewrite Hc.
Qed.

Lemma needs_quotes_app (s r : jstring) :
  QrSheet.needs_quotes (s ++ r) = QrSheet.needs_quotes s || QrSheet.needs_quotes r.
Proof. unfold QrSheet.needs_quotes. apply existsb_app. Qed.

(** X24: what [toCsvRow] writes, read by a reader of comma-separated
    text that ends a row at a line feed, a carriage return or the two
    together. [toCsvRow] puts a value between quotes when it holds a
    quote, a comma or a line feed, and not for a carriage return alone.
    So a row of one or more values is read as exactly these values, and
    the reader resumes after it, when no value is written without
    quotes while holding a carriage return; the sheet [main] writes
    then reads back as the header and one row of twelve cells per card.
    A value that holds a carriage return and no quote, comma or line
    feed is not read back: the row ends inside it. *)
Theorem csv_sheet_reads_back
    (vals : list (option jstring)) (more : jstring)
    (FRONTEND_BASE : jstring) (rows : list Card.t) (s : jstring) :
  (vals ≠ [] → no_bare_cr vals →
   read_csv (QrSheet.toCsvRow vals ++ more) = map (default []) vals :: read_csv more)
  ∧ (Forall (λ c, no_bare_cr (QrSheet.card_cells FRONTEND_BASE c)) rows →
     read_csv (QrSheet.sheet FRONTEND_BASE rows)
     = map (default []) QrSheet.header
       :: map (λ c, map (default []) (QrSheet.card_cells FRONTEND_BASE c)) rows
     ∧ Forall (λ r, length r = 12) (read_csv (QrSheet.sheet FRONTEND_BASE rows)))
  ∧ (bare_cr s = true →
     QrSheet.toCsvRow [Some s] = s ++ [10%N]
     ∧ ∃ pre post, s = pre ++ 13%N :: post
                   ∧ head (read_csv (QrSheet.toCsvRow [Some s])) = Some [pre]
                   ∧ read_csv (QrSheet.toCsvRow [Some s]) ≠ [[s]]).
Proof.
  split; [|split].
  - intros Hne Hcr. destruct vals as [|v vs]; [done|].
    unfold read_csv. by rewrite csv_row_read.
  - intros Hrows.
    assert (Hsheet : read_csv (QrSheet.sheet FRONTEND_BASE rows)
                     = map (default []) QrSheet.header
                       :: map (λ c, map (default []) (QrSheet.card_cells FRONTEND_BASE c)) rows).
    { rewrite sheet_concat. unfold read_csv.
      pose proof header_no_bare_cr as Hh. unfold QrSheet.header in *. cbn [map] in *.
      rewrite csv_row_read by exact Hh. f_equal. by apply read_csv_rows. }
    split; [done|]. rewrite Hsheet. constructor; [done|].
    apply Forall_fmap, Forall_forall. by intros c _.
  - unfold bare_cr. intros Hb. apply andb_true_iff in Hb as [Hq Hcr].
    apply negb_true_iff in Hq. fold (has_cr s) in Hcr.
    assert (Hrow : QrSheet.toCsvRow [Some s] = s ++ [10%N]).
    { unfold QrSheet.toCsvRow, QrSheet.csv_cell. simpl. by rewrite Hq. }
    split; [done|].
    destruct (has_cr_split s Hcr) as (pre & post & Hs & Hpre).
    exists pre, post. split; [done|].
    assert (Hhead : head (read_csv (QrSheet.toCsvRow [Some s])) = Some [pre]).
    { rewrite Hrow, Hs. unfold read_csv. rewrite <- app_assoc.
      rewrite csv_plain_run; [done| |done].
      rewrite Hs, needs_quotes_app in Hq. by apply orb_false_iff in Hq as [? _]. }
    split; [done|].
    intros Heq. rewrite Heq in Hhead. simpl in Hhead.
    assert (Hlen : length s = length pre) by congruence.
    rewrite Hs, length_app in Hlen. simpl in Hlen. lia.
Qed.

Lemma csv_sheet_reads_back_witness :
  read_csv (QrSheet.toCsvRow [Some (lit "Doe, Smith"); None; Some (lit "x")] ++ lit "tail")
  = map (default []) [Some (lit "Doe, Smith"); None; Some (lit "x")]
    :: read_csv (lit "tail").
Proof.
  apply (csv_sheet_reads_back [Some (lit "Doe, Smith"); None; Some (lit "x")]
           (lit "tail") [] [] []).
  - discriminate.
  - apply (bool_decide_eq_true_1
             (no_bare_cr [Some (lit "Doe, Smith"); None; Some (lit "x")])).
    vm_compute. reflexivity.
Defined.

(** The sheet of the sample cards, read back: the contact file of the
    card with the line feed sits in one cell. A row whose one value is
    [a], a carriage return, [b] is read as two rows. *)
Example sheet_of_test_cards :
  Forall (λ c, no_bare_cr (QrSheet.card_cells (lit "http://localhost:3000") c)) test_cards
  ∧ map length (read_csv (QrSheet.sheet (lit "http://localhost:3000") test_cards))
    = [12; 12; 12; 12]
  ∧ (read_csv (QrSheet.sheet (lit "http://localhost:3000") test_cards) !! 3
     ≫= last) = Some (QrSheet.buildVCard punctuated_row)
  ∧ QrSheet.toCsvRow [Some (lit "a" ++ [13%N] ++ lit "b")] = lit "a" ++ [13%N] ++ lit "b" ++ [10%N]
  ∧ read_csv (QrSheet.toCsvRow [Some (lit "a" ++ [13%N] ++ lit "b")]) = [[lit "a"]; [lit "b"]]
  ∧ read_csv (lit "a,b" ++ [13%N; 10%N] ++ lit "c" ++ [13%N] ++ lit "d" ++ [10%N] ++ lit "e")
    = [[lit "a"; lit "b"]; [lit "c"]; [lit "d"]; [lit "e"]].
Proof.
  split.
  { apply (bool_decide_eq_true_1
             (Forall (λ c, no_bare_cr (QrSheet.card_cells (lit "http://localhost:3000") c))
                test_cards)).
    vm_compute. reflexivity. }
  vm_compute. repeat split; reflexivity.
Qed.

(* ------------------------------------------------------------------ *)
(** ** The generator loop *)

Section GeneratorFacts.
Variable path_join : jstring → jstring → jstring.
Variable buildMicrositeUrl : jstring → jstring.
Variable OUT_DIR : jstring.

#[local] Abbreviation process' force dry :=
  (GenQrs3.process_card path_join buildMicrositeUrl OUT_DIR force dry).
#[local] Abbreviation up_to_date' := (up_to_date path_join OUT_DIR).

Lemma existsSync_is_Some (fs : gmap (list N) GenQrs3.file) (p : jstring) :
  GenQrs3.existsSync fs p = true ↔ is_Some (fs !! p).
Proof. unfold GenQrs3.existsSync. apply bool_decide_eq_true. Qed.

Lemma existsSync_insert (fs : gmap (list N) GenQrs3.file) (p q : jstring) (f : GenQrs3.file) :
  is_Some (fs !! q) → is_Some (<[p := f]> fs !! q).
Proof.
  intros Hq. destruct (decide (p = q)) as [->|Hne].
  - rewrite lookup_insert_eq. by eexists.
  - by rewrite lookup_insert_ne.
Qed.

Lemma insert_keeps_unless_new (fs : gmap (list N) GenQrs3.file)
    (p q : jstring) (f g : GenQrs3.file) :
  fs !! p = None → fs !! q = Some g → <[p := f]> fs !! q = Some g.
Proof. intros Hp Hq. rewrite lookup_insert_ne; [done|]. congruence. Qed.

(** In a dry run a card writes nothing. *)
Lemma process_card_dry (force : bool) (fs : gmap (list N) GenQrs3.file)
    (k : GenQrs3.counters) (c : Card.t) :
  (process' force true (fs, k) c).1 = fs.
Proof.
  unfold GenQrs3.process_card, GenQrs3.write.
  repeat match goal with
         | |- context [if ?b then _ else _] => destruct b
         end; reflexivity.
Qed.

(** A card whose files are in place is skipped when not forced. *)
Lemma process_card_skip (dry : bool) (fs : gmap (list N) GenQrs3.file)
    (k : GenQrs3.counters) (c : Card.t) :
  up_to_date' fs c →
  process' false dry (fs, k) c = (fs, add_skipped 1 k).
Proof.
  intros [Hurl Hprof]. unfold GenQrs3.process_card.
  apply existsSync_is_Some in Hurl. rewrite Hurl.
  destruct (GenQrs3.hasProfileData c) eqn:Hp; [|reflexivity].
  destruct Hprof as [Hvcf Hpng]; [done|].
  apply existsSync_is_Some in Hvcf, Hpng. rewrite Hvcf, Hpng. reflexivity.
Qed.

(** The three writes of a card in a real run, each made or not on what
    was found before the first of them. *)
Lemma process_card_fs (force : bool) (fs : gmap (list N) GenQrs3.file)
    (k : GenQrs3.counters) (c : Card.t) :
  let base := path_join OUT_DIR (Card.uid c) in
  let need p := if force then true else negb (GenQrs3.existsSync fs p) in
  let hp := GenQrs3.hasProfileData c in
  (process' force false (fs, k) c).1
  = (if hp && need (base ++ lit ".png")
     then <[base ++ lit ".png" := GenQrs3.QrPng (buildVCard c)]> else id)
      ((if hp && need (base ++ lit ".vcf")
        then <[base ++ lit ".vcf" := GenQrs3.TextFile (buildVCard c)]> else id)
         ((if need (base ++ lit "-url.png")
           then <[base ++ lit "-url.png" := GenQrs3.QrPng (buildMicrositeUrl (Card.uid c))]>
           else id) fs)).
Proof.
  unfold GenQrs3.process_card, GenQrs3.write. cbn zeta.
  destruct force, (GenQrs3.hasProfileData c);
    destruct (GenQrs3.existsSync fs (path_join OUT_DIR (Card.uid c) ++ lit "-url.png"));
    destruct (GenQrs3.existsSync fs (path_join OUT_DIR (Card.uid c) ++ lit ".vcf"));
    destruct (GenQrs3.existsSync fs (path_join OUT_DIR (Card.uid c) ++ lit ".png"));
    reflexivity.
Qed.

Lemma maybe_insert_exists (b : bool) (p q : jstring) (f : GenQrs3.file)
    (fs : gmap (list N) GenQrs3.file) :
  is_Some (fs !! q) → is_Some ((if b then <[p := f]> else id) fs !! q).
Proof. destruct b; [apply existsSync_insert|done]. Qed.

Lemma maybe_insert_placed (force : bool) (p : jstring) (f : GenQrs3.file)
    (fs0 fs : gmap (list N) GenQrs3.file) :
  (is_Some (fs0 !! p) → is_Some (fs !! p)) →
  is_Some ((if (if force then true else negb (GenQrs3.existsSync fs0 p))
            then <[p := f]> else id) fs !! p).
Proof.
  intros Hmono. destruct force.
  - rewrite lookup_insert_eq. by eexists.
  - destruct (GenQrs3.existsSync fs0 p) eqn:He; simpl.
    + apply Hmono. by apply existsSync_is_Some.
    + rewrite lookup_insert_eq. by eexists.
Qed.

Lemma maybe_insert_kept (b : bool) (p q : jstring) (f g : GenQrs3.file)
    (fs0 fs : gmap (list N) GenQrs3.file) :
  fs0 !! q = Some g → fs !! q = Some g →
  ((if b && negb (GenQrs3.existsSync fs0 p) then <[p := f]> else id) fs) !! q = Some g.
Proof.
  intros H0 Hq. destruct b; [|done]. simpl.
  destruct (GenQrs3.existsSync fs0 p) eqn:He; [done|]. simpl.
  rewrite lookup_insert_ne; [done|]. intros ->.
  apply (f_equal negb) in He. simpl in He.
  assert (Hs : is_Some (fs0 !! q)) by by eexists.
  apply existsSync_is_Some in Hs. by rewrite Hs in He.
Qed.

(** A real run leaves the files of the card in place, removes nothing,
    and without force changes no file that was there. *)
Lemma process_card_writes (force : bool) (fs : gmap (list N) GenQrs3.file)
    (k : GenQrs3.counters) (c : Card.t) :
  up_to_date' (process' force false (fs, k) c).1 c
  ∧ (∀ p, is_Some (fs !! p) → is_Some ((process' force false (fs, k) c).1 !! p))
  ∧ (force = false →
     ∀ p f, fs !! p = Some f → (process' force false (fs, k) c).1 !! p = Some f).
Proof.
  rewrite process_card_fs. cbn zeta.
  set (base := path_join OUT_DIR (Card.uid c)).
  split; [|split].
  - split.
    + apply maybe_insert_exists, maybe_insert_exists.
      by apply maybe_insert_placed.
    + intros Hp. rewrite Hp. cbn [andb]. split.
      * apply maybe_insert_exists. apply maybe_insert_placed.
        apply maybe_insert_exists.
      * apply maybe_insert_placed. intros Hs.
        by apply maybe_insert_exists, maybe_insert_exists.
  - intros p Hp. by apply maybe_insert_exists, maybe_insert_exists, maybe_insert_exists.
  - intros -> p f Hpf.
    apply maybe_insert_kept; [done|]. apply maybe_insert_kept; [done|].
    by apply (maybe_insert_kept true).
Qed.

Lemma up_to_date_mono (fs fs' : gmap (list N) GenQrs3.file) (c : Card.t) :
  (∀ p, is_Some (fs !! p) → is_Some (fs' !! p)) →
  up_to_date' fs c → up_to_date' fs' c.
Proof.
  intros Hmono [Hurl Hprof]. split; [by apply Hmono|].
  intros Hp. destruct (Hprof Hp). split; by apply Hmono.
Qed.

Lemma generate_skips (dry : bool) (cards : list Card.t)
    (fs : gmap (list N) GenQrs3.file) (k : GenQrs3.counters) :
  Forall (up_to_date' fs) cards →
  foldl (process' false dry) (fs, k) cards = (fs, add_skipped (length cards) k).
Proof.
  intros Hall. revert k. induction Hall as [|c cards Hc _ IH]; intros k.
  - by destruct k.
  - cbn [foldl length]. rewrite (process_card_skip dry fs k c Hc). rewrite IH.
    f_equal. unfold add_skipped. simpl. f_equal. lia.
Qed.

Lemma generate_writes (force : bool) (cards : list Card.t)
    (fs : gmap (list N) GenQrs3.file) (k : GenQrs3.counters) :
  Forall (up_to_date' (foldl (process' force false) (fs, k) cards).1) cards
  ∧ (∀ p, is_Some (fs !! p) →
          is_Some ((foldl (process' force false) (fs, k) cards).1 !! p))
  ∧ (force = false →
     ∀ p f, fs !! p = Some f →
            (foldl (process' force false) (fs, k) cards).1 !! p = Some f).
Proof.
  revert fs k. induction cards as [|c cards IH]; intros fs k.
  - split; [constructor|]. by split.
  - cbn [foldl].
    destruct (process_card_writes force fs k c) as (Hup & Hmono & Hkeep).
    destruct (process' force false (fs, k) c) as [fs1 k1].
    cbn [fst] in Hup, Hmono, Hkeep.
    destruct (IH fs1 k1) as (IHup & IHmono & IHkeep).
    split; [|split].
    + constructor; [|exact IHup].
      exact (up_to_date_mono fs1 _ c IHmono Hup).
    + intros p Hp. apply IHmono, Hmono, Hp.
    + intros Hf p f Hpf. apply (IHkeep Hf), (Hkeep Hf), Hpf.
Qed.

Lemma generate_dry (force : bool) (cards : list Card.t)
    (fs : gmap (list N) GenQrs3.file) (k : GenQrs3.counters) :
  (foldl (process' force true) (fs, k) cards).1 = fs.
Proof.
  revert fs k. induction cards as [|c cards IH]; intros fs k; [done|].
  cbn [foldl]. pose proof (process_card_dry force fs k c) as Hdry.
  destruct (process' force true (fs, k) c) as [fs1 k1]. cbn [fst] in Hdry. subst fs1.
  apply IH.
Qed.

End GeneratorFacts.

(** X25: the generator is idempotent. After a real run, with or without
    [--force], every card has its URL code and every card with profile
    data its contact file and the code of it; a second run without
    [--force] over the same cards skips every card and leaves the
    directory as it is. *)
Theorem generator_is_idempotent
    (path_join : jstring → jstring → jstring) (buildMicrositeUrl : jstring → jstring)
    (OUT_DIR : jstring) (force : bool) (cards : list Card.t)
    (fs : gmap (list N) GenQrs3.file) :
  let first := GenQrs3.generate path_join buildMicrositeUrl OUT_DIR force false cards fs in
  Forall (up_to_date path_join OUT_DIR first.1) cards
  ∧ GenQrs3.generate path_join buildMicrositeUrl OUT_DIR false false cards first.1
    = (first.1, add_skipped (length cards) GenQrs3.no_counts).
Proof.
  intros first. subst first. unfold GenQrs3.generate.
  destruct (generate_writes path_join buildMicrositeUrl OUT_DIR force cards fs
              GenQrs3.no_counts) as (Hup & _ & _).
  split; [done|]. by apply generate_skips.
Qed.

(** X26: what the generator never does. It removes no file; without
    [--force] it leaves every file it finds as it is, contents included;
    and in a dry run it writes nothing at all. *)
Theorem generator_never_destroys
    (path_join : jstring → jstring → jstring) (buildMicrositeUrl : jstring → jstring)
    (OUT_DIR : jstring) (force : bool) (cards : list Card.t)
    (fs : gmap (list N) GenQrs3.file) :
  (∀ p, is_Some (fs !! p) →
        is_Some ((GenQrs3.generate path_join buildMicrositeUrl OUT_DIR force false
                    cards fs).1 !! p))
  ∧ (∀ p f, fs !! p = Some f →
            (GenQrs3.generate path_join buildMicrositeUrl OUT_DIR false false
               cards fs).1 !! p = Some f)
  ∧ (GenQrs3.generate path_join buildMicrositeUrl OUT_DIR force true cards fs).1 = fs.
Proof.
  unfold GenQrs3.generate. split; [|split].
  - apply generate_writes.
  - by apply generate_writes.
  - apply generate_dry.
Qed.

(** The sample cards, generated into an empty directory: the blank card
    gets its URL code only. *)
Example generate_test_cards :
  let '(fs, k) := GenQrs3.generate test_path_join test_url (lit "out") false false
                    test_cards ∅ in
  k = GenQrs3.Build_counters 0 3 2 2
  ∧ size fs = 7
  ∧ fs !! lit "out/card-blank1.vcf" = None
  ∧ fs !! lit "out/card-ada01.vcf" = Some (GenQrs3.TextFile (buildVCard ada_row)).
Proof. vm_compute. repeat split; reflexivity. Qed.

(** ** Which cards get a contact file *)

Lemma script_hasProfileData_server (c : Card.t) :
  hasProfileData c = GenQrs3.hasProfileData c || truthy (Card.emailPublic c).
Proof.
  unfold hasProfileData, GenQrs3.hasProfileData. rewrite !truthy_js_or.
  destruct (truthy (Card.name c)), (truthy (Card.mobile c)),
    (truthy (Card.phone c)), (truthy (Card.emailPublic c)),
    (truthy (Card.email c)), (truthy (Card.company c)),
    (truthy (Card.title c)), (truthy (Card.website c)),
    (truthy (Card.address c)), (truthy (Card.imageUrl c)); reflexivity.
Qed.

Lemma isClaimed_hasProfileData (c : Card.t) :
  GenQrs1.isClaimed c = true → GenQrs3.hasProfileData c = true.
Proof.
  unfold GenQrs1.isClaimed, GenQrs3.hasProfileData. rewrite !truthy_js_or.
  destruct (truthy (Card.name c)), (truthy (Card.mobile c)),
    (truthy (Card.phone c)), (truthy (Card.email c)),
    (truthy (Card.company c)), (truthy (Card.title c)),
    (truthy (Card.website c)), (truthy (Card.address c)),
    (truthy (Card.imageUrl c)); done.
Qed.

(** X27: the tests that decide whether a card gets a contact file are
    nested. A card the first QR script takes as claimed has profile data
    for the last one; a card with profile data for the last script is one
    the export of the server sends a file for, never the empty answer
    (when the database accepts the uid as a text; it refuses the lookup
    otherwise and the call is left without an answer); the two tests of profile data differ by [emailPublic] alone, which
    only the server reads; and a card the sheet export marks claimed
    without a claim date is claimed for the first script too. *)
Theorem profile_tests_are_nested (accepts : jstring → bool) (db : store) (c : Card.t) :
  db !! Card.uid c = Some c →
  (GenQrs1.isClaimed c = true → GenQrs3.hasProfileData c = true)
  ∧ (GenQrs3.hasProfileData c = true →
     get_vcf accepts (Card.uid c) db
     = if accepts (Card.uid c) then vcf_file (Card.uid c) (vcardFrom c)
       else Rejected RefusedText)
  ∧ hasProfileData c = GenQrs3.hasProfileData c || truthy (Card.emailPublic c)
  ∧ (Card.claimedAt c = None → QrSheet.claimed c = true →
     GenQrs1.isClaimed c = true).
Proof.
  intros Hc. split; [apply isClaimed_hasProfileData|].
  split; [|split; [apply script_hasProfileData_server|]].
  - intros Hp. unfold get_vcf, findUnique.
    destruct (accepts (Card.uid c)); [|done]. rewrite Hc.
    by rewrite script_hasProfileData_server, Hp.
  - intros Hat. unfold QrSheet.claimed, GenQrs1.isClaimed. rewrite Hat.
    rewrite !truthy_js_or. case_bool_decide as Hs; [by destruct Hs|].
    destruct (truthy (Card.name c)), (truthy (Card.mobile c)),
      (truthy (Card.email c)), (truthy (Card.company c)),
      (truthy (Card.title c)), (truthy (Card.imageUrl c)); done.
Qed.

Lemma profile_tests_are_nested_witness :
  test_db !! Card.uid ada_row = Some ada_row
  ∧ GenQrs1.isClaimed ada_row = true
  ∧ get_vcf no_nul (Card.uid ada_row) test_db
    = vcf_file (Card.uid ada_row) (vcardFrom ada_row).
Proof.
  assert (Hrow : test_db !! Card.uid ada_row = Some ada_row) by (vm_compute; reflexivity).
  destruct (profile_tests_are_nested no_nul test_db ada_row Hrow) as (H1 & H2 & _).
  split; [exact Hrow|]. split; [reflexivity|].
  apply (H2 (H1 eq_refl)).
Defined.
